(** * STIGQter: data layer, CCI import and eMASS report

    A shallow embedding of the parts of STIGQter that its written
    specification makes statements about:

    - [QString]: the Qt string operations the parsers rely on;
    - [Xml]: the token stream of [QXmlStreamReader];
    - [DbManager]: the SQLite tables and the create/read/update/delete
      operations of [dbmanager.cpp];
    - [WorkerCCIAdd]: the parsing loops of the CCI import;
    - [WorkerEMASSReport]: the eMASS Test Result Import workbook;
    - [STIGQter]: the loops of the main window and of the test run over the
      operations of the data layer;
    - [WorkerSTIGAdd]: the parser of the STIG import. *)

From Stdlib Require Import ZArith Ascii String DecimalString Decimal DecimalN.
From stdpp Require Import base list gmap strings sorting.

Local Open Scope Z_scope.

(** ** Qt strings *)

Module QString.

(** A [QString] is modelled as its sequence of 8-bit (Latin-1) code units. *)
Definition QString := list ascii.

Definition QStringLiteral (s : string) : QString := list_ascii_of_string s.

Definition isEmpty (s : QString) : bool :=
  match s with [] => true | _ => false end.

(** [QString::length()], an [int]. *)
Definition qlength (s : QString) : Z := Z.of_nat (length s).

(** [QChar::isSpace]: the characters '\t', '\n', '\v', '\f', '\r', ' ' and,
    in the Latin-1 range, NEL (0x85) and the non-breaking space (0xA0). *)
Definition isSpace (c : ascii) : bool :=
  let n := nat_of_ascii c in
  ((9 <=? n) && (n <=? 13) || (n =? 32) || (n =? 133) || (n =? 160))%nat.

Fixpoint skipSpaces (s : QString) : QString :=
  match s with
  | c :: s' => if isSpace c then skipSpaces s' else s
  | [] => []
  end.

(** [QString::trimmed()]: whitespace removed from the start and the end. *)
Definition trimmed (s : QString) : QString :=
  rev (skipSpaces (rev (skipSpaces s))).

(** Position of the first [c] in [s], counted from [i]; -1 when absent. *)
Fixpoint findFrom (c : ascii) (i : Z) (s : QString) : Z :=
  match s with
  | [] => -1
  | x :: s' => if bool_decide (x = c) then i else findFrom c (i + 1) s'
  end.

(** [QString::indexOf(ch, from)]: a negative [from] counts from the end. *)
Definition indexOfFrom (c : ascii) (from : Z) (s : QString) : Z :=
  let from' := if from <? 0 then Z.max (from + qlength s) 0 else from in
  findFrom c from' (drop (Z.to_nat from') s).

Definition indexOf (c : ascii) (s : QString) : Z := indexOfFrom c 0 s.

Definition contains (c : ascii) (s : QString) : bool :=
  negb (indexOf c s <? 0).

(** [QString::left(n)]: the whole string when [n] is negative or not less
    than the size ([take] already returns the whole list in the second
    case). *)
Definition left (n : Z) (s : QString) : QString :=
  if n <? 0 then s else take (Z.to_nat n) s.

(** [QString::right(n)]: the last [n] characters, the whole string when [n]
    is negative or not less than the size. *)
Definition right (n : Z) (s : QString) : QString :=
  if n <? 0 then s else drop (length s - Z.to_nat n)%nat s.

(** [QStringRef(&s, position, n)] as it is consumed by [QString::append]:
    a reference of non-positive size appends nothing. *)
Definition midRef (position n : Z) (s : QString) : QString :=
  if n <=? 0 then [] else take (Z.to_nat n) (drop (Z.to_nat position) s).

Definition endsWith (suffix s : QString) : bool :=
  bool_decide (drop (length s - length suffix)%nat s = suffix).

Definition INT_MAX : Z := 2147483647.
Definition INT_MIN : Z := -2147483648.

(** [QString::toInt()], base 10: surrounding whitespace is ignored, one
    sign is accepted, and the result is 0 when the text is not a number or
    does not fit an [int]. *)
Definition toInt (s : QString) : Z :=
  let t := trimmed s in
  let '(negative, body) :=
    match t with
    | "-"%char :: r => (true, r)
    | "+"%char :: r => (false, r)
    | _ => (false, t)
    end in
  match NilZero.uint_of_string (string_of_list_ascii body) with
  | Some d =>
      let v := Z.of_N (N.of_uint d) in
      let v' := if negative then - v else v in
      if (INT_MIN <=? v') && (v' <=? INT_MAX) then v' else 0
  | None => 0
  end.

(** [QString::number(int)]. *)
Definition number (n : Z) : QString :=
  let digits := list_ascii_of_string (NilZero.string_of_uint (N.to_uint (Z.abs_N n))) in
  if n <? 0 then "-"%char :: digits else digits.

Definition isLetter (c : ascii) : bool :=
  let n := nat_of_ascii c in
  ((65 <=? n) && (n <=? 90) || (97 <=? n) && (n <=? 122))%nat.

Definition isDigit (c : ascii) : bool :=
  let n := nat_of_ascii c in ((48 <=? n) && (n <=? 57))%nat.

(** The punctuation the control-name parsers look for. *)
Definition isMark (c : ascii) : bool :=
  bool_decide (c ∈ [" "; "."; "("; ")"; "-"; "+"]%char).

(** SQLite's [LOWER]: ASCII letters only. *)
Definition toLowerChar (c : ascii) : ascii :=
  let n := nat_of_ascii c in
  if ((65 <=? n) && (n <=? 90))%nat then ascii_of_nat (n + 32) else c.

Definition LOWER (s : QString) : QString := map toLowerChar s.

(** Byte-wise comparison (SQLite's BINARY collation). *)
Fixpoint leb (s t : QString) : bool :=
  match s, t with
  | [], _ => true
  | _ :: _, [] => false
  | x :: s', y :: t' =>
      if (nat_of_ascii x <? nat_of_ascii y)%nat then true
      else if (nat_of_ascii y <? nat_of_ascii x)%nat then false
      else leb s' t'
  end.

End QString.

Export QString.

Declare Scope qstring_scope.
Delimit Scope qstring_scope with qs.
Notation "'Q' s" := (QStringLiteral s%string) (at level 1, s at level 0, only parsing) : qstring_scope.
Local Open Scope qstring_scope.

(** ** The token stream of [QXmlStreamReader] *)

Module Xml.

(** Qt's tokenizer is library code; a document is modelled by the tokens
    [readNext()] delivers.  [Invalid] is the token delivered at the place
    where the markup is malformed: it puts the reader into its error
    state. *)
Inductive Token :=
  | StartElement (name : QString) (attributes : list (QString * QString))
  | EndElement (name : QString)
  | Characters (text : QString)
  | Comment
  | Invalid.

Definition Attributes := list (QString * QString).

(** [attributes().hasAttribute(name)]. *)
Definition hasAttribute (name : QString) (attrs : Attributes) : bool :=
  bool_decide (name ∈ map fst attrs).

(** The idiom
    [Q_FOREACH (attr, xml->attributes()) if (attr.name() == name) v = attr.value()]
    run on a variable holding [v0]: the last attribute of that name wins. *)
Definition attributeValue (name : QString) (v0 : QString) (attrs : Attributes) : QString :=
  fold_left (fun v attr => if bool_decide (fst attr = name) then snd attr else v) attrs v0.

(** [readElementText()] with the default [ErrorOnUnexpectedElement]: the text
    up to the end tag.  Returns the text, the tokens left to read and whether
    the reader is still free of errors; on an error (a child element, an
    invalid token, a premature end) it returns the text read so far. *)
Fixpoint readElementText (acc : QString) (toks : list Token) : QString * list Token * bool :=
  match toks with
  | Characters t :: rest => readElementText (acc ++ t) rest
  | Comment :: rest => readElementText acc rest
  | EndElement _ :: rest => (acc, rest, true)
  | StartElement _ _ :: rest => (acc, rest, false)
  | Invalid :: rest => (acc, rest, false)
  | [] => (acc, [], false)
  end.

End Xml.

Export Xml.

(** ** The data layer *)

Module DbManager.

(** *** Entities *)

Inductive Status := NotReviewed | Open | NotAFinding | NotApplicable.

Inductive Severity := none | low | medium | high.

#[global] Instance Status_eq_dec : EqDecision Status.
Proof. solve_decision. Defined.

#[global] Instance Severity_eq_dec : EqDecision Severity.
Proof. solve_decision. Defined.

Record Family := mkFamily {
  Family_id : Z;
  Family_acronym : QString;
  Family_description : QString }.

(** The nullable column [enhancement] holds -1 for NULL, the value
    [GetControl(int)] reads a NULL as. *)
Record Control := mkControl {
  Control_id : Z;
  Control_familyId : Z;
  Control_number : Z;
  Control_enhancement : Z;
  Control_title : QString;
  Control_description : QString }.

Record CCI := mkCCI {
  CCI_id : Z;
  CCI_controlId : Z;
  CCI_cci : Z;
  CCI_definition : QString;
  CCI_isImport : bool;
  CCI_importCompliance : QString;
  CCI_importDateTested : QString;
  CCI_importTestedBy : QString;
  CCI_importTestResults : QString }.

Record STIG := mkSTIG {
  STIG_id : Z;
  STIG_title : QString;
  STIG_description : QString;
  STIG_release : QString;
  STIG_version : Z;
  STIG_benchmarkId : QString;
  STIG_fileName : QString }.

(** [STIGCheck_guidance] stands for the weight and the free-text columns
    that the operations below only copy (vulnDiscussion, falsePositives,
    falseNegatives, fix, check, documentable, mitigations,
    severityOverrideGuidance, checkContentRef, potentialImpact,
    mitigationControl, IAControls, targetKey).  The columns thirdPartyTools
    and responsibility are fields of their own: reading a row back does not
    copy them. *)
Record STIGCheck := mkSTIGCheck {
  STIGCheck_id : Z;
  STIGCheck_stigId : Z;
  STIGCheck_cciId : Z;
  STIGCheck_rule : QString;
  STIGCheck_vulnNum : QString;
  STIGCheck_groupTitle : QString;
  STIGCheck_ruleVersion : QString;
  STIGCheck_severity : Severity;
  STIGCheck_title : QString;
  STIGCheck_thirdPartyTools : QString;
  STIGCheck_responsibility : QString;
  STIGCheck_guidance : list QString }.

Record Asset := mkAsset {
  Asset_id : Z;
  Asset_assetType : QString;
  Asset_hostName : QString;
  Asset_hostIP : QString;
  Asset_hostMAC : QString;
  Asset_hostFQDN : QString;
  Asset_techArea : QString;
  Asset_targetKey : QString;
  Asset_webOrDB : bool;
  Asset_webDbSite : QString;
  Asset_webDbInstance : QString }.

Record AssetSTIG := mkAssetSTIG {
  AssetSTIG_id : Z;
  AssetSTIG_AssetId : Z;
  AssetSTIG_STIGId : Z }.

Record CKLCheck := mkCKLCheck {
  CKLCheck_id : Z;
  CKLCheck_assetId : Z;
  CKLCheck_stigCheckId : Z;
  CKLCheck_status : Status;
  CKLCheck_findingDetails : QString;
  CKLCheck_comments : QString;
  CKLCheck_severityOverride : Severity;
  CKLCheck_severityJustification : QString }.

#[global] Instance Family_eq_dec : EqDecision Family.
Proof. solve_decision. Defined.

#[global] Instance CCI_eq_dec : EqDecision CCI.
Proof. solve_decision. Defined.

#[global] Instance STIG_eq_dec : EqDecision STIG.
Proof. solve_decision. Defined.

#[global] Instance Asset_eq_dec : EqDecision Asset.
Proof. solve_decision. Defined.

#[global] Instance AssetSTIG_eq_dec : EqDecision AssetSTIG.
Proof. solve_decision. Defined.

#[global] Instance CKLCheck_eq_dec : EqDecision CKLCheck.
Proof. solve_decision. Defined.

(** Default-constructed objects; the data layer documents them as "the
    default empty one with an ID of -1". *)
Definition Asset_default : Asset := mkAsset (-1) [] [] [] [] [] [] [] false [] [].
Definition STIG_default : STIG := mkSTIG (-1) [] [] [] 0 [] [].
Definition CCI_default : CCI := mkCCI (-1) (-1) 0 [] false [] [] [] [].
Definition STIGCheck_default : STIGCheck :=
  mkSTIGCheck (-1) (-1) (-1) [] [] [] [] none [] [] [] [].
Definition CKLCheck_default : CKLCheck := mkCKLCheck (-1) (-1) (-1) NotReviewed [] [] none [].
Definition Family_default : Family := mkFamily (-1) [] [].

(** *** Tables *)

(** A table with an [INTEGER PRIMARY KEY AUTOINCREMENT]: its rows in
    insertion order and the largest id handed out so far. *)
Record Table (A : Type) := mkTable { rows : list A; sequence : Z }.
Arguments mkTable {A} _ _.
Arguments rows {A} _.
Arguments sequence {A} _.

Definition emptyTable {A} : Table A := mkTable [] 0.

(** [INSERT]: the new row gets the next id; returns [lastInsertId()]. *)
Definition insertRow {A} (row : Z -> A) (t : Table A) : Table A * Z :=
  let id := sequence t + 1 in (mkTable (rows t ++ [row id]) id, id).

(** [INSERT ... SELECT]: one new row per selected source row. *)
Definition insertRows {A B} (row : B -> Z -> A) (src : list B) (t : Table A) : Table A :=
  fold_left (fun t b => fst (insertRow (row b) t)) src t.

(** [DELETE ... WHERE]. *)
Definition deleteRows {A} (where_ : A -> bool) (t : Table A) : Table A :=
  mkTable (List.filter (fun r => negb (where_ r)) (rows t)) (sequence t).

(** [UPDATE ... SET ... WHERE]. *)
Definition updateRows {A} (where_ : A -> bool) (set : A -> A) (t : Table A) : Table A :=
  mkTable (map (fun r => if where_ r then set r else r) (rows t)) (sequence t).

(** [SELECT ... WHERE], in table order. *)
Definition selectRows {A} (where_ : A -> bool) (t : Table A) : list A :=
  List.filter where_ (rows t).

Record Db := mkDb {
  tblFamily : Table Family;
  tblControl : Table Control;
  tblCCI : Table CCI;
  tblSTIG : Table STIG;
  tblSTIGCheck : Table STIGCheck;
  tblAsset : Table Asset;
  tblAssetSTIG : Table AssetSTIG;
  tblCKLCheck : Table CKLCheck }.

Definition emptyDb : Db :=
  mkDb emptyTable emptyTable emptyTable emptyTable emptyTable emptyTable emptyTable emptyTable.

Definition setFamily (t : Table Family) (d : Db) : Db :=
  mkDb t (tblControl d) (tblCCI d) (tblSTIG d) (tblSTIGCheck d) (tblAsset d) (tblAssetSTIG d) (tblCKLCheck d).
Definition setControl (t : Table Control) (d : Db) : Db :=
  mkDb (tblFamily d) t (tblCCI d) (tblSTIG d) (tblSTIGCheck d) (tblAsset d) (tblAssetSTIG d) (tblCKLCheck d).
Definition setCCI (t : Table CCI) (d : Db) : Db :=
  mkDb (tblFamily d) (tblControl d) t (tblSTIG d) (tblSTIGCheck d) (tblAsset d) (tblAssetSTIG d) (tblCKLCheck d).
Definition setSTIG (t : Table STIG) (d : Db) : Db :=
  mkDb (tblFamily d) (tblControl d) (tblCCI d) t (tblSTIGCheck d) (tblAsset d) (tblAssetSTIG d) (tblCKLCheck d).
Definition setSTIGCheck (t : Table STIGCheck) (d : Db) : Db :=
  mkDb (tblFamily d) (tblControl d) (tblCCI d) (tblSTIG d) t (tblAsset d) (tblAssetSTIG d) (tblCKLCheck d).
Definition setAsset (t : Table Asset) (d : Db) : Db :=
  mkDb (tblFamily d) (tblControl d) (tblCCI d) (tblSTIG d) (tblSTIGCheck d) t (tblAssetSTIG d) (tblCKLCheck d).
Definition setAssetSTIG (t : Table AssetSTIG) (d : Db) : Db :=
  mkDb (tblFamily d) (tblControl d) (tblCCI d) (tblSTIG d) (tblSTIGCheck d) (tblAsset d) t (tblCKLCheck d).
Definition setCKLCheck (t : Table CKLCheck) (d : Db) : Db :=
  mkDb (tblFamily d) (tblControl d) (tblCCI d) (tblSTIG d) (tblSTIGCheck d) (tblAsset d) (tblAssetSTIG d) t.

(** *** The manager *)

(** A message shown to the user: [Warning(title, message, quiet)] of
    [common.h] and the direct calls of [QMessageBox::warning].  The message
    text is assembled by printing helpers and is not recorded. *)
Record Notice := mkNotice { Notice_title : string; Notice_quiet : bool }.

(** The state an operation of [DbManager] acts on: the database behind the
    connection of the current thread (taken to be open, so that
    [CheckDatabase] succeeds), the [_delayCommit] flag and the messages shown
    so far.  SQLite runs every statement in its own transaction (the code
    never calls [transaction()]), so [commit()] and the journal pragmas leave
    the tables as they are. *)
Record State := mkState { db : Db; delayCommit : bool; notices : list Notice }.

Definition M (A : Type) : Type := State -> A * State.

Definition ret {A} (a : A) : M A := fun s => (a, s).

Definition bind {A B} (m : M A) (k : A -> M B) : M B :=
  fun s => let '(a, s') := m s in k a s'.

Notation "'let*' x := m 'in' k" := (bind m (fun x => k))
  (at level 10, x name, m at level 100, k at level 200).
Notation "m ;; k" := (bind m (fun _ => k))
  (at level 100, k at level 200, right associativity).

Definition query {A} (f : Db -> A) : M A := fun s => (f (db s), s).

(** [q.exec()] of a statement that succeeds: it has its effect [f] on the
    tables and returns [true].  The operations below are given for
    statements that succeed, unless the outcome of a statement is made a
    parameter with [execWith]. *)
Definition exec (f : Db -> Db) : M bool :=
  fun s => (true, mkState (f (db s)) (delayCommit s) (notices s)).

(** [q.exec()] of a statement whose outcome is [ok].  A statement that
    fails returns [false] and changes nothing: SQLite undoes what a failed
    statement has done. *)
Definition execWith (ok : bool) (f : Db -> Db) : M bool :=
  if ok then exec f else ret false.

Definition Warning (title : string) (quiet : bool) : M unit :=
  fun s => (tt, mkState (db s) (delayCommit s) (notices s ++ [mkNotice title quiet])).

Definition getDelayCommit : M bool := fun s => (delayCommit s, s).

Definition DelayCommit (delay : bool) : M unit :=
  fun s => (tt, mkState (db s) delay (notices s)).

(** [tmp.first()] when [tmp.count() > 0]. *)
Definition first {A} (l : list A) : option A := head l.

(** *** Queries *)

(** [ORDER BY LOWER(x), x]. *)
Definition orderByLower (x y : QString) : bool :=
  if bool_decide (LOWER x = LOWER y) then leb x y else leb (LOWER x) (LOWER y).

Definition orderBy {A} (le : A -> A -> bool) (l : list A) : list A :=
  merge_sort (fun a b => Is_true (le a b)) l.

Definition GetAssets_where (where_ : Asset -> bool) (d : Db) : list Asset :=
  orderBy (fun a b => orderByLower (Asset_hostName a) (Asset_hostName b))
          (selectRows where_ (tblAsset d)).

(** [GetAssets(const STIG &)]:
    [JOIN AssetSTIG ON AssetSTIG.AssetId = Asset.id
     JOIN STIG ON STIG.id = AssetSTIG.STIGId WHERE STIG.id = :id]. *)
Definition GetAssets_STIG (stig : STIG) (d : Db) : list Asset :=
  orderBy (fun a b => orderByLower (Asset_hostName a) (Asset_hostName b))
    (flat_map (fun a =>
       flat_map (fun l =>
         flat_map (fun s =>
           if (AssetSTIG_AssetId l =? Asset_id a) && (STIG_id s =? AssetSTIG_STIGId l)
              && (STIG_id s =? STIG_id stig)
           then [a] else [])
         (rows (tblSTIG d)))
       (rows (tblAssetSTIG d)))
     (rows (tblAsset d))).

Definition GetSTIGs_where (where_ : STIG -> bool) (d : Db) : list STIG :=
  orderBy (fun a b => orderByLower (STIG_title a) (STIG_title b))
          (selectRows where_ (tblSTIG d)).

(** [GetSTIGs(const Asset &)]:
    [WHERE id IN (SELECT STIGId FROM AssetSTIG WHERE AssetId = :AssetId)]. *)
Definition GetSTIGs_Asset (asset : Asset) (d : Db) : list STIG :=
  GetSTIGs_where (fun s =>
    bool_decide (STIG_id s ∈
      map AssetSTIG_STIGId
          (selectRows (fun l => AssetSTIG_AssetId l =? Asset_id asset) (tblAssetSTIG d)))) d.

(** The [STIGCheck] that [GetSTIGChecks] builds from a row of the result:
    every column goes to its field, except that [thirdPartyTools] is
    assigned a second time, from the column [responsibility], and the field
    [responsibility] is never assigned: it keeps the value of a
    default-constructed [STIGCheck]. *)
Definition STIGCheck_read (row : STIGCheck) : STIGCheck :=
  mkSTIGCheck (STIGCheck_id row) (STIGCheck_stigId row) (STIGCheck_cciId row)
              (STIGCheck_rule row) (STIGCheck_vulnNum row) (STIGCheck_groupTitle row)
              (STIGCheck_ruleVersion row) (STIGCheck_severity row) (STIGCheck_title row)
              (STIGCheck_responsibility row)
              (STIGCheck_responsibility STIGCheck_default)
              (STIGCheck_guidance row).

Definition GetSTIGChecks_where (where_ : STIGCheck -> bool) (d : Db) : list STIGCheck :=
  map STIGCheck_read (selectRows where_ (tblSTIGCheck d)).

Definition GetSTIGChecks (stig : STIG) (d : Db) : list STIGCheck :=
  GetSTIGChecks_where (fun c => STIGCheck_stigId c =? STIG_id stig) d.

Definition GetCKLChecks_where (where_ : CKLCheck -> bool) (d : Db) : list CKLCheck :=
  selectRows where_ (tblCKLCheck d).

(** [STIGCheckId IN (SELECT id FROM STIGCheck WHERE STIGId = :STIGId)]. *)
Definition inSTIG (stigId : Z) (d : Db) (c : CKLCheck) : bool :=
  bool_decide (CKLCheck_stigCheckId c ∈
    map STIGCheck_id (selectRows (fun sc => STIGCheck_stigId sc =? stigId) (tblSTIGCheck d))).

(** [GetCKLChecks(asset, stig)]; [stig] may be the null pointer. *)
Definition GetCKLChecks (asset : Asset) (stig : option STIG) (d : Db) : list CKLCheck :=
  GetCKLChecks_where (fun c =>
    (CKLCheck_assetId c =? Asset_id asset)
    && match stig with Some s => inSTIG (STIG_id s) d c | None => true end) d.

(** [ORDER BY cci]. *)
Definition GetCCIs_where (where_ : CCI -> bool) (d : Db) : list CCI :=
  orderBy (fun a b => CCI_cci a <=? CCI_cci b) (selectRows where_ (tblCCI d)).

Definition GetCCIs (d : Db) : list CCI := GetCCIs_where (fun _ => true) d.

Definition GetCCI (id : Z) (d : Db) : CCI :=
  default CCI_default (first (GetCCIs_where (fun c => CCI_id c =? id) d)).

(** [GetFamily(const QString &acronym)]: the first matching row, or a
    [Family] whose id is -1. *)
Definition GetFamily_acronym (acronym : QString) (d : Db) : Family :=
  default Family_default
    (first (selectRows (fun f => bool_decide (Family_acronym f = acronym)) (tblFamily d))).

Definition GetAsset_hostName (hostName : QString) : M Asset :=
  query (fun d =>
    default Asset_default
      (first (GetAssets_where (fun a => bool_decide (Asset_hostName a = hostName)) d))).

Definition GetAsset_id (id : Z) : M Asset :=
  let* tmp := query (GetAssets_where (fun a => Asset_id a =? id)) in
  match first tmp with
  | Some a => ret a
  | None => Warning "Unable to Find Asset" false ;; ret Asset_default
  end.

Definition GetAsset (asset : Asset) : M Asset :=
  if Asset_id asset >? 0 then
    let* tmpAsset := GetAsset_id (Asset_id asset) in
    if Asset_id tmpAsset >? 0 then ret tmpAsset
    else GetAsset_hostName (Asset_hostName asset)
  else GetAsset_hostName (Asset_hostName asset).

Definition GetSTIG_id (id : Z) : M STIG :=
  let* tmpStigs := query (GetSTIGs_where (fun s => STIG_id s =? id)) in
  match first tmpStigs with
  | Some s => ret s
  | None => Warning "Unable to Find STIG" true ;; ret STIG_default
  end.

Definition GetSTIG_key (title : QString) (version : Z) (release : QString) : M STIG :=
  let* tmpStigs := query (GetSTIGs_where (fun s =>
      bool_decide (STIG_title s = title) && bool_decide (STIG_release s = release)
      && (STIG_version s =? version))) in
  match first tmpStigs with
  | Some s => ret s
  | None => Warning "Unable to Find STIG" true ;; ret STIG_default
  end.

Definition GetSTIG (stig : STIG) : M STIG :=
  if STIG_id stig >? 0 then
    let* tmpSTIG := GetSTIG_id (STIG_id stig) in
    if STIG_id tmpSTIG >? 0 then ret tmpSTIG
    else GetSTIG_key (STIG_title stig) (STIG_version stig) (STIG_release stig)
  else GetSTIG_key (STIG_title stig) (STIG_version stig) (STIG_release stig).

Definition GetSTIGCheck_id (id : Z) : M STIGCheck :=
  let* tmp := query (GetSTIGChecks_where (fun c => STIGCheck_id c =? id)) in
  match first tmp with
  | Some c => ret c
  | None => Warning "Unable to Find STIGCheck" false ;; ret STIGCheck_default
  end.

Definition GetSTIGCheck_rule (stig : STIG) (rule : QString) : M STIGCheck :=
  let* tmp := query (GetSTIGChecks_where (fun c =>
      (STIGCheck_stigId c =? STIG_id stig) && bool_decide (STIGCheck_rule c = rule))) in
  match first tmp with
  | Some c => ret c
  | None => Warning "Unable to Find STIGCheck" false ;; ret STIGCheck_default
  end.

(** The textual part of [GetControl(QString control)]: the family acronym,
    the control number and the enhancement (-1 when there is none) that the
    SQL query is then run with. *)
Definition parseControl (control : QString) : QString * Z * Z :=
  let control := trimmed control in
  let tmpIndex := indexOf " " control in
  let control :=
    if tmpIndex >? 0 then
      let tmpIndex := indexOfFrom " " (tmpIndex + 1) control in
      if tmpIndex >? 0 then trimmed (left (tmpIndex + 1) control) else control
    else control in
  let family := left 2 control in
  let control := right (qlength control - 3) control in
  if contains "(" control then
    let tmpIndex := indexOf "(" control in
    let enhancement := right (qlength control - tmpIndex - 1) control in
    let enhancement := left (qlength enhancement - 1) enhancement in
    let control := left (indexOf "(" control) control in
    (family, toInt control, toInt enhancement)
  else (family, toInt control, -1).

(** [GetControl(QString control)]. *)
Definition GetControl_name (control : QString) (d : Db) : Control :=
  let '(family, number, enhancement) := parseControl control in
  let familyId := Family_id (GetFamily_acronym family d) in
  let found :=
    selectRows (fun c =>
      (Control_number c =? number) && (Control_familyId c =? familyId)
      && (if enhancement >? 0 then Control_enhancement c =? enhancement else true))
      (tblControl d) in
  match first found with
  | Some c =>
      mkControl (Control_id c) familyId number enhancement
                (Control_title c) (Control_description c)
  | None => mkControl (-1) familyId number enhancement [] []
  end.

(** *** Insertions *)

Definition AddAsset (asset : Asset) : M (bool * Asset) :=
  let* n := query (fun d =>
      length (selectRows (fun a => bool_decide (Asset_hostName a = Asset_hostName asset))
                         (tblAsset d))) in
  if (0 <? Z.of_nat n) then
    Warning "Asset Already Exists" false ;; ret (false, asset)
  else
    fun s =>
      let '(t, id) := insertRow (fun id =>
          mkAsset id (Asset_assetType asset) (Asset_hostName asset) (Asset_hostIP asset)
                  (Asset_hostMAC asset) (Asset_hostFQDN asset) (Asset_techArea asset)
                  (Asset_targetKey asset) (Asset_webOrDB asset) (Asset_webDbSite asset)
                  (Asset_webDbInstance asset)) (tblAsset (db s)) in
      ((true,
        mkAsset id (Asset_assetType asset) (Asset_hostName asset) (Asset_hostIP asset)
                (Asset_hostMAC asset) (Asset_hostFQDN asset) (Asset_techArea asset)
                (Asset_targetKey asset) (Asset_webOrDB asset) (Asset_webDbSite asset)
                (Asset_webDbInstance asset)),
       mkState (setAsset t (db s)) (delayCommit s) (notices s)).

Definition AddCCI (cci : CCI) : M (bool * CCI) :=
  let* n := query (fun d =>
      length (selectRows (fun c => CCI_cci c =? CCI_cci cci) (tblCCI d))) in
  if (0 <? Z.of_nat n) then
    Warning "CCI Already Exists" false ;; ret (false, cci)
  else
    fun s =>
      let '(t, id) := insertRow (fun id =>
          mkCCI id (CCI_controlId cci) (CCI_cci cci) (CCI_definition cci) false [] [] [] [])
          (tblCCI (db s)) in
      ((true,
        if delayCommit s then cci
        else mkCCI id (CCI_controlId cci) (CCI_cci cci) (CCI_definition cci)
                   (CCI_isImport cci) (CCI_importCompliance cci) (CCI_importDateTested cci)
                   (CCI_importTestedBy cci) (CCI_importTestResults cci)),
       mkState (setCCI t (db s)) (delayCommit s) (notices s)).

Section AddFamily.

(** [Sanitize] is declared by the data layer but defined elsewhere. *)
Variable Sanitize : QString -> QString.

(** [AddFamily]: a plain [INSERT]; the columns [Acronym] and [Description]
    are declared [UNIQUE], so [q.exec()] fails when either value is already
    stored. *)
Definition AddFamily (acronym description : QString) : M bool :=
  fun s =>
    let t := tblFamily (db s) in
    if bool_decide (acronym ∈ map Family_acronym (rows t))
       || bool_decide (Sanitize description ∈ map Family_description (rows t))
    then (false, s)
    else
      let '(t', _) := insertRow (fun id => mkFamily id acronym (Sanitize description)) t in
      (true, mkState (setFamily t' (db s)) (delayCommit s) (notices s)).

End AddFamily.

(** The row [AddSTIG] stores for a check [c] of the [STIG] with id [stigId]. *)
Definition STIGCheck_row (stigId : Z) (c : STIGCheck) (id : Z) : STIGCheck :=
  mkSTIGCheck id stigId (STIGCheck_cciId c) (STIGCheck_rule c) (STIGCheck_vulnNum c)
              (STIGCheck_groupTitle c) (STIGCheck_ruleVersion c) (STIGCheck_severity c)
              (STIGCheck_title c) (STIGCheck_thirdPartyTools c) (STIGCheck_responsibility c)
              (STIGCheck_guidance c).

(** The second half of [AddSTIG], from [if (stig.id <= 0)] on: the checks
    are stored for a [STIG] that is in the database. *)
Definition AddSTIG_checks (stig : STIG) (checks : list STIGCheck) (ret0 : bool) : M bool :=
  if STIG_id stig <=? 0 then
    Warning "Unable to Add STIG" false ;; ret ret0
  else
    let* delayed := getDelayCommit in
    (if negb delayed then DelayCommit true else ret tt) ;;
    let* stigCheckRet :=
      fold_left (fun (acc : M bool) c =>
          let* r := acc in
          let* tmpRet := exec (fun d =>
              setSTIGCheck (fst (insertRow (STIGCheck_row (STIG_id stig) c) (tblSTIGCheck d))) d) in
          (if negb tmpRet then Warning "Unable to Add STIGCheck" false else ret tt) ;;
          ret (r && tmpRet))
        checks (ret true) in
    (if negb delayed then DelayCommit false else ret tt) ;;
    ret (true && stigCheckRet).

Definition AddSTIG (stig : STIG) (checks : list STIGCheck) (stigExists : bool) : M bool :=
  if STIG_id stig <=? 0 then
    let* tmpSTIG := GetSTIG_key (STIG_title stig) (STIG_version stig) (STIG_release stig) in
    if STIG_id tmpSTIG >? 0 then
      if stigExists then AddSTIG_checks tmpSTIG checks false
      else Warning "STIG Already Exists" false ;; ret false
    else
      fun s =>
        let '(t, id) := insertRow (fun id =>
            mkSTIG id (STIG_title stig) (STIG_description stig) (STIG_release stig)
                   (STIG_version stig) (STIG_benchmarkId stig) (STIG_fileName stig))
            (tblSTIG (db s)) in
        AddSTIG_checks
          (mkSTIG id (STIG_title stig) (STIG_description stig) (STIG_release stig)
                  (STIG_version stig) (STIG_benchmarkId stig) (STIG_fileName stig))
          checks true
          (mkState (setSTIG t (db s)) (delayCommit s) (notices s))
  else AddSTIG_checks stig checks false.

(** The row created for the check [sc] when its STIG is mapped to the asset
    [assetId]:
    [SELECT :AssetId, id, :status, '', '', '', '' FROM STIGCheck]. *)
Definition CKLCheck_row (assetId : Z) (sc : STIGCheck) (id : Z) : CKLCheck :=
  mkCKLCheck id assetId (STIGCheck_id sc) NotReviewed [] [] none [].

(** [AddSTIGToAsset(stig, asset)], where [ok1] and [ok2] are the outcomes of
    its two statements: the [INSERT] of the link and the [INSERT ... SELECT]
    of the check results.  No transaction is opened: the second statement
    is run only when the first has succeeded, and the link stays when the
    second fails. *)
Definition AddSTIGToAsset_with (ok1 ok2 : bool) (stig : STIG) (asset : Asset) : M bool :=
  let* tmpAsset := GetAsset asset in
  let* tmpSTIG := GetSTIG stig in
  if (Asset_id tmpAsset >? 0) && (STIG_id tmpSTIG >? 0) then
    let* r := execWith ok1 (fun d =>
        setAssetSTIG (fst (insertRow (fun id => mkAssetSTIG id (Asset_id tmpAsset) (STIG_id tmpSTIG))
                                     (tblAssetSTIG d))) d) in
    if r then
      execWith ok2 (fun d =>
        setCKLCheck
          (insertRows (CKLCheck_row (Asset_id tmpAsset))
             (selectRows (fun sc => STIGCheck_stigId sc =? STIG_id tmpSTIG) (tblSTIGCheck d))
             (tblCKLCheck d)) d)
    else ret r
  else ret false.

(** [AddSTIGToAsset(stig, asset)] when both statements succeed. *)
Definition AddSTIGToAsset (stig : STIG) (asset : Asset) : M bool :=
  AddSTIGToAsset_with true true stig asset.

(** *** Deletions *)

(** [Asset::STIGs()] and [STIG::Assets()] are the member spellings of
    [DbManager::GetSTIGs(asset)] and [DbManager::GetAssets(stig)]. *)
Definition Asset_STIGs (asset : Asset) : M (list STIG) := query (GetSTIGs_Asset asset).

Definition STIG_Assets (stig : STIG) : M (list Asset) := query (GetAssets_STIG stig).

Definition DeleteAsset (asset : Asset) : M bool :=
  let* stigs := Asset_STIGs asset in
  if 0 <? Z.of_nat (length stigs) then
    Warning "Asset Has Mapped STIGs" false ;; ret false
  else
    exec (fun d => setAsset (deleteRows (fun a => Asset_id a =? Asset_id asset) (tblAsset d)) d).

Definition DeleteAsset_id (id : Z) : M bool :=
  let* asset := GetAsset_id id in DeleteAsset asset.

Definition DeleteSTIG_id (id : Z) : M bool :=
  let* tmpStig := GetSTIG_id id in
  let* assets := STIG_Assets tmpStig in
  let tmpCount := Z.of_nat (length assets) in
  if tmpCount >? 0 then
    Warning "STIG In Use" false ;; ret false
  else
    let* r1 := exec (fun d =>
        setSTIGCheck (deleteRows (fun c => STIGCheck_stigId c =? id) (tblSTIGCheck d)) d) in
    let* r2 := exec (fun d =>
        setSTIG (deleteRows (fun s => STIG_id s =? id) (tblSTIG d)) d) in
    ret (r2 && (r1 && true)).

Definition DeleteSTIG (stig : STIG) : M bool := DeleteSTIG_id (STIG_id stig).

Definition DeleteSTIGFromAsset (stig : STIG) (asset : Asset) : M bool :=
  let* tmpSTIG := GetSTIG stig in
  let* tmpAsset := GetAsset asset in
  if (STIG_id tmpSTIG >? 0) && (Asset_id tmpAsset >? 0) then
    let* r1 := exec (fun d =>
        setAssetSTIG (deleteRows (fun l =>
            (AssetSTIG_AssetId l =? Asset_id tmpAsset) && (AssetSTIG_STIGId l =? STIG_id tmpSTIG))
          (tblAssetSTIG d)) d) in
    let* r2 := exec (fun d =>
        setCKLCheck (deleteRows (fun c =>
            (CKLCheck_assetId c =? Asset_id tmpAsset) && inSTIG (STIG_id tmpSTIG) d c)
          (tblCKLCheck d)) d) in
    ret (r2 && (r1 && true))
  else ret false.

(** *** Updates *)

Definition UpdateCKLCheck (check : CKLCheck) : M unit :=
  let set (r : CKLCheck) :=
    mkCKLCheck (CKLCheck_id r) (CKLCheck_assetId r) (CKLCheck_stigCheckId r)
               (CKLCheck_status check) (CKLCheck_findingDetails check) (CKLCheck_comments check)
               (CKLCheck_severityOverride check) (CKLCheck_severityJustification check) in
  let where_ (r : CKLCheck) :=
    if CKLCheck_id check >? 0 then CKLCheck_id r =? CKLCheck_id check
    else (CKLCheck_assetId r =? CKLCheck_assetId check)
         && (CKLCheck_stigCheckId r =? CKLCheck_stigCheckId check) in
  exec (fun d => setCKLCheck (updateRows where_ set (tblCKLCheck d)) d) ;; ret tt.

(** *** Reference data *)

(** [GetFamilies()]: no [ORDER BY]. *)
Definition GetFamilies (d : Db) : list Family := rows (tblFamily d).

(** [GetCCIByCCI(int cci, const STIG *stig)]: the CCI of that number.  When
    there is none, the user is warned and the check is remapped to CCI-366;
    [stig] only appears in the text of the warning. *)
Definition GetCCIByCCI (cci : Z) (stig : option STIG) : M CCI :=
  let* tmpList := query (GetCCIs_where (fun c => CCI_cci c =? cci)) in
  match first tmpList with
  | Some c => ret c
  | None =>
      Warning "Broken CCI" false ;;
      let* tmpList := query (GetCCIs_where (fun c => CCI_cci c =? 366)) in
      match first tmpList with
      | Some c => ret c
      | None => ret CCI_default
      end
  end.

(** [GetCCIByCCI(const CCI &cci, const STIG *stig)]. *)
Definition GetCCIByCCI_CCI (cci : CCI) (stig : option STIG) : M CCI :=
  if CCI_id cci <? 0 then GetCCIByCCI (CCI_cci cci) stig
  else query (GetCCI (CCI_id cci)).

(** The textual part of [AddControl], run on the trimmed name: the family
    acronym, the control number and the enhancement, which is left out
    ([None], stored as NULL) when it does not read as a non-zero integer. *)
Definition AddControl_parse (tmpControl : QString) : QString * Z * option Z :=
  let tmpIndex := indexOf " " tmpControl in
  let tmpControl :=
    if tmpIndex >? 0 then
      let tmpIndex := indexOfFrom " " (tmpIndex + 1) tmpControl in
      if tmpIndex >? 0 then trimmed (left (tmpIndex + 1) tmpControl) else tmpControl
    else tmpControl in
  let family := left 2 tmpControl in
  let tmpControl := right (qlength tmpControl - 3) tmpControl in
  if contains "(" tmpControl then
    let tmpIndex := indexOf "(" tmpControl in
    let enhancement := right (qlength tmpControl - tmpIndex - 1) tmpControl in
    let enhancement := left (qlength enhancement - 1) enhancement in
    let tmpControl := left (indexOf "(" tmpControl) tmpControl in
    let enhancement := if toInt enhancement =? 0 then [] else enhancement in
    (family, toInt tmpControl,
     if isEmpty enhancement then None else Some (toInt enhancement))
  else (family, toInt tmpControl, None).

(** [AddControl(control, title, description)]: the family has to be stored
    already. *)
Definition AddControl (control title description : QString) : M bool :=
  let tmpControl := trimmed control in
  if qlength tmpControl <? 4 then
    Warning "Control Does Not Exist" false ;; ret false
  else
    let '(family, number, enhancement) := AddControl_parse tmpControl in
    let* f := query (GetFamily_acronym family) in
    if Family_id f >=? 0 then
      exec (fun d =>
        setControl
          (fst (insertRow (fun id => mkControl id (Family_id f) number (default (-1) enhancement)
                                               title description)
                          (tblControl d))) d)
    else
      Warning "Family Does Not Exist" false ;; ret false.

(** [DeleteCCIs()]: three unconditional [DELETE]s. *)
Definition DeleteCCIs : M bool :=
  let* r1 := exec (fun d => setFamily (deleteRows (fun _ => true) (tblFamily d)) d) in
  let* r2 := exec (fun d => setControl (deleteRows (fun _ => true) (tblControl d)) d) in
  let* r3 := exec (fun d => setCCI (deleteRows (fun _ => true) (tblCCI d)) d) in
  ret (r3 && (r2 && (r1 && true))).

(** *** Check results *)

(** [GetCKLCheck(int id)]. *)
Definition GetCKLCheck_id (id : Z) : M CKLCheck :=
  let* tmp := query (GetCKLChecks_where (fun c => CKLCheck_id c =? id)) in
  match first tmp with
  | Some c => ret c
  | None => Warning "Unable to Find CKLCheck" false ;; ret CKLCheck_default
  end.

(** [GetCKLCheck(const CKLCheck &ckl)]: by id when [ckl] has one, by Asset
    and STIGCheck otherwise. *)
Definition GetCKLCheck (ckl : CKLCheck) : M CKLCheck :=
  let* tmp := query (GetCKLChecks_where (fun c =>
      if CKLCheck_id ckl <=? 0
      then (CKLCheck_assetId c =? CKLCheck_assetId ckl)
           && (CKLCheck_stigCheckId c =? CKLCheck_stigCheckId ckl)
      else CKLCheck_id c =? CKLCheck_id ckl)) in
  match first tmp with
  | Some c => ret c
  | None => Warning "Unable to Find CKLCheck" false ;; ret CKLCheck_default
  end.

(** *** Vocabulary of the statements about the data layer *)

(** Only messages were added: the tables and the commit mode are the same. *)
Definition sameDb (s s' : State) : Prop :=
  db s' = db s /\ delayCommit s' = delayCommit s.

(** The state after an operation that did nothing but show the warning
    [title]. *)
Definition warned (title : string) (s : State) : State :=
  mkState (db s) (delayCommit s) (notices s ++ [mkNotice title false]).

(** [new] are the rows that [after] has in [CKLCheck] on top of those of
    [before]: one per [STIGCheck] of [stig], in the same order, for [asset],
    not reviewed and without finding details. *)
Definition checksCreated (asset : Asset) (stig : STIG) (before after : Db)
    (new : list CKLCheck) : Prop :=
  rows (tblCKLCheck after) = rows (tblCKLCheck before) ++ new
  /\ map CKLCheck_stigCheckId new = map STIGCheck_id (GetSTIGChecks stig before)
  /\ Forall (fun c => CKLCheck_assetId c = Asset_id asset
                      /\ CKLCheck_status c = NotReviewed
                      /\ CKLCheck_findingDetails c = []) new.

(** The row [AddCCI] stores for the CCI [c] when the sequence of the table
    stands at [seq]. *)
Definition newCCIRow (seq : Z) (c : CCI) : CCI :=
  mkCCI (seq + 1) (CCI_controlId c) (CCI_cci c) (CCI_definition c) false [] [] [] [].

(** The tables after the two [DELETE]s of [DeleteSTIGFromAsset]. *)
Definition unmapped (assetId stigId : Z) (d : Db) : Db :=
  let d1 := setAssetSTIG (deleteRows (fun l =>
                (AssetSTIG_AssetId l =? assetId) && (AssetSTIG_STIGId l =? stigId))
              (tblAssetSTIG d)) d in
  setCKLCheck (deleteRows (fun c => (CKLCheck_assetId c =? assetId) && inSTIG stigId d1 c)
                (tblCKLCheck d1)) d1.

(** Some Asset is mapped to the STIG: the test of [DeleteSTIG]. *)
Definition inUse (stig : STIG) (d : Db) : bool :=
  0 <? Z.of_nat (length (GetAssets_STIG stig d)).

End DbManager.

Export DbManager.

(** ** The CCI import *)

Module WorkerCCIAdd.

(** *** Step 3: the families of the NIST page *)

Section Families.

Variable Sanitize : QString -> QString.

(** The body run for a link [<a id="...FamilyLink" href="...">]: the text of
    the link is "AC - Access Control".  It is run with whatever
    [readElementText()] returned, also after an error. *)
Definition addFamilyLink (family href : QString) (todo : list QString) : M (list QString) :=
  let family := trimmed family in
  let acronym := left 2 family in
  let familyName := trimmed (right (qlength family - 5) family) in
  AddFamily Sanitize acronym familyName ;;
  ret (todo ++ [href]).

(** [while (!xml->atEnd() && !xml->hasError())] over the page. *)
Fixpoint readFamilies (fuel : nat) (toks : list Token) (todo : list QString) : M (list QString) :=
  match fuel with
  | O => ret todo
  | S fuel =>
      match toks with
      | [] => ret todo
      | Invalid :: _ => ret todo
      | StartElement name attrs :: rest =>
          if bool_decide (name = Q"a")
             && (hasAttribute (Q"id") attrs && hasAttribute (Q"href") attrs)
             && endsWith (Q"FamilyLink") (attributeValue (Q"id") [] attrs)
          then
            let '(family, rest', ok) := readElementText [] rest in
            let* todo := addFamilyLink family (attributeValue (Q"href") [] attrs) todo in
            if ok then readFamilies fuel rest' todo else ret todo
          else readFamilies fuel rest todo
      | _ :: rest => readFamilies fuel rest todo
      end
  end.

(** Step 3 of [process()], on the tokens of the cleaned page. *)
Definition importFamilies (page : list Token) : M (list QString) :=
  DelayCommit true ;;
  let* todo := readFamilies (length page) page [] in
  DelayCommit false ;;
  ret todo.

End Families.

(** *** Steps 6 and 7: the CCIs of the DISA list *)

(** The control name derived from the [index] attribute of a reference:
    the text up to the first space or dot, followed by the parenthesised
    enhancement unless the parenthesis only comes after a second space. *)
Definition controlOfIndex (index : QString) : QString :=
  let control := index in
  let tmpIndex := indexOf " " index in
  let control := if contains " " control then left (indexOf " " control) control else control in
  let control := if contains "." control then left (indexOf "." control) control else control in
  if contains "(" index then
    let tmpIndex := indexOfFrom " " (tmpIndex + 1) index in
    let tmpInt := indexOf "(" index in
    if (tmpIndex <=? 0) || (tmpInt <? tmpIndex) then
      control ++ midRef tmpInt (indexOf ")" index - tmpInt + 1) index
    else control
  else control.

(** The same derivation in the first revision of the worker, which appends
    every parenthesised part. *)
Definition controlOfIndex_initial (index : QString) : QString :=
  let control := index in
  let control := if contains " " control then left (indexOf " " control) control else control in
  let control := if contains "." control then left (indexOf "." control) control else control in
  if contains "(" index then
    let tmpInt := indexOf "(" index in
    control ++ midRef tmpInt (indexOf ")" index - tmpInt + 1) index
  else control.

(** Family, number and enhancement a reference index is resolved to:
    [db.GetControl(control)] run on the derived control name. *)
Definition parseIndex (index : QString) : QString * Z * Z :=
  parseControl (controlOfIndex index).

(** The index of a reference to the control [number] of [family], as the
    DISA list writes it: "AC-2", or "AC-2 (1)" for its enhancement 1. *)
Definition referenceIndex (family : QString) (number_ : Z) (enhancement : option Z) : QString :=
  family ++ "-"%char :: number number_ ++
  match enhancement with
  | Some e => " "%char :: "("%char :: number e ++ [")"%char]
  | None => []
  end.

(** The variables of the parsing loop: the id of the [cci_item] read last,
    the definition read last and the rows gathered so far. *)
Record ParseState := mkParseState {
  ps_cci : QString;
  ps_definition : QString;
  ps_toAdd : list CCI }.

(** The Rev 4 guard on a reference: both attributes present, an id seen,
    both values non-empty and the version equal to "4". *)
Definition acceptsReference (cci : QString) (attrs : Attributes) : bool :=
  hasAttribute (Q"version") attrs && hasAttribute (Q"index") attrs && negb (isEmpty cci)
  && (let version := attributeValue (Q"version") [] attrs in
      let index := attributeValue (Q"index") [] attrs in
      negb (isEmpty version) && negb (isEmpty index) && bool_decide (version = Q"4")).

(** The row built for an accepted reference. *)
Definition referenceRow (d : Db) (cci definition : QString) (attrs : Attributes) : CCI :=
  let index := attributeValue (Q"index") [] attrs in
  let cciInt := toInt (right 6 cci) in
  let control := controlOfIndex index in
  mkCCI (CCI_id CCI_default) (Control_id (GetControl_name control d)) cciInt definition
        (CCI_isImport CCI_default) (CCI_importCompliance CCI_default)
        (CCI_importDateTested CCI_default) (CCI_importTestedBy CCI_default)
        (CCI_importTestResults CCI_default).

(** [cci_item]: the id attribute, when present, becomes the current id. *)
Definition cciItem (attrs : Attributes) (st : ParseState) : ParseState :=
  if hasAttribute (Q"id") attrs
  then mkParseState (attributeValue (Q"id") (ps_cci st) attrs) (ps_definition st) (ps_toAdd st)
  else st.

(** [reference]: an accepted reference appends its row to [toAdd]. *)
Definition reference (d : Db) (attrs : Attributes) (st : ParseState) : ParseState :=
  if acceptsReference (ps_cci st) attrs
  then mkParseState (ps_cci st) (ps_definition st)
                    (ps_toAdd st ++ [referenceRow d (ps_cci st) (ps_definition st) attrs])
  else st.

(** [while (!xml->atEnd() && !xml->hasError())] over one document.  Each
    round reads at least one token, so [length toks] rounds are enough. *)
Fixpoint parseTokens (fuel : nat) (d : Db) (toks : list Token) (st : ParseState) : ParseState :=
  match fuel with
  | O => st
  | S fuel =>
      match toks with
      | [] => st
      | Invalid :: _ => st
      | StartElement name attrs :: rest =>
          if bool_decide (name = Q"cci_item") then
            parseTokens fuel d rest (cciItem attrs st)
          else if bool_decide (name = Q"definition") then
            let '(text, rest', ok) := readElementText [] rest in
            let st' := mkParseState (ps_cci st) text (ps_toAdd st) in
            if ok then parseTokens fuel d rest' st' else st'
          else if bool_decide (name = Q"reference") then
            parseTokens fuel d rest (reference d attrs st)
          else parseTokens fuel d rest st
      | _ :: rest => parseTokens fuel d rest st
      end
  end.

(** A [cci_item] start tag that carries an id. *)
Definition isItemWithId (t : Token) : bool :=
  match t with
  | StartElement name attrs => bool_decide (name = Q"cci_item") && hasAttribute (Q"id") attrs
  | _ => false
  end.

(** The row [c] was built for the reference with attributes [rattrs], and
    the [cci_item] with attributes [iattrs] is the last one before it that
    carries an id (in a well-formed list: the item enclosing the
    reference). *)
Definition stemsFrom (d : Db) (toks : list Token) (c : CCI) (iattrs rattrs : Attributes) : Prop :=
  exists pre mid post definition,
    toks = pre ++ StartElement (Q"cci_item") iattrs :: mid
               ++ StartElement (Q"reference") rattrs :: post
    /\ hasAttribute (Q"id") iattrs = true
    /\ Forall (fun t => isItemWithId t = false) mid
    /\ acceptsReference (attributeValue (Q"id") [] iattrs) rattrs = true
    /\ c = referenceRow d (attributeValue (Q"id") [] iattrs) definition rattrs.

(** The [reference] elements of a document, each with the attributes of
    the [cci_item] element that encloses it ([None] outside every
    [cci_item]) and with its own. *)
Fixpoint referencesOf (item : option Attributes) (toks : list Token)
    : list (option Attributes * Attributes) :=
  match toks with
  | [] => []
  | StartElement name attrs :: rest =>
      if bool_decide (name = Q"cci_item") then referencesOf (Some attrs) rest
      else if bool_decide (name = Q"reference") then (item, attrs) :: referencesOf item rest
      else referencesOf item rest
  | EndElement name :: rest =>
      if bool_decide (name = Q"cci_item") then referencesOf None rest
      else referencesOf item rest
  | _ :: rest => referencesOf item rest
  end.

(** [cur] is what the loop holds in [cci] once it has read [seen]: nothing,
    or the id of the last [cci_item] that carries one. *)
Definition currentId (seen : list Token) (cur : QString) : Prop :=
  cur = [] \/
  exists pre iattrs mid,
    seen = pre ++ StartElement (Q"cci_item") iattrs :: mid
    /\ hasAttribute (Q"id") iattrs = true
    /\ Forall (fun t => isItemWithId t = false) mid
    /\ cur = attributeValue (Q"id") [] iattrs.

(** Every row of [rows] was there before ([init]) or stems from a reference
    of [toks]. *)
Definition rowsFrom (d : Db) (init : list CCI) (toks : list Token) (rows : list CCI) : Prop :=
  forall c, c ∈ rows -> c ∈ init \/ exists iattrs rattrs, stemsFrom d toks c iattrs rattrs.

(** One [xmlFile]: [cci] and [definition] start empty, [toAdd] is shared. *)
Definition parseFile (d : Db) (toAdd : list CCI) (xmlFile : list Token) : list CCI :=
  ps_toAdd (parseTokens (length xmlFile) d xmlFile (mkParseState [] [] toAdd)).

(** Step 6: [Q_FOREACH (xmlFile, xmlFiles)]. *)
Definition parseFiles (d : Db) (xmlFiles : list (list Token)) : list CCI :=
  fold_left (parseFile d) xmlFiles [].

(** Step 7: every gathered row is handed to [AddCCI]. *)
Definition addCCIs (toAdd : list CCI) : M unit :=
  DelayCommit true ;;
  fold_left (fun (acc : M unit) c => acc ;; AddCCI c ;; ret tt) toAdd (ret tt) ;;
  DelayCommit false.

(** Steps 6 and 7 of [process()]. *)
Definition importCCIs (xmlFiles : list (list Token)) : M unit :=
  DelayCommit true ;;
  let* toAdd := query (fun d => parseFiles d xmlFiles) in
  addCCIs toAdd.

End WorkerCCIAdd.

Export WorkerCCIAdd.

(** ** The eMASS Test Result Import report *)

Module WorkerEMASSReport.

(** A data row of the worksheet (rows 6 and below).  [Row_cci] is the CCI
    the row is printed for; the other fields are the cells written, named by
    their column.  Columns 2, 5 and 6 are always empty. *)
Record Row := mkRow {
  Row_cci : CCI;
  col0_control : QString;
  col1_controlInformation : QString;
  col3_cci : QString;
  col4_definition : QString;
  col7_complianceStatus : QString;
  col8_dateTested : QString;
  col9_testedBy : QString;
  col10_testResults : QString;
  col11_latestComplianceStatus : QString;
  col12_latestDateTested : QString;
  col13_latestTestedBy : QString;
  col14_latestTestResults : QString }.

(** [QMap<CCI, QList<CKLCheck>>]: a finite map over the key the CCIs are
    ordered by; the entry keeps the CCI it was inserted with. *)
Abbreviation CCIMap := (gmap Z (CCI * list CKLCheck)).

Definition newline : QString := [ascii_of_nat 10].

(** [while (cci.length() < 6) cci = "0" + cci]. *)
Definition zeroPad (s : QString) : QString :=
  replicate (6 - length s)%nat "0"%char ++ s.

Section Report.

(** Helpers of the report that live in other translation units. *)
Variable cciOf : CKLCheck -> CCI.             (* cc.GetSTIGCheck().GetCCI() *)
Variable cciKey : CCI -> Z.                   (* the key operator< compares CCIs by *)
Variable controlOf : CCI -> Control.          (* c.GetControl() *)
Variable PrintControl : Control -> QString.
Variable Excelify : QString -> QString.
Variable sortChecks : list CKLCheck -> list CKLCheck.   (* std::sort *)
Variable printOpenCheck : CKLCheck -> QString.
    (* PrintAsset(cc.GetAsset()) + ": " + PrintCKLCheck(cc) + " - " + GetSeverity(cc.GetSeverity()) *)
Variable printPassedCheck : CKLCheck -> QString.
    (* PrintAsset(cc.GetAsset()) + ": " + PrintCKLCheck(cc) *)
Variable curDate : QString.
Variable username : QString.

(** [m[c].append(cc)] when [m.contains(c)], [m.insert(c, {cc})] otherwise. *)
Definition appendCheck (c : CCI) (cc : CKLCheck) (m : CCIMap) : CCIMap :=
  match m !! cciKey c with
  | Some (c0, l) => <[cciKey c := (c0, l ++ [cc])]> m
  | None => <[cciKey c := (c, [cc])]> m
  end.

Definition containsCCI (c : CCI) (m : CCIMap) : bool :=
  bool_decide (is_Some (m !! cciKey c)).

(** One round of the loop that builds the lists of failed and passed
    controls. *)
Definition classify (maps : CCIMap * CCIMap) (cc : CKLCheck) : CCIMap * CCIMap :=
  let '(failedCCIs, passedCCIs) := maps in
  let c := cciOf cc in
  let s := CKLCheck_status cc in
  if bool_decide (s = Open) then
    let passedCCIs :=
      if containsCCI c passedCCIs then delete (cciKey c) passedCCIs else passedCCIs in
    (appendCheck c cc failedCCIs, passedCCIs)
  else if bool_decide (s = NotAFinding) && negb (containsCCI c failedCCIs) then
    (failedCCIs, appendCheck c cc passedCCIs)
  else (failedCCIs, passedCCIs).

Definition classifyAll (checks : list CKLCheck) : CCIMap * CCIMap :=
  fold_left classify checks (∅, ∅).

(** The entries of a [QMap] from [constBegin()] to [constEnd()]: by
    ascending key. *)
Definition entries (m : CCIMap) : list (Z * (CCI * list CKLCheck)) :=
  orderBy (fun a b => a.1 <=? b.1) (map_to_list m).

Definition latest (c : CCI) (text : QString) : QString :=
  if CCI_isImport c then text else [].

Definition failedResults (checks : list CKLCheck) : QString :=
  fold_left (fun testResult cc =>
      let testResult := testResult ++ newline ++ printOpenCheck cc in
      if negb (isEmpty (CKLCheck_findingDetails cc))
      then testResult ++ Q" - " ++ CKLCheck_findingDetails cc
      else testResult)
    checks (Q"The following checks are open:").

Definition passedResults (checks : list CKLCheck) : QString :=
  fold_left (fun testResult cc => testResult ++ newline ++ printPassedCheck cc)
    checks (Q"The following checks were compliant:").

(** The cells shared by the three kinds of row. *)
Definition rowFor (c : CCI) (status date tester results : QString) : Row :=
  mkRow c
    (PrintControl (controlOf c))
    (Excelify (Control_description (controlOf c)))
    (zeroPad (number (CCI_cci c)))
    (Excelify (CCI_definition c))
    status date tester results
    (latest c (CCI_importCompliance c))
    (latest c (CCI_importDateTested c))
    (latest c (CCI_importTestedBy c))
    (latest c (CCI_importTestResults c)).

Definition failedRow (e : Z * (CCI * list CKLCheck)) : Row :=
  let '(_, (c, checks)) := e in
  rowFor c (Q"Non-Compliant") curDate username (Excelify (failedResults (sortChecks checks))).

Definition passedRow (e : Z * (CCI * list CKLCheck)) : Row :=
  let '(_, (c, checks)) := e in
  rowFor c (Q"Compliant") curDate username (Excelify (passedResults (sortChecks checks))).

Definition oldRow (c : CCI) : Row := rowFor c [] [] [] [].

(** The CCIs of [db.GetCCIs()] that get a row of old test results. *)
Definition isOldResult (failedCCIs passedCCIs : CCIMap) (c : CCI) : bool :=
  negb (negb (CCI_isImport c) || containsCCI c failedCCIs || containsCCI c passedCCIs).

Record Report := mkReport { dataRows : list Row; unimportedCCI : bool }.

(** [process()], from the rows of [db.GetCKLChecks()] and [db.GetCCIs()] to
    the data rows of the worksheet, top to bottom. *)
Definition process (checks : list CKLCheck) (ccis : list CCI) : Report :=
  let '(failedCCIs, passedCCIs) := classifyAll checks in
  let failed := entries failedCCIs in
  let passed := entries passedCCIs in
  mkReport
    (map failedRow failed ++ map passedRow passed
     ++ map oldRow (List.filter (isOldResult failedCCIs passedCCIs) ccis))
    (existsb (fun e => negb (CCI_isImport e.2.1)) (failed ++ passed)).

End Report.

(** The text of the CCI column for the CCI number [n]. *)
Definition cciCell (n : Z) : QString := zeroPad (number n).

(** The report prints the CCI number [n] with the text [status] in the
    compliance-status column: some data row shows [n] in its CCI column and
    [status] in its status column. *)
Definition emittedWith (status : QString) (r : Report) (n : Z) : Prop :=
  exists row, row ∈ dataRows r /\ col3_cci row = cciCell n
              /\ col7_complianceStatus row = status.

(** The number of data rows that show the CCI number [n] in their CCI
    column. *)
Definition rowCount (r : Report) (n : Z) : nat :=
  length (List.filter (fun row => bool_decide (col3_cci row = cciCell n)) (dataRows r)).

(** A check the report looks at: its status is [Open] or [NotAFinding]. *)
Definition reviewed (cc : CKLCheck) : bool :=
  bool_decide (CKLCheck_status cc = Open) || bool_decide (CKLCheck_status cc = NotAFinding).

End WorkerEMASSReport.

Export WorkerEMASSReport.

(** ** The main window and the test run *)

Module STIGQter.

(** [STIGQter::DeleteSTIGs()]: every selected STIG is handed to
    [DeleteSTIG]; the results are not looked at. *)
Definition DeleteSTIGs (selected : list STIG) : M unit :=
  fold_left (fun (acc : M unit) s => acc ;; DeleteSTIG s ;; ret tt) selected (ret tt).

(** The body of the test "Delete an Asset" of [main] for one [asset]: every
    STIG is removed from the asset, then the asset is deleted. *)
Definition deleteAsset (asset : Asset) : M unit :=
  let* stigs := Asset_STIGs asset in
  fold_left (fun (acc : M unit) stig => acc ;; DeleteSTIGFromAsset stig asset ;; ret tt)
            stigs (ret tt) ;;
  DeleteAsset asset ;;
  ret tt.

(** The test "Delete an Asset": [Q_FOREACH (auto asset, db.GetAssets())]. *)
Definition deleteAssets : M unit :=
  let* assets := query (GetAssets_where (fun _ => true)) in
  fold_left (fun (acc : M unit) asset => acc ;; deleteAsset asset) assets (ret tt).

End STIGQter.

Export STIGQter.

(** ** The STIG import *)

Module WorkerSTIGAdd.

(** The [STIGCheck] the parser fills in, as the worker's revision has it (it
    holds the CCI itself).  [chk_weight] keeps the text of the [weight]
    attribute, which the code turns into a [double]. *)
Record Check := mkCheck {
  chk_id : Z;
  chk_vulnNum : QString;
  chk_rule : QString;
  chk_severity : Severity;
  chk_weight : QString;
  chk_groupTitle : QString;
  chk_title : QString;
  chk_vulnDiscussion : QString;
  chk_falsePositives : QString;
  chk_falseNegatives : QString;
  chk_documentable : bool;
  chk_mitigations : QString;
  chk_severityOverrideGuidance : QString;
  chk_potentialImpact : QString;
  chk_thirdPartyTools : QString;
  chk_mitigationControl : QString;
  chk_responsibility : QString;
  chk_cci : CCI;
  chk_fix : QString;
  chk_checkContentRef : QString;
  chk_check : QString }.

Definition set_chk_id (v : Z) (c : Check) : Check :=
  mkCheck v (chk_vulnNum c) (chk_rule c) (chk_severity c) (chk_weight c)
          (chk_groupTitle c) (chk_title c) (chk_vulnDiscussion c) (chk_falsePositives c)
          (chk_falseNegatives c) (chk_documentable c) (chk_mitigations c)
          (chk_severityOverrideGuidance c) (chk_potentialImpact c)
          (chk_thirdPartyTools c) (chk_mitigationControl c) (chk_responsibility c)
          (chk_cci c) (chk_fix c) (chk_checkContentRef c) (chk_check c).
Definition set_chk_vulnNum (v : QString) (c : Check) : Check :=
  mkCheck (chk_id c) v (chk_rule c) (chk_severity c) (chk_weight c) (chk_groupTitle c)
          (chk_title c) (chk_vulnDiscussion c) (chk_falsePositives c)
          (chk_falseNegatives c) (chk_documentable c) (chk_mitigations c)
          (chk_severityOverrideGuidance c) (chk_potentialImpact c)
          (chk_thirdPartyTools c) (chk_mitigationControl c) (chk_responsibility c)
          (chk_cci c) (chk_fix c) (chk_checkContentRef c) (chk_check c).
Definition set_chk_rule (v : QString) (c : Check) : Check :=
  mkCheck (chk_id c) (chk_vulnNum c) v (chk_severity c) (chk_weight c)
          (chk_groupTitle c) (chk_title c) (chk_vulnDiscussion c) (chk_falsePositives c)
          (chk_falseNegatives c) (chk_documentable c) (chk_mitigations c)
          (chk_severityOverrideGuidance c) (chk_potentialImpact c)
          (chk_thirdPartyTools c) (chk_mitigationControl c) (chk_responsibility c)
          (chk_cci c) (chk_fix c) (chk_checkContentRef c) (chk_check c).
Definition set_chk_severity (v : Severity) (c : Check) : Check :=
  mkCheck (chk_id c) (chk_vulnNum c) (chk_rule c) v (chk_weight c) (chk_groupTitle c)
          (chk_title c) (chk_vulnDiscussion c) (chk_falsePositives c)
          (chk_falseNegatives c) (chk_documentable c) (chk_mitigations c)
          (chk_severityOverrideGuidance c) (chk_potentialImpact c)
          (chk_thirdPartyTools c) (chk_mitigationControl c) (chk_responsibility c)
          (chk_cci c) (chk_fix c) (chk_checkContentRef c) (chk_check c).
Definition set_chk_weight (v : QString) (c : Check) : Check :=
  mkCheck (chk_id c) (chk_vulnNum c) (chk_rule c) (chk_severity c) v (chk_groupTitle c)
          (chk_title c) (chk_vulnDiscussion c) (chk_falsePositives c)
          (chk_falseNegatives c) (chk_documentable c) (chk_mitigations c)
          (chk_severityOverrideGuidance c) (chk_potentialImpact c)
          (chk_thirdPartyTools c) (chk_mitigationControl c) (chk_responsibility c)
          (chk_cci c) (chk_fix c) (chk_checkContentRef c) (chk_check c).
Definition set_chk_groupTitle (v : QString) (c : Check) : Check :=
  mkCheck (chk_id c) (chk_vulnNum c) (chk_rule c) (chk_severity c) (chk_weight c) v
          (chk_title c) (chk_vulnDiscussion c) (chk_falsePositives c)
          (chk_falseNegatives c) (chk_documentable c) (chk_mitigations c)
          (chk_severityOverrideGuidance c) (chk_potentialImpact c)
          (chk_thirdPartyTools c) (chk_mitigationControl c) (chk_responsibility c)
          (chk_cci c) (chk_fix c) (chk_checkContentRef c) (chk_check c).
Definition set_chk_title (v : QString) (c : Check) : Check :=
  mkCheck (chk_id c) (chk_vulnNum c) (chk_rule c) (chk_severity c) (chk_weight c)
          (chk_groupTitle c) v (chk_vulnDiscussion c) (chk_falsePositives c)
          (chk_falseNegatives c) (chk_documentable c) (chk_mitigations c)
          (chk_severityOverrideGuidance c) (chk_potentialImpact c)
          (chk_thirdPartyTools c) (chk_mitigationControl c) (chk_responsibility c)
          (chk_cci c) (chk_fix c) (chk_checkContentRef c) (chk_check c).
Definition set_chk_vulnDiscussion (v : QString) (c : Check) : Check :=
  mkCheck (chk_id c) (chk_vulnNum c) (chk_rule c) (chk_severity c) (chk_weight c)
          (chk_groupTitle c) (chk_title c) v (chk_falsePositives c)
          (chk_falseNegatives c) (chk_documentable c) (chk_mitigations c)
          (chk_severityOverrideGuidance c) (chk_potentialImpact c)
          (chk_thirdPartyTools c) (chk_mitigationControl c) (chk_responsibility c)
          (chk_cci c) (chk_fix c) (chk_checkContentRef c) (chk_check c).
Definition set_chk_falsePositives (v : QString) (c : Check) : Check :=
  mkCheck (chk_id c) (chk_vulnNum c) (chk_rule c) (chk_severity c) (chk_weight c)
          (chk_groupTitle c) (chk_title c) (chk_vulnDiscussion c) v
          (chk_falseNegatives c) (chk_documentable c) (chk_mitigations c)
          (chk_severityOverrideGuidance c) (chk_potentialImpact c)
          (chk_thirdPartyTools c) (chk_mitigationControl c) (chk_responsibility c)
          (chk_cci c) (chk_fix c) (chk_checkContentRef c) (chk_check c).
Definition set_chk_falseNegatives (v : QString) (c : Check) : Check :=
  mkCheck (chk_id c) (chk_vulnNum c) (chk_rule c) (chk_severity c) (chk_weight c)
          (chk_groupTitle c) (chk_title c) (chk_vulnDiscussion c) (chk_falsePositives c)
          v (chk_documentable c) (chk_mitigations c) (chk_severityOverrideGuidance c)
          (chk_potentialImpact c) (chk_thirdPartyTools c) (chk_mitigationControl c)
          (chk_responsibility c) (chk_cci c) (chk_fix c) (chk_checkContentRef c)
          (chk_check c).
Definition set_chk_documentable (v : bool) (c : Check) : Check :=
  mkCheck (chk_id c) (chk_vulnNum c) (chk_rule c) (chk_severity c) (chk_weight c)
          (chk_groupTitle c) (chk_title c) (chk_vulnDiscussion c) (chk_falsePositives c)
          (chk_falseNegatives c) v (chk_mitigations c) (chk_severityOverrideGuidance c)
          (chk_potentialImpact c) (chk_thirdPartyTools c) (chk_mitigationControl c)
          (chk_responsibility c) (chk_cci c) (chk_fix c) (chk_checkContentRef c)
          (chk_check c).
Definition set_chk_mitigations (v : QString) (c : Check) : Check :=
  mkCheck (chk_id c) (chk_vulnNum c) (chk_rule c) (chk_severity c) (chk_weight c)
          (chk_groupTitle c) (chk_title c) (chk_vulnDiscussion c) (chk_falsePositives c)
          (chk_falseNegatives c) (chk_documentable c) v (chk_severityOverrideGuidance c)
          (chk_potentialImpact c) (chk_thirdPartyTools c) (chk_mitigationControl c)
          (chk_responsibility c) (chk_cci c) (chk_fix c) (chk_checkContentRef c)
          (chk_check c).
Definition set_chk_severityOverrideGuidance (v : QString) (c : Check) : Check :=
  mkCheck (chk_id c) (chk_vulnNum c) (chk_rule c) (chk_severity c) (chk_weight c)
          (chk_groupTitle c) (chk_title c) (chk_vulnDiscussion c) (chk_falsePositives c)
          (chk_falseNegatives c) (chk_documentable c) (chk_mitigations c) v
          (chk_potentialImpact c) (chk_thirdPartyTools c) (chk_mitigationControl c)
          (chk_responsibility c) (chk_cci c) (chk_fix c) (chk_checkContentRef c)
          (chk_check c).
Definition set_chk_potentialImpact (v : QString) (c : Check) : Check :=
  mkCheck (chk_id c) (chk_vulnNum c) (chk_rule c) (chk_severity c) (chk_weight c)
          (chk_groupTitle c) (chk_title c) (chk_vulnDiscussion c) (chk_falsePositives c)
          (chk_falseNegatives c) (chk_documentable c) (chk_mitigations c)
          (chk_severityOverrideGuidance c) v (chk_thirdPartyTools c)
          (chk_mitigationControl c) (chk_responsibility c) (chk_cci c) (chk_fix c)
          (chk_checkContentRef c) (chk_check c).
Definition set_chk_thirdPartyTools (v : QString) (c : Check) : Check :=
  mkCheck (chk_id c) (chk_vulnNum c) (chk_rule c) (chk_severity c) (chk_weight c)
          (chk_groupTitle c) (chk_title c) (chk_vulnDiscussion c) (chk_falsePositives c)
          (chk_falseNegatives c) (chk_documentable c) (chk_mitigations c)
          (chk_severityOverrideGuidance c) (chk_potentialImpact c) v
          (chk_mitigationControl c) (chk_responsibility c) (chk_cci c) (chk_fix c)
          (chk_checkContentRef c) (chk_check c).
Definition set_chk_mitigationControl (v : QString) (c : Check) : Check :=
  mkCheck (chk_id c) (chk_vulnNum c) (chk_rule c) (chk_severity c) (chk_weight c)
          (chk_groupTitle c) (chk_title c) (chk_vulnDiscussion c) (chk_falsePositives c)
          (chk_falseNegatives c) (chk_documentable c) (chk_mitigations c)
          (chk_severityOverrideGuidance c) (chk_potentialImpact c)
          (chk_thirdPartyTools c) v (chk_responsibility c) (chk_cci c) (chk_fix c)
          (chk_checkContentRef c) (chk_check c).
Definition set_chk_responsibility (v : QString) (c : Check) : Check :=
  mkCheck (chk_id c) (chk_vulnNum c) (chk_rule c) (chk_severity c) (chk_weight c)
          (chk_groupTitle c) (chk_title c) (chk_vulnDiscussion c) (chk_falsePositives c)
          (chk_falseNegatives c) (chk_documentable c) (chk_mitigations c)
          (chk_severityOverrideGuidance c) (chk_potentialImpact c)
          (chk_thirdPartyTools c) (chk_mitigationControl c) v (chk_cci c) (chk_fix c)
          (chk_checkContentRef c) (chk_check c).
Definition set_chk_cci (v : CCI) (c : Check) : Check :=
  mkCheck (chk_id c) (chk_vulnNum c) (chk_rule c) (chk_severity c) (chk_weight c)
          (chk_groupTitle c) (chk_title c) (chk_vulnDiscussion c) (chk_falsePositives c)
          (chk_falseNegatives c) (chk_documentable c) (chk_mitigations c)
          (chk_severityOverrideGuidance c) (chk_potentialImpact c)
          (chk_thirdPartyTools c) (chk_mitigationControl c) (chk_responsibility c) v
          (chk_fix c) (chk_checkContentRef c) (chk_check c).
Definition set_chk_fix (v : QString) (c : Check) : Check :=
  mkCheck (chk_id c) (chk_vulnNum c) (chk_rule c) (chk_severity c) (chk_weight c)
          (chk_groupTitle c) (chk_title c) (chk_vulnDiscussion c) (chk_falsePositives c)
          (chk_falseNegatives c) (chk_documentable c) (chk_mitigations c)
          (chk_severityOverrideGuidance c) (chk_potentialImpact c)
          (chk_thirdPartyTools c) (chk_mitigationControl c) (chk_responsibility c)
          (chk_cci c) v (chk_checkContentRef c) (chk_check c).
Definition set_chk_checkContentRef (v : QString) (c : Check) : Check :=
  mkCheck (chk_id c) (chk_vulnNum c) (chk_rule c) (chk_severity c) (chk_weight c)
          (chk_groupTitle c) (chk_title c) (chk_vulnDiscussion c) (chk_falsePositives c)
          (chk_falseNegatives c) (chk_documentable c) (chk_mitigations c)
          (chk_severityOverrideGuidance c) (chk_potentialImpact c)
          (chk_thirdPartyTools c) (chk_mitigationControl c) (chk_responsibility c)
          (chk_cci c) (chk_fix c) v (chk_check c).
Definition set_chk_check (v : QString) (c : Check) : Check :=
  mkCheck (chk_id c) (chk_vulnNum c) (chk_rule c) (chk_severity c) (chk_weight c)
          (chk_groupTitle c) (chk_title c) (chk_vulnDiscussion c) (chk_falsePositives c)
          (chk_falseNegatives c) (chk_documentable c) (chk_mitigations c)
          (chk_severityOverrideGuidance c) (chk_potentialImpact c)
          (chk_thirdPartyTools c) (chk_mitigationControl c) (chk_responsibility c)
          (chk_cci c) (chk_fix c) (chk_checkContentRef c) v.

(** The variables of [ParseSTIG]: the STIG [s], the check [c] being filled
    in, the checks gathered so far and the three flags. *)
Record Parser := mkParser {
  p_s : STIG;
  p_c : Check;
  p_checks : list Check;
  p_inStigRules : bool;
  p_inProfile : bool;
  p_inGroup : bool }.

Definition set_s (f : STIG -> STIG) (p : Parser) : Parser :=
  mkParser (f (p_s p)) (p_c p) (p_checks p) (p_inStigRules p) (p_inProfile p) (p_inGroup p).
Definition set_c (f : Check -> Check) (p : Parser) : Parser :=
  mkParser (p_s p) (f (p_c p)) (p_checks p) (p_inStigRules p) (p_inProfile p) (p_inGroup p).
Definition set_inStigRules (v : bool) (p : Parser) : Parser :=
  mkParser (p_s p) (p_c p) (p_checks p) v (p_inProfile p) (p_inGroup p).
Definition set_inProfile (v : bool) (p : Parser) : Parser :=
  mkParser (p_s p) (p_c p) (p_checks p) (p_inStigRules p) v (p_inGroup p).
Definition set_inGroup (v : bool) (p : Parser) : Parser :=
  mkParser (p_s p) (p_c p) (p_checks p) (p_inStigRules p) (p_inProfile p) v.

Definition set_STIG_title (v : QString) (s : STIG) : STIG :=
  mkSTIG (STIG_id s) v (STIG_description s) (STIG_release s) (STIG_version s)
         (STIG_benchmarkId s) (STIG_fileName s).
Definition set_STIG_description (v : QString) (s : STIG) : STIG :=
  mkSTIG (STIG_id s) (STIG_title s) v (STIG_release s) (STIG_version s)
         (STIG_benchmarkId s) (STIG_fileName s).
Definition set_STIG_release (v : QString) (s : STIG) : STIG :=
  mkSTIG (STIG_id s) (STIG_title s) (STIG_description s) v (STIG_version s)
         (STIG_benchmarkId s) (STIG_fileName s).
Definition set_STIG_version (v : Z) (s : STIG) : STIG :=
  mkSTIG (STIG_id s) (STIG_title s) (STIG_description s) (STIG_release s) v
         (STIG_benchmarkId s) (STIG_fileName s).

(** [s.startsWith(prefix, Qt::CaseInsensitive)] for a prefix of ASCII
    letters. *)
Definition startsWith_ci (prefix s : QString) : bool :=
  bool_decide (LOWER (take (length prefix) s) = LOWER prefix).

(** [xml->name()] once [readElementText()] has been run on the tokens
    [toks]: the name of the end tag it stops at, or of the child element it
    fails on.  Where the reader stops at malformed markup or at the end of
    the input the name is taken to be empty. *)
Fixpoint nameAfterText (toks : list Token) : QString :=
  match toks with
  | Characters _ :: rest => nameAfterText rest
  | Comment :: rest => nameAfterText rest
  | EndElement name :: _ => name
  | StartElement name _ :: _ => name
  | _ => []
  end.

Definition dquote : QString := [ascii_of_nat 34].

(** The document handed to the second reader: the description wrapped in a
    [VulnDescription] element. *)
Definition vulnDescriptionXml (description : QString) : QString :=
  Q"<?xml version=" ++ dquote ++ Q"1.0" ++ dquote ++ Q" encoding=" ++ dquote ++ Q"UTF-8"
    ++ dquote ++ Q"?><VulnDescription>" ++ description ++ Q"</VulnDescription>".

(** The name of a start or end tag; empty for the other tokens. *)
Definition tagName (t : Token) : QString :=
  match t with
  | StartElement name _ => name
  | EndElement name => name
  | _ => []
  end.

(** [t] is the start tag of an element called [name]. *)
Definition isStartOf (name : QString) (t : Token) : bool :=
  match t with
  | StartElement n _ => bool_decide (n = name)
  | _ => false
  end.

Section Parser.

(** Helpers that live in other translation units. *)
Variable STIGCheck_new : Check.                 (* a default-constructed STIGCheck *)
Variable GetSeverity : QString -> Severity.
Variable GetCCINumber : QString -> Z.
Variable GetCCI : Z -> CCI.                     (* db.GetCCI(int) of the worker's revision *)
Variable CleanXML : QString -> bool -> QString.
Variable xmlTokens : QString -> list Token.     (* the tokens of QXmlStreamReader(text) *)

(** The element of a vulnerability description that fills a field of the
    check. *)
Definition vulnField (name : QString) : option (QString -> Check -> Check) :=
  if bool_decide (name = Q"VulnDiscussion") then Some set_chk_vulnDiscussion
  else if bool_decide (name = Q"FalsePositives") then Some set_chk_falsePositives
  else if bool_decide (name = Q"FalseNegatives") then Some set_chk_falseNegatives
  else if bool_decide (name = Q"Documentable")
       then Some (fun text => set_chk_documentable (startsWith_ci (Q"t") text))
  else if bool_decide (name = Q"Mitigations") then Some set_chk_mitigations
  else if bool_decide (name = Q"SeverityOverrideGuidance")
       then Some set_chk_severityOverrideGuidance
  else if bool_decide (name = Q"PotentialImpacts") then Some set_chk_potentialImpact
  else if bool_decide (name = Q"ThirdPartyTools") then Some set_chk_thirdPartyTools
  else if bool_decide (name = Q"MitigationControl") then Some set_chk_mitigationControl
  else if bool_decide (name = Q"Responsibility") then Some set_chk_responsibility
  else None.

(** [while (!xml2.atEnd() && !xml2.hasError())] over the description. *)
Fixpoint parseVulnDescription (fuel : nat) (toks : list Token) (c : Check) : Check :=
  match fuel with
  | O => c
  | S fuel =>
      match toks with
      | [] => c
      | Invalid :: _ => c
      | StartElement name _ :: rest =>
          match vulnField name with
          | Some set =>
              let '(text, rest', ok) := readElementText [] rest in
              let c := set (trimmed text) c in
              if ok then parseVulnDescription fuel rest' c else c
          | None => parseVulnDescription fuel rest c
          end
      | _ :: rest => parseVulnDescription fuel rest c
      end
  end.

(** A text element of the header or of a rule: the field is set from
    [readElementText()], whether or not the read succeeds. *)
Definition readInto (set : QString -> Parser -> Parser) (rest : list Token) (p : Parser)
    : Parser * list Token * bool :=
  let '(text, rest', ok) := readElementText [] rest in
  (set text p, rest', ok).

(** [plain-text] with an [id]: every [id] attribute whose value is
    "release-info" reads the release.  Only the first read finds the reader
    at a start tag; a later one returns the empty text at once. *)
Definition releaseInfo (attrs : Attributes) (rest : list Token) (p : Parser)
    : Parser * list Token * bool * bool :=
  match List.filter (fun attr => bool_decide (fst attr = Q"id")
                                 && bool_decide (trimmed (snd attr) = Q"release-info")) attrs with
  | [] => (p, rest, true, false)
  | [_] =>
      let '(p, rest', ok) :=
        readInto (fun text => set_s (set_STIG_release (trimmed text))) rest p in
      (p, rest', ok, true)
  | _ :: _ :: _ =>
      let '(p, rest', ok) :=
        readInto (fun text => set_s (set_STIG_release [])) rest p in
      (p, rest', ok, true)
  end.

(** The part run on a start tag while [inStigRules] is not set.  Returns
    the variables, the tokens left, whether the reader is free of errors
    and whether it has moved on from the start tag. *)
Definition header (name : QString) (attrs : Attributes) (rest : list Token) (p : Parser)
    : Parser * list Token * bool * bool :=
  let '(p, rest', ok, moved) :=
    if negb (p_inProfile p) then
      if bool_decide (name = Q"title") then
        (readInto (fun text => set_s (set_STIG_title (trimmed text))) rest p, true)
      else if bool_decide (name = Q"description") then
        (readInto (fun text => set_s (set_STIG_description (trimmed text))) rest p, true)
      else if bool_decide (name = Q"plain-text") && hasAttribute (Q"id") attrs then
        releaseInfo attrs rest p
      else if bool_decide (name = Q"version") then
        (readInto (fun text => set_s (set_STIG_version (toInt text))) rest p, true)
      else (p, rest, true, false)
    else (p, rest, true, false) in
  let current := if moved then nameAfterText rest else name in
  let p :=
    if bool_decide (current = Q"Group") then set_inStigRules true p
    else if bool_decide (current = Q"Profile") then set_inProfile true p
    else p in
  (p, rest', ok, moved).

(** [Rule] with its three attributes: the check filled in so far is
    gathered when it belongs to a rule, and a new one is begun. *)
Definition beginRule (attrs : Attributes) (p : Parser) : Parser :=
  let p := set_inGroup false p in
  let p :=
    if chk_id (p_c p) =? 0
    then mkParser (p_s p) (p_c p) (p_checks p ++ [p_c p])
                  (p_inStigRules p) (p_inProfile p) (p_inGroup p)
    else p in
  set_c (fun c =>
      set_chk_weight (attributeValue (Q"weight") (chk_weight c) attrs)
        (set_chk_severity
           (GetSeverity (trimmed (attributeValue (Q"severity") [] attrs)))
           (set_chk_rule (trimmed (attributeValue (Q"id") (chk_rule c) attrs))
              (set_chk_id 0 c)))) p.

(** The part run on a start tag while [inStigRules] is set. *)
Definition rule (name : QString) (attrs : Attributes) (rest : list Token) (p : Parser)
    : Parser * list Token * bool :=
  let p :=
    if bool_decide (name = Q"Group") && hasAttribute (Q"id") attrs then
      set_c (set_chk_vulnNum (trimmed (attributeValue (Q"id") [] attrs))) (set_inGroup true p)
    else p in
  if bool_decide (name = Q"Rule") && hasAttribute (Q"id") attrs
     && hasAttribute (Q"severity") attrs && hasAttribute (Q"weight") attrs then
    (beginRule attrs p, rest, true)
  else if bool_decide (name = Q"title") then
    if p_inGroup p
    then readInto (fun text => set_c (set_chk_groupTitle (trimmed text))) rest p
    else readInto (fun text => set_c (set_chk_title (trimmed text))) rest p
  else if bool_decide (name = Q"description") then
    if negb (p_inGroup p) then
      readInto (fun text =>
          let toParse := xmlTokens (CleanXML (vulnDescriptionXml (trimmed text)) true) in
          set_c (parseVulnDescription (length toParse) toParse)) rest p
    else (p, rest, true)
  else if bool_decide (name = Q"ident") then
    readInto (fun text =>
        let cci := trimmed text in
        if startsWith_ci (Q"CCI") cci
        then set_c (set_chk_cci (GetCCI (GetCCINumber cci)))
        else fun p => p) rest p
  else if bool_decide (name = Q"fixtext") then
    readInto (fun text => set_c (set_chk_fix (trimmed text))) rest p
  else if bool_decide (name = Q"check-content-ref") && hasAttribute (Q"name") attrs then
    (set_c (set_chk_checkContentRef (trimmed (attributeValue (Q"name") [] attrs))) p,
     rest, true)
  else if bool_decide (name = Q"check-content") then
    readInto (fun text => set_c (set_chk_check (trimmed text))) rest p
  else (p, rest, true).

(** [while (!xml->atEnd() && !xml->hasError())] over the benchmark.  Each
    round reads at least one token, so [length toks] rounds are enough. *)
Fixpoint parseRounds (fuel : nat) (toks : list Token) (p : Parser) : Parser :=
  match fuel with
  | O => p
  | S fuel =>
      match toks with
      | [] => p
      | Invalid :: _ => p
      | StartElement name attrs :: rest =>
          let '(p, rest, ok, moved) :=
            if negb (p_inStigRules p) then header name attrs rest p
            else (p, rest, true, false) in
          let '(p, rest, ok) :=
            if p_inStigRules p && negb moved then rule name attrs rest p
            else (p, rest, ok) in
          if ok then parseRounds fuel rest p else p
      | _ :: rest => parseRounds fuel rest p
      end
  end.

(** The loop with the fuel that lets it read every token. *)
Definition parse (toks : list Token) (p : Parser) : Parser :=
  parseRounds (length toks) toks p.

(** [ParseSTIG(stig)], on the tokens of the benchmark: the STIG and the
    checks it hands to [db.AddSTIG]. *)
Definition ParseSTIG (stig : list Token) : STIG * list Check :=
  let p := parse stig
             (mkParser STIG_default (set_chk_id (-1) STIGCheck_new) [] false false false) in
  (p_s p, if p_inStigRules p then p_checks p ++ [p_c p] else p_checks p).

End Parser.

(** *** Vocabulary of the statements about the STIG import

    A benchmark of the shape the parser is written for: the header
    elements, the profiles, then one [Group] per rule. *)

Definition textElement (name : QString) (attrs : Attributes) (text : QString) : list Token :=
  [StartElement name attrs; Characters text; EndElement name].

Definition optionalElement {A} (f : A -> list Token) (o : option A) : list Token :=
  match o with Some a => f a | None => [] end.

Record RuleData := mkRuleData {
  r_vulnNum : QString;
  r_groupTitle : QString;
  r_groupDescription : QString;
  r_rule : QString;
  r_severity : QString;
  r_weight : QString;
  r_title : QString;
  r_description : option QString;
  r_ident : option QString;
  r_fixtext : option QString;
  r_checkContentRef : option QString;
  r_checkContent : option QString }.

Definition ruleTokens (r : RuleData) : list Token :=
  [StartElement (Q"Group") [(Q"id", r_vulnNum r)]]
  ++ textElement (Q"title") [] (r_groupTitle r)
  ++ textElement (Q"description") [] (r_groupDescription r)
  ++ [StartElement (Q"Rule")
        [(Q"id", r_rule r); (Q"severity", r_severity r); (Q"weight", r_weight r)]]
  ++ textElement (Q"title") [] (r_title r)
  ++ optionalElement (textElement (Q"description") []) (r_description r)
  ++ optionalElement (textElement (Q"ident") []) (r_ident r)
  ++ optionalElement (textElement (Q"fixtext") []) (r_fixtext r)
  ++ [StartElement (Q"check") []]
  ++ optionalElement (fun name => [StartElement (Q"check-content-ref") [(Q"name", name)];
                                   EndElement (Q"check-content-ref")]) (r_checkContentRef r)
  ++ optionalElement (textElement (Q"check-content") []) (r_checkContent r)
  ++ [EndElement (Q"check"); EndElement (Q"Rule"); EndElement (Q"Group")].

Record HeaderData := mkHeaderData {
  h_title : QString;
  h_description : QString;
  h_release : QString;
  h_version : QString;
  h_profiles : list QString }.

Definition profileTokens (title : QString) : list Token :=
  [StartElement (Q"Profile") []]
  ++ textElement (Q"title") [] title
  ++ [StartElement (Q"select") []; EndElement (Q"select"); EndElement (Q"Profile")].

Definition benchmark (h : HeaderData) (rules : list RuleData) : list Token :=
  [StartElement (Q"Benchmark") []]
  ++ textElement (Q"title") [] (h_title h)
  ++ textElement (Q"description") [] (h_description h)
  ++ textElement (Q"plain-text") [(Q"id", Q"release-info")] (h_release h)
  ++ textElement (Q"version") [] (h_version h)
  ++ flat_map profileTokens (h_profiles h)
  ++ flat_map ruleTokens rules
  ++ [EndElement (Q"Benchmark")].

(** The STIG the header elements describe. *)
Definition headerOf (h : HeaderData) : STIG :=
  set_STIG_version (toInt (h_version h))
    (set_STIG_release (trimmed (h_release h))
       (set_STIG_description (trimmed (h_description h))
          (set_STIG_title (trimmed (h_title h)) STIG_default))).

Section Benchmark.

Variable GetSeverity : QString -> Severity.
Variable GetCCINumber : QString -> Z.
Variable GetCCI : Z -> CCI.
Variable CleanXML : QString -> bool -> QString.
Variable xmlTokens : QString -> list Token.

(** What the [Group] element and its title make of the check in hand, and
    what the [Rule] element and its children make of it. *)
Definition groupPart (r : RuleData) (c : Check) : Check :=
  set_chk_groupTitle (trimmed (r_groupTitle r)) (set_chk_vulnNum (trimmed (r_vulnNum r)) c).

Definition rulePart (r : RuleData) (c : Check) : Check :=
  let c := set_chk_weight (r_weight r)
             (set_chk_severity (GetSeverity (trimmed (r_severity r)))
                (set_chk_rule (trimmed (r_rule r)) (set_chk_id 0 c))) in
  let c := set_chk_title (trimmed (r_title r)) c in
  let c := match r_description r with
           | Some d =>
               let toParse := xmlTokens (CleanXML (vulnDescriptionXml (trimmed d)) true) in
               parseVulnDescription (length toParse) toParse c
           | None => c
           end in
  let c := match r_ident r with
           | Some i =>
               if startsWith_ci (Q"CCI") (trimmed i)
               then set_chk_cci (GetCCI (GetCCINumber (trimmed i))) c
               else c
           | None => c
           end in
  let c := match r_fixtext r with Some t => set_chk_fix (trimmed t) c | None => c end in
  let c := match r_checkContentRef r with
           | Some n => set_chk_checkContentRef (trimmed n) c
           | None => c
           end in
  match r_checkContent r with Some t => set_chk_check (trimmed t) c | None => c end.

(** The checks in hand once a rule has been begun: [c] is the check being
    filled in, [rules] are the rules still to come. *)
Fixpoint checksFrom (c : Check) (rules : list RuleData) : list Check :=
  match rules with
  | [] => [c]
  | r :: rules => groupPart r c :: checksFrom (rulePart r (groupPart r c)) rules
  end.

End Benchmark.

End WorkerSTIGAdd.

(** ** Sample data *)

Module Samples.

Definition family_AC : Family := mkFamily 1 (Q"AC") (Q"Access Control").

Definition control_AC_2_1 : Control :=
  mkControl 1 1 2 1 (Q"ACCOUNT MANAGEMENT | AUTOMATED SYSTEM ACCOUNT MANAGEMENT") [].

Definition cci_15 : CCI :=
  mkCCI 1 1 15 (Q"The organization employs automated mechanisms.") true
        (Q"Compliant") (Q"01-Jan-2019") (Q"auditor") (Q"Passed last year.").

Definition cci_366 : CCI :=
  mkCCI 2 1 366 (Q"The organization implements the security configuration settings.")
        true (Q"Non-Compliant") (Q"01-Jan-2019") (Q"auditor") (Q"Open findings.").

Definition cci_1084 : CCI :=
  mkCCI 3 1 1084 (Q"The information system isolates security functions.") true
        (Q"Compliant") (Q"02-Jan-2019") (Q"auditor") (Q"Inherited.").

Definition stig_win10 : STIG :=
  mkSTIG 1 (Q"Windows 10") [] (Q"Release: 19") 1 (Q"Windows_10_STIG") (Q"U_Windows_10.zip").

Definition check_1 : STIGCheck :=
  mkSTIGCheck 1 1 1 (Q"SV-1r1_rule") (Q"V-1") [] [] medium (Q"Accounts are managed.")
              [] [] [].

Definition check_2 : STIGCheck :=
  mkSTIGCheck 2 1 2 (Q"SV-2r1_rule") (Q"V-2") [] [] high (Q"Settings are configured.")
              [] [] [].

Definition asset_TEST : Asset :=
  mkAsset 1 [] (Q"TEST") (Q"127.0.0.1") (Q"00:00:00:00:00") (Q"localhost") [] [] false [] [].

(** Reference data, one STIG with two checks and one asset, nothing mapped. *)
Definition sampleDb : Db :=
  mkDb (mkTable [family_AC] 1) (mkTable [control_AC_2_1] 1)
       (mkTable [cci_15; cci_366; cci_1084] 3)
       (mkTable [stig_win10] 1) (mkTable [check_1; check_2] 2)
       (mkTable [asset_TEST] 1) emptyTable emptyTable.

Definition sampleState : State := mkState sampleDb false [].

(** The same after [AddSTIGToAsset(stig_win10, asset_TEST)]. *)
Definition mappedState : State := (AddSTIGToAsset stig_win10 asset_TEST sampleState).2.

Definition link_1 : AssetSTIG := mkAssetSTIG 1 1 1.

(** The checklist once reviewed: the first check passes, the second fails. *)
Definition reviewed_1 : CKLCheck := mkCKLCheck 1 1 1 NotAFinding [] [] none [].
Definition reviewed_2 : CKLCheck :=
  mkCKLCheck 2 1 2 Open (Q"Setting is missing.") [] none [].

(** Forgetting every evaluation. *)
Definition resetEvaluation (c : CKLCheck) : CKLCheck :=
  mkCKLCheck (CKLCheck_id c) (CKLCheck_assetId c) (CKLCheck_stigCheckId c)
             NotReviewed [] [] none [].

(** One [cci_item] of the DISA list with a single reference. *)
Definition cciItemTokens (id version index : QString) : list Token :=
  [ StartElement (Q"cci_item") [(Q"id", id)];
    StartElement (Q"status") []; Characters (Q"draft"); EndElement (Q"status");
    StartElement (Q"definition") []; Characters (Q"A definition."); EndElement (Q"definition");
    StartElement (Q"references") [];
    StartElement (Q"reference")
      [(Q"creator", Q"NIST"); (Q"version", version); (Q"index", index)];
    EndElement (Q"reference");
    EndElement (Q"references");
    EndElement (Q"cci_item") ].

Definition item_15 : list Token := cciItemTokens (Q"CCI-000015") (Q"4") (Q"AC-2 (1)").
Definition item_366 : list Token := cciItemTokens (Q"CCI-000366") (Q"4") (Q"CM-6 b").

(** A [cci_item] without an id, with one Rev 4 reference. *)
Definition item_noid : list Token :=
  [ StartElement (Q"cci_item") [];
    StartElement (Q"definition") []; Characters (Q"Another definition.");
    EndElement (Q"definition");
    StartElement (Q"references") [];
    StartElement (Q"reference")
      [(Q"creator", Q"NIST"); (Q"version", Q"4"); (Q"index", Q"AC-2 (1)")];
    EndElement (Q"reference");
    EndElement (Q"references");
    EndElement (Q"cci_item") ].

(** A list whose markup is broken between its two items. *)
Definition brokenList : list Token := item_15 ++ Invalid :: item_366.

Definition row_15 : CCI := mkCCI (-1) 1 15 (Q"A definition.") false [] [] [] [].

(** [cc.GetSTIGCheck().GetCCI()] resolved against the sample database. *)
Definition cciOf (cc : CKLCheck) : CCI :=
  GetCCI (STIGCheck_cciId
            (default STIGCheck_default
               (first (GetSTIGChecks_where
                         (fun c => STIGCheck_id c =? CKLCheck_stigCheckId cc) sampleDb))))
         sampleDb.

Definition controlOf (c : CCI) : Control :=
  default (mkControl (-1) (-1) 0 (-1) [] [])
    (first (selectRows (fun x => Control_id x =? CCI_controlId c) (tblControl sampleDb))).

Definition PrintControl (c : Control) : QString :=
  Q"AC-" ++ number (Control_number c).

Definition printCheck (cc : CKLCheck) : QString :=
  Q"TEST: " ++ number (CKLCheck_stigCheckId cc).

(** The report for the reviewed checklist. *)
Definition sampleReport : Report :=
  process cciOf CCI_cci controlOf PrintControl (fun s => s) (fun l => l)
          printCheck printCheck (Q"03-Nov-2019") (Q"tester")
          [reviewed_1; reviewed_2] (GetCCIs sampleDb).

(** The row of the sample report for CCI-000366, which has an open check. *)
Definition failedRow_366 : Row :=
  failedRow controlOf PrintControl (fun s => s) (fun l => l) printCheck
            (Q"03-Nov-2019") (Q"tester") (366, (cci_366, [reviewed_2])).

(** An Asset, a CCI and a STIG that the sample database does not hold. *)
Definition asset_NEW : Asset :=
  mkAsset (-1) [] (Q"NEW") (Q"10.0.0.2") [] [] [] [] false [] [].

Definition item_2 : list Token := cciItemTokens (Q"CCI-000002") (Q"4") (Q"AC-2 (1)").

Definition row_2 : CCI := mkCCI (-1) 1 2 (Q"A definition.") false [] [] [] [].

Definition stig_rhel7 : STIG :=
  mkSTIG (-1) (Q"Red Hat 7") [] (Q"Release: 2") 2 (Q"RHEL_7_STIG") (Q"U_RHEL_7.zip").

Definition check_new : STIGCheck :=
  mkSTIGCheck (-1) (-1) 2 (Q"SV-9r1_rule") (Q"V-9") [] [] low (Q"Passwords expire.")
              (Q"scanner") (Q"System Administrator") [].

(** A benchmark with one profile and two rules, and stand-ins for the
    helpers of the STIG import. *)
Definition header_win10 : WorkerSTIGAdd.HeaderData :=
  WorkerSTIGAdd.mkHeaderData (Q"Windows 10") (Q"Security guide.") (Q"Release: 19") (Q"1")
                             [Q"MAC-1_Classified"].

Definition rule_V1 : WorkerSTIGAdd.RuleData :=
  WorkerSTIGAdd.mkRuleData (Q"V-1") (Q"SRG-OS-1") (Q"Group one.") (Q"SV-1r1_rule")
    (Q"medium") (Q"10.0") (Q"Accounts are managed.") None (Some (Q"CCI-000015"))
    (Some (Q"Manage the accounts.")) (Some (Q"M")) (Some (Q"Verify the accounts.")).

Definition rule_V2 : WorkerSTIGAdd.RuleData :=
  WorkerSTIGAdd.mkRuleData (Q"V-2") (Q"SRG-OS-2") (Q"Group two.") (Q"SV-2r1_rule")
    (Q"high") (Q"10.0") (Q"Settings are configured.") None None
    (Some (Q"Configure the settings.")) None (Some (Q"Verify the settings.")).

Definition check_blank : WorkerSTIGAdd.Check :=
  WorkerSTIGAdd.mkCheck 0 [] [] medium [] [] [] [] [] [] false [] [] [] [] [] []
                        CCI_default [] [] [].

Definition severityOf (s : QString) : Severity :=
  if bool_decide (s = Q"high") then high
  else if bool_decide (s = Q"medium") then medium else low.

Definition cciNumberOf (s : QString) : Z := toInt (right 6 s).

Definition cciOfNumber (n : Z) : CCI :=
  default CCI_default (first (selectRows (fun c => CCI_cci c =? n) (tblCCI sampleDb))).

End Samples.

(** * Facts *)

#[local] Arguments QStringLiteral : simpl never.
#[local] Set Warnings "-clear-no-such-hyp".

(** ** Strings *)

Lemma skipSpaces_id s : Forall (fun c => isSpace c = false) s -> skipSpaces s = s.
Proof. destruct 1 as [|c s Hc _]; simpl; [done|]. by rewrite Hc. Qed.

Lemma trimmed_id s : Forall (fun c => isSpace c = false) s -> trimmed s = s.
Proof.
  intros H. unfold trimmed. rewrite (skipSpaces_id s H).
  rewrite skipSpaces_id; [apply rev_involutive|].
  by apply List.Forall_rev.
Qed.

Lemma findFrom_notin c i s : c ∉ s -> findFrom c i s = -1.
Proof.
  revert i. induction s as [|x s IH]; intros i H; simpl; [done|].
  apply not_elem_of_cons in H as [Hx Hs].
  rewrite bool_decide_eq_false_2 by congruence. by apply IH.
Qed.

Lemma findFrom_app c i pre post :
  c ∉ pre -> findFrom c i (pre ++ c :: post) = i + Z.of_nat (length pre).
Proof.
  revert i. induction pre as [|x pre IH]; intros i H; simpl.
  - rewrite bool_decide_eq_true_2 by done. lia.
  - apply not_elem_of_cons in H as [Hx Hs].
    rewrite bool_decide_eq_false_2 by congruence. rewrite IH by done. lia.
Qed.

Lemma indexOf_notin c s : c ∉ s -> indexOf c s = -1.
Proof. intros H. unfold indexOf, indexOfFrom. by apply findFrom_notin. Qed.

Lemma indexOf_app c pre post :
  c ∉ pre -> indexOf c (pre ++ c :: post) = Z.of_nat (length pre).
Proof.
  intros H. unfold indexOf, indexOfFrom. rewrite Z.ltb_irrefl.
  change (Z.to_nat 0) with 0%nat. rewrite drop_0, findFrom_app by done. lia.
Qed.

Lemma indexOfFrom_notin c pre post :
  c ∉ post -> indexOfFrom c (Z.of_nat (length pre)) (pre ++ post) = -1.
Proof.
  intros H. unfold indexOfFrom.
  rewrite (proj2 (Z.ltb_ge _ _)) by lia.
  rewrite Nat2Z.id, drop_app_length. by apply findFrom_notin.
Qed.

Lemma contains_notin c s : c ∉ s -> contains c s = false.
Proof. intros H. unfold contains. by rewrite indexOf_notin. Qed.

Lemma contains_app c pre post : c ∉ pre -> contains c (pre ++ c :: post) = true.
Proof.
  intros H. unfold contains. rewrite indexOf_app by done.
  apply negb_true_iff, Z.ltb_ge. lia.
Qed.

Lemma left_app pre post : left (Z.of_nat (length pre)) (pre ++ post) = pre.
Proof.
  unfold left. rewrite (proj2 (Z.ltb_ge _ _)) by lia.
  by rewrite Nat2Z.id, take_app_length.
Qed.

Lemma right_app pre post n :
  n = Z.of_nat (length post) -> right n (pre ++ post) = post.
Proof.
  intros ->. unfold right. rewrite (proj2 (Z.ltb_ge _ _)) by lia.
  rewrite Nat2Z.id, length_app.
  replace (length pre + length post - length post)%nat with (length pre) by lia.
  apply drop_app_length.
Qed.

Lemma midRef_app pre mid post n :
  0 < n -> n = Z.of_nat (length mid) ->
  midRef (Z.of_nat (length pre)) n (pre ++ mid ++ post) = mid.
Proof.
  intros Hn ->. unfold midRef. rewrite (proj2 (Z.leb_gt _ _)) by lia.
  by rewrite !Nat2Z.id, drop_app_length, take_app_length.
Qed.

Lemma digit_chars d :
  Forall (fun c => isDigit c = true) (list_ascii_of_string (NilEmpty.string_of_uint d)).
Proof. induction d; simpl; constructor; done. Qed.

Lemma number_digits n : 0 <= n -> Forall (fun c => isDigit c = true) (number n).
Proof.
  intros Hn. unfold number. rewrite (proj2 (Z.ltb_ge _ _)) by lia.
  unfold NilZero.string_of_uint.
  destruct (N.to_uint (Z.abs_N n)); first [apply digit_chars | repeat constructor].
Qed.

Lemma to_uint_nonnil m : N.to_uint m <> Nil.
Proof. destruct m; simpl; [done|]. apply DecimalPos.Unsigned.to_uint_nonnil. Qed.

Lemma number_nonempty n : number n <> [].
Proof.
  unfold number. destruct (n <? 0); [done|].
  unfold NilZero.string_of_uint.
  destruct (N.to_uint (Z.abs_N n)); by simpl.
Qed.

Lemma isDigit_not_space c : isDigit c = true -> isSpace c = false.
Proof. destruct c as [[] [] [] [] [] [] [] []]; by vm_compute. Qed.

Lemma isLetter_not_space c : isLetter c = true -> isSpace c = false.
Proof. destruct c as [[] [] [] [] [] [] [] []]; by vm_compute. Qed.

Lemma isDigit_not_mark c : isDigit c = true -> isMark c = false.
Proof. destruct c as [[] [] [] [] [] [] [] []]; by vm_compute. Qed.

Lemma isLetter_not_mark c : isLetter c = true -> isMark c = false.
Proof. destruct c as [[] [] [] [] [] [] [] []]; by vm_compute. Qed.

Lemma toInt_unsigned c r :
  Forall (fun c => isSpace c = false) (c :: r) -> isMark c = false ->
  toInt (c :: r) =
    match NilZero.uint_of_string (string_of_list_ascii (c :: r)) with
    | Some d =>
        let v := Z.of_N (N.of_uint d) in
        if (INT_MIN <=? v) && (v <=? INT_MAX) then v else 0
    | None => 0
    end.
Proof.
  intros Hs Hm. unfold toInt. rewrite trimmed_id by done.
  destruct c as [[] [] [] [] [] [] [] []]; try done.
Qed.

Lemma toInt_number n : 0 <= n <= INT_MAX -> toInt (number n) = n.
Proof.
  intros Hn.
  pose proof (number_digits n (proj1 Hn)) as Hd.
  pose proof (number_nonempty n) as Hne.
  destruct (number n) as [|c r] eqn:E; [done|].
  rewrite toInt_unsigned.
  - rewrite <- E. unfold number. rewrite (proj2 (Z.ltb_ge _ _)) by lia.
    rewrite string_of_list_ascii_of_string.
    rewrite NilZero.usu by apply to_uint_nonnil.
    rewrite DecimalN.Unsigned.of_to.
    cbv zeta. rewrite N2Z.inj_abs_N, Z.abs_eq by lia.
    unfold INT_MIN, INT_MAX in *.
    rewrite andb_true_intro; [done|]. split; apply Z.leb_le; lia.
  - eapply Forall_impl; [exact Hd|]. apply isDigit_not_space.
  - apply isDigit_not_mark. by inversion Hd.
Qed.


(** ** Control names *)

Lemma mark_notin (c : ascii) (s : QString) :
  isMark c = true -> Forall (fun x => isMark x = false) s -> c ∉ s.
Proof.
  intros Hc Hs Hin. rewrite Forall_forall in Hs. apply Hs in Hin. congruence.
Qed.

Ltac solve_length :=
  unfold qlength; repeat first [rewrite length_app | progress simpl]; lia.

Section Parse.
Variables (a b : ascii) (ds es : QString).
Hypothesis Ha : isLetter a = true.
Hypothesis Hb : isLetter b = true.
Hypothesis Hds : Forall (fun c => isDigit c = true) ds.
Hypothesis Hes : Forall (fun c => isDigit c = true) es.

Local Abbreviation stem := (a :: b :: "-"%char :: ds).

Lemma stem_nomark_but_dash (c : ascii) :
  isMark c = true -> c <> "-"%char -> c ∉ stem.
Proof.
  intros Hc Hd. rewrite !not_elem_of_cons. repeat split.
  - intros ->. apply isLetter_not_mark in Ha. congruence.
  - intros ->. apply isLetter_not_mark in Hb. congruence.
  - done.
  - apply mark_notin; [done|]. eapply Forall_impl; [exact Hds|]. apply isDigit_not_mark.
Qed.

Lemma digits_nomark (c : ascii) s :
  isMark c = true -> Forall (fun c => isDigit c = true) s -> c ∉ s.
Proof.
  intros Hc Hs. apply mark_notin; [done|]. eapply Forall_impl; [exact Hs|]. apply isDigit_not_mark.
Qed.

Lemma controlOfIndex_plain : controlOfIndex stem = stem.
Proof.
  unfold controlOfIndex. cbv zeta.
  rewrite (contains_notin " ") by (by apply stem_nomark_but_dash).
  rewrite (contains_notin ".") by (by apply stem_nomark_but_dash).
  rewrite (contains_notin "(") by (by apply stem_nomark_but_dash).
  reflexivity.
Qed.

Lemma one_space_plain : indexOfFrom " " (indexOf " " stem + 1) stem = -1.
Proof.
  rewrite (indexOf_notin " " stem) by (by apply stem_nomark_but_dash).
  change (-1 + 1) with 0. apply (indexOf_notin " " stem). by apply stem_nomark_but_dash.
Qed.

Lemma one_space_enhanced :
  indexOfFrom " " (indexOf " " (stem ++ " "%char :: "("%char :: es ++ [")"%char]) + 1)
              (stem ++ " "%char :: "("%char :: es ++ [")"%char]) = -1.
Proof.
  assert (Hsp : " "%char ∉ stem) by (by apply stem_nomark_but_dash).
  rewrite (indexOf_app " " stem) by done.
  replace (stem ++ " "%char :: "("%char :: es ++ [")"%char])
    with ((stem ++ [" "%char]) ++ "("%char :: es ++ [")"%char])
    by (by rewrite <- app_assoc).
  replace (Z.of_nat (length stem) + 1) with (Z.of_nat (length (stem ++ [" "%char])))
    by solve_length.
  apply indexOfFrom_notin. rewrite not_elem_of_cons. split; [done|].
  rewrite not_elem_of_app. split; [by apply digits_nomark|].
  by rewrite list_elem_of_singleton.
Qed.

Lemma controlOfIndex_enhanced :
  controlOfIndex (stem ++ " "%char :: "("%char :: es ++ [")"%char])
  = stem ++ "("%char :: es ++ [")"%char].
Proof.
  unfold controlOfIndex.
  assert (Hsp : " "%char ∉ stem) by (by apply stem_nomark_but_dash).
  assert (Hdot : "."%char ∉ stem) by (by apply stem_nomark_but_dash).
  assert (Hpar : "("%char ∉ stem) by (by apply stem_nomark_but_dash).
  assert (Hcl : ")"%char ∉ stem) by (by apply stem_nomark_but_dash).
  rewrite (contains_app " " stem) by done.
  rewrite (indexOf_app " " stem) by done.
  rewrite left_app. rewrite (contains_notin "." stem) by done.
  set (index := stem ++ _).
  assert (Hidx1 : index = (stem ++ [" "%char]) ++ "("%char :: es ++ [")"%char]).
  { unfold index. by rewrite <- app_assoc. }
  assert (Hidx2 : index = (stem ++ " "%char :: "("%char :: es) ++ ")"%char :: []).
  { unfold index. rewrite <- app_assoc. done. }
  assert (Hc : contains "(" index = true).
  { rewrite Hidx1. apply contains_app. rewrite not_elem_of_app. split; [done|].
    by rewrite list_elem_of_singleton. }
  rewrite Hc.
  assert (Hi2 : indexOfFrom " " (Z.of_nat (length stem) + 1) index = -1).
  { rewrite Hidx1.
    replace (Z.of_nat (length stem) + 1) with (Z.of_nat (length (stem ++ [" "%char])))
      by solve_length.
    apply indexOfFrom_notin. rewrite not_elem_of_cons. split; [done|].
    rewrite not_elem_of_app. split; [by apply digits_nomark|].
    by rewrite list_elem_of_singleton. }
  rewrite Hi2.
  assert (Hi3 : indexOf "(" index = Z.of_nat (length (stem ++ [" "%char]))).
  { rewrite Hidx1. apply indexOf_app. rewrite not_elem_of_app. split; [done|].
    by rewrite list_elem_of_singleton. }
  assert (Hi4 : indexOf ")" index = Z.of_nat (length (stem ++ " "%char :: "("%char :: es))).
  { rewrite Hidx2. apply indexOf_app. rewrite not_elem_of_app. split; [done|].
    rewrite !not_elem_of_cons. repeat split; try done. by apply digits_nomark. }
  rewrite Hi3, Hi4. cbn [Z.leb Z.compare orb].
  f_equal.
  rewrite Hidx1.
  replace ("("%char :: es ++ [")"%char]) with (("("%char :: es ++ [")"%char]) ++ []) at 1
    by apply app_nil_r.
  apply midRef_app.
  - solve_length.
  - solve_length.
Qed.


Lemma digits_nospace s :
  Forall (fun c => isDigit c = true) s -> Forall (fun c => isSpace c = false) s.
Proof. intros H. eapply Forall_impl; [exact H|]. apply isDigit_not_space. Qed.

Lemma stem_nospace : Forall (fun c => isSpace c = false) stem.
Proof.
  repeat constructor; try by apply isLetter_not_space.
  by apply digits_nospace.
Qed.

Lemma parseControl_stem n :
  ds <> [] -> toInt ds = n -> parseControl stem = ([a; b], n, -1).
Proof.
  intros Hne Hn. unfold parseControl.
  rewrite trimmed_id by apply stem_nospace.
  rewrite (indexOf_notin " " stem) by (by apply stem_nomark_but_dash).
  cbn [Z.gtb Z.compare].
  assert (Hr : right (qlength stem - 3) stem = ds).
  { apply (right_app [a; b; "-"%char] ds). solve_length. }
  rewrite Hr.
  rewrite contains_notin by (by apply digits_nomark).
  by rewrite Hn.
Qed.

Lemma parseControl_enhanced n e :
  ds <> [] -> es <> [] -> toInt ds = n -> toInt es = e ->
  parseControl (stem ++ "("%char :: es ++ [")"%char]) = ([a; b], n, e).
Proof.
  intros Hne Hnee Hn He. unfold parseControl.
  assert (Hsp : Forall (fun c => isSpace c = false) (stem ++ "("%char :: es ++ [")"%char])).
  { apply Forall_app. split; [apply stem_nospace|].
    constructor; [done|]. apply Forall_app. split; [by apply digits_nospace|].
    by repeat constructor. }
  rewrite trimmed_id by done.
  rewrite (indexOf_notin " " (stem ++ "("%char :: es ++ [")"%char])).
  2:{ rewrite not_elem_of_app. split; [by apply stem_nomark_but_dash|].
      rewrite not_elem_of_cons, not_elem_of_app, list_elem_of_singleton.
      repeat split; try done. by apply digits_nomark. }
  cbn [Z.gtb Z.compare].
  set (rest := ds ++ "("%char :: es ++ [")"%char]).
  assert (Hr : right (qlength (stem ++ "("%char :: es ++ [")"%char]) - 3)
                     (stem ++ "("%char :: es ++ [")"%char]) = rest).
  { apply (right_app [a; b; "-"%char] rest).
    unfold rest. solve_length. }
  rewrite Hr. unfold rest.
  assert (Hp : "("%char ∉ ds) by (by apply digits_nomark).
  rewrite (contains_app "(" ds) by done.
  rewrite (indexOf_app "(" ds) by done.
  rewrite left_app.
  assert (He1 : right (qlength (ds ++ "("%char :: es ++ [")"%char]) - Z.of_nat (length ds) - 1)
                      (ds ++ "("%char :: es ++ [")"%char]) = es ++ [")"%char]).
  { replace (ds ++ "("%char :: es ++ [")"%char]) with ((ds ++ ["("%char]) ++ es ++ [")"%char])
      by (by rewrite <- app_assoc).
    apply right_app.
    solve_length. }
  rewrite He1.
  assert (He2 : left (qlength (es ++ [")"%char]) - 1) (es ++ [")"%char]) = es).
  { replace (qlength (es ++ [")"%char]) - 1) with (Z.of_nat (length es)).
    - apply left_app.
    - solve_length. }
  rewrite He2. by rewrite Hn, He.
Qed.

End Parse.

Lemma controlOfIndex_initial_agrees index :
  indexOfFrom " " (indexOf " " index + 1) index <= 0 ->
  controlOfIndex_initial index = controlOfIndex index.
Proof.
  intros H. unfold controlOfIndex_initial, controlOfIndex. cbv zeta.
  destruct (contains "(" index); [|done].
  by rewrite (proj2 (Z.leb_le _ _) H).
Qed.

(** Claim C2, as amended.  A reference index written as a family of exactly
    two letters, a hyphen, a decimal number that fits an [int] and,
    optionally, a space and a parenthesised decimal enhancement that fits an
    [int], is resolved by the CCI import to that family, that number and that
    enhancement (-1 standing for "no enhancement"); "AC-2 (1)" gives "AC", 2
    and 1.  The first revision of the worker derives the same control name
    from such an index. *)
Theorem parseIndex_two_letter_family (a b : ascii) (n : Z) (enhancement : option Z) :
  isLetter a = true -> isLetter b = true ->
  0 <= n <= INT_MAX ->
  (forall e, enhancement = Some e -> 0 <= e <= INT_MAX) ->
  parseIndex (referenceIndex [a; b] n enhancement) = ([a; b], n, default (-1) enhancement)
  /\ controlOfIndex_initial (referenceIndex [a; b] n enhancement)
     = controlOfIndex (referenceIndex [a; b] n enhancement).
Proof.
  intros Ha Hb Hn He. unfold parseIndex, referenceIndex.
  pose proof (number_digits n (proj1 Hn)) as Hds.
  destruct enhancement as [e|].
  - specialize (He e eq_refl).
    pose proof (number_digits e (proj1 He)) as Hes.
    change ([a; b] ++ "-"%char :: number n ++ " "%char :: "("%char :: number e ++ [")"%char])
      with ((a :: b :: "-"%char :: number n) ++ " "%char :: "("%char :: number e ++ [")"%char]).
    split.
    + rewrite (controlOfIndex_enhanced a b (number n) (number e)) by done.
      apply parseControl_enhanced; auto using number_nonempty, toInt_number.
    + apply controlOfIndex_initial_agrees.
      by rewrite (one_space_enhanced a b (number n) (number e)).
  - rewrite app_nil_r.
    change ([a; b] ++ "-"%char :: number n) with (a :: b :: "-"%char :: number n).
    split.
    + rewrite (controlOfIndex_plain a b (number n)) by done.
      apply parseControl_stem; auto using number_nonempty, toInt_number.
    + apply controlOfIndex_initial_agrees.
      by rewrite (one_space_plain a b (number n)).
Qed.

(** The amended claim C2 at "AC-2 (1)". *)
Lemma parseIndex_AC_2_1 :
  referenceIndex (Q"AC") 2 (Some 1) = Q"AC-2 (1)"
  /\ parseIndex (Q"AC-2 (1)") = (Q"AC", 2, 1).
Proof.
  split; [reflexivity|].
  refine (proj1 (parseIndex_two_letter_family "A" "C" 2 (Some 1) _ _ _ _)).
  - reflexivity.
  - reflexivity.
  - unfold INT_MAX. lia.
  - intros e [= <-]. unfold INT_MAX. lia.
Defined.

(** Claim C2 as stated fails for a family of three letters (the parse keeps
    two letters as the family and reads the rest as the number -2), for a
    number that does not fit an [int] (read as 0) and for an enhancement
    written without a space before the parenthesis (read as 0). *)
Lemma parseIndex_three_letter_family :
  Forall (fun c => isLetter c = true) (Q"ABC")
  /\ referenceIndex (Q"ABC") 2 (Some 1) = Q"ABC-2 (1)"
  /\ parseIndex (Q"ABC-2 (1)") = (Q"AB", -2, 1)
  /\ parseIndex (Q"ABC-2 (1)") <> (Q"ABC", 2, 1)
  /\ parseIndex (referenceIndex (Q"AC") 4294967298 None) = (Q"AC", 0, -1)
  /\ parseIndex (Q"AC-2(1)") = (Q"AC", 2, 0).
Proof.
  split; [by repeat constructor|]. split; [reflexivity|].
  split; [by vm_compute|]. split; [by vm_compute|]. split; by vm_compute.
Qed.

(** ** The parsing loop of the CCI import *)

Lemma attributeValue_present name v0 v1 attrs :
  hasAttribute name attrs = true ->
  attributeValue name v0 attrs = attributeValue name v1 attrs.
Proof.
  unfold hasAttribute, attributeValue. rewrite bool_decide_eq_true.
  induction attrs as [|x attrs IH] using rev_ind; [by rewrite elem_of_nil|].
  rewrite map_app, elem_of_app, !fold_left_app. simpl.
  intros [H|H].
  - case_bool_decide; [done|]. by apply IH.
  - apply list_elem_of_singleton in H. by rewrite !bool_decide_eq_true_2.
Qed.

Lemma readElementText_consumed acc toks text rest :
  readElementText acc toks = (text, rest, true) ->
  exists consumed,
    toks = consumed ++ rest /\ consumed <> []
    /\ Forall (fun t => isItemWithId t = false) consumed.
Proof.
  revert acc. induction toks as [|t toks IH]; intros acc H; simpl in H; [done|].
  destruct t; try done.
  - injection H as <- <-. exists [EndElement name]. repeat split; [done|by repeat constructor].
  - apply IH in H as (consumed & -> & _ & Hc).
    exists (Characters text0 :: consumed). repeat split; [done|by constructor].
  - apply IH in H as (consumed & -> & _ & Hc).
    exists (Comment :: consumed). repeat split; [done|by constructor].
Qed.

Lemma readElementText_length acc toks :
  (length (readElementText acc toks).1.2 <= length toks)%nat.
Proof.
  revert acc. induction toks as [|t toks IH]; intros acc; simpl; [done|].
  destruct t; simpl; try lia.
  - specialize (IH (acc ++ text)). lia.
  - specialize (IH acc). lia.
Qed.

Lemma currentId_app seen cur l :
  currentId seen cur -> Forall (fun t => isItemWithId t = false) l ->
  currentId (seen ++ l) cur.
Proof.
  intros [->|(pre & iattrs & mid & -> & Hid & Hmid & ->)] Hl; [by left|].
  right. exists pre, iattrs, (mid ++ l). rewrite <- app_assoc. simpl.
  repeat split; try done. by apply Forall_app.
Qed.

Lemma stemsFrom_cons_rows d init toks rows c :
  rowsFrom d init toks rows ->
  (exists iattrs rattrs, stemsFrom d toks c iattrs rattrs) ->
  rowsFrom d init toks (rows ++ [c]).
Proof.
  intros Hr Hc c' Hin. apply elem_of_app in Hin as [Hin|Hin]; [by apply Hr|].
  apply list_elem_of_singleton in Hin as ->. by right.
Qed.

Section Provenance.
Variable d : Db.
Variable init : list CCI.

Lemma parseTokens_rowsFrom fuel : forall toks seen st,
  currentId seen (ps_cci st) ->
  rowsFrom d init (seen ++ toks) (ps_toAdd st) ->
  rowsFrom d init (seen ++ toks) (ps_toAdd (parseTokens fuel d toks st)).
Proof.
  induction fuel as [|fuel IH]; intros toks seen st Hcur Hrows; [done|].
  destruct toks as [|t rest]; [done|].
  assert (Hstep : forall st',
    currentId (seen ++ [t]) (ps_cci st') ->
    rowsFrom d init (seen ++ t :: rest) (ps_toAdd st') ->
    rowsFrom d init (seen ++ t :: rest) (ps_toAdd (parseTokens fuel d rest st'))).
  { intros st' Hc Hr. rewrite (cons_middle t seen rest), app_assoc.
    apply IH; [done|]. by rewrite <- app_assoc. }
  destruct t as [name attrs|name|text| |]; simpl.
  - case_bool_decide as Hitem.
    { (* cci_item *)
      subst name. unfold cciItem. apply Hstep.
      - destruct (hasAttribute (Q"id") attrs) eqn:Hid; simpl.
        + right. exists seen, attrs, []. repeat split; try done.
          by apply attributeValue_present.
        + apply currentId_app; [done|]. repeat constructor. simpl.
          by rewrite Hid, ?andb_false_r.
      - by destruct (hasAttribute (Q"id") attrs). }
    assert (Hnot : isItemWithId (StartElement name attrs) = false).
    { simpl. by rewrite bool_decide_eq_false_2. }
    case_bool_decide as Hdef.
    { (* definition *)
      destruct (readElementText [] rest) as [[text rest'] ok] eqn:Hread.
      destruct ok; [|done]. simpl.
      apply readElementText_consumed in Hread as (consumed & -> & _ & Hcons).
      rewrite (cons_middle _ seen), !app_assoc. apply IH; simpl.
      - rewrite <- app_assoc. apply currentId_app; [done|]. by constructor.
      - by rewrite <- !app_assoc. }
    case_bool_decide as Href.
    { (* reference *)
      subst name. unfold reference. apply Hstep.
      - destruct (acceptsReference _ _); simpl; by apply currentId_app; [|repeat constructor].
      - destruct (acceptsReference (ps_cci st) attrs) eqn:Hacc; [|done]. simpl.
        apply stemsFrom_cons_rows; [done|].
        destruct Hcur as [Hcur|(pre & iattrs & mid & -> & Hid & Hmid & Hcur)].
        { unfold acceptsReference in Hacc. rewrite Hcur in Hacc. simpl in Hacc.
          by rewrite !andb_false_r in Hacc. }
        exists iattrs, attrs, pre, mid, rest, (ps_definition st).
        rewrite <- app_assoc. simpl. rewrite <- Hcur. done. }
    apply Hstep; [|done]. apply currentId_app; [done|by repeat constructor].
  - apply Hstep; [|done]. apply currentId_app; [done|by repeat constructor].
  - apply Hstep; [|done]. apply currentId_app; [done|by repeat constructor].
  - apply Hstep; [|done]. apply currentId_app; [done|by repeat constructor].
  - done.
Qed.

End Provenance.

Lemma parseFile_rowsFrom d init toks : rowsFrom d init toks (parseFile d init toks).
Proof.
  unfold parseFile.
  apply (parseTokens_rowsFrom d init (length toks) toks [] (mkParseState [] [] init)).
  - by left.
  - intros c Hc. by left.
Qed.

Lemma parseFiles_rowsFrom d files : forall init c,
  c ∈ fold_left (parseFile d) files init ->
  c ∈ init \/ exists file iattrs rattrs, file ∈ files /\ stemsFrom d file c iattrs rattrs.
Proof.
  induction files as [|file files IH]; intros init c Hc; simpl in Hc; [by left|].
  apply IH in Hc as [Hc|(f & ia & ra & Hf & Hs)].
  - apply parseFile_rowsFrom in Hc as [Hc|(ia & ra & Hs)]; [by left|].
    right. exists file, ia, ra. split; [by left|done].
  - right. exists f, ia, ra. split; [by right|done].
Qed.

Lemma acceptsReference_rev4 cci attrs :
  acceptsReference cci attrs = true ->
  hasAttribute (Q"version") attrs = true /\ hasAttribute (Q"index") attrs = true
  /\ cci <> []
  /\ attributeValue (Q"version") [] attrs = Q"4"
  /\ attributeValue (Q"index") [] attrs <> [].
Proof.
  unfold acceptsReference. cbv zeta. rewrite !andb_true_iff, !negb_true_iff, bool_decide_eq_true.
  intros [[[Hv Hi] Hc] [[Hve Hie] H4]]. repeat split; try done.
  - by destruct cci.
  - by destruct (attributeValue (Q"index") [] attrs).
Qed.

(** Claim C9, as amended.  Every row the CCI import gathers stems from a
    [reference] element that carries a [version] and an [index] attribute,
    both non-empty, with [version] equal to "4"; the CCI number of the row
    is the integer read from the last six characters of the id of the last
    [cci_item] start tag before the reference that carries an id: the
    enclosing [cci_item] when that has an id. *)
Theorem reference_rows_are_rev4 (d : Db) (xmlFiles : list (list Token)) (c : CCI) :
  c ∈ parseFiles d xmlFiles ->
  exists xmlFile iattrs rattrs,
    xmlFile ∈ xmlFiles
    /\ stemsFrom d xmlFile c iattrs rattrs
    /\ hasAttribute (Q"version") rattrs = true
    /\ hasAttribute (Q"index") rattrs = true
    /\ attributeValue (Q"version") [] rattrs <> []
    /\ attributeValue (Q"index") [] rattrs <> []
    /\ attributeValue (Q"version") [] rattrs = Q"4"
    /\ CCI_cci c = toInt (right 6 (attributeValue (Q"id") [] iattrs)).
Proof.
  intros Hc. apply parseFiles_rowsFrom in Hc as [Hc|(f & ia & ra & Hf & Hs)].
  { by apply elem_of_nil in Hc. }
  exists f, ia, ra. split; [done|]. split; [done|].
  destruct Hs as (pre & mid & post & def & _ & _ & _ & Hacc & ->).
  apply acceptsReference_rev4 in Hacc as (Hv & Hi & _ & H4 & Hie).
  repeat split; try done. by rewrite H4.
Qed.

Lemma readElementText_Invalid post : forall pre acc,
  let '(text, rest, ok) := readElementText acc pre in
  readElementText acc (pre ++ Invalid :: post)
  = (text, if ok then rest ++ Invalid :: post else (readElementText acc (pre ++ Invalid :: post)).1.2, ok).
Proof.
  induction pre as [|t pre IH]; intros acc; simpl; [done|].
  destruct t; simpl; try done.
  - apply IH.
  - apply IH.
Qed.

Section Fuel.
Variable d : Db.

(** Enough fuel: any amount of at least [length toks] gives the same result. *)
Lemma parseTokens_fuel n : forall toks st fuel1 fuel2,
  (length toks <= n)%nat -> (n <= fuel1)%nat -> (n <= fuel2)%nat ->
  parseTokens fuel1 d toks st = parseTokens fuel2 d toks st.
Proof.
  induction n as [|n IH]; intros toks st fuel1 fuel2 Hl H1 H2.
  - destruct toks; [|simpl in Hl; lia]. by destruct fuel1, fuel2.
  - destruct fuel1 as [|fuel1]; [lia|]. destruct fuel2 as [|fuel2]; [lia|].
    destruct toks as [|t rest]; [done|]. simpl in Hl.
    destruct t as [name attrs|name|text| |]; simpl; try (apply IH; lia); [|done].
    repeat case_bool_decide; try (apply IH; lia).
    pose proof (readElementText_length [] rest) as Hlen.
    destruct (readElementText [] rest) as [[text rest'] ok]. simpl in Hlen.
    destruct ok; [|done]. apply IH; lia.
Qed.

(** The loop never looks past an invalid token. *)
Lemma parseTokens_Invalid post n : forall pre st fuel1 fuel2,
  (length pre <= n)%nat -> (n <= fuel1)%nat -> (n <= fuel2)%nat ->
  parseTokens fuel1 d (pre ++ Invalid :: post) st = parseTokens fuel2 d pre st.
Proof.
  induction n as [|n IH]; intros pre st fuel1 fuel2 Hl H1 H2.
  - destruct pre; [|simpl in Hl; lia]. by destruct fuel1, fuel2.
  - destruct pre as [|t rest].
    { by destruct fuel1, fuel2. }
    destruct fuel1 as [|fuel1]; [lia|]. destruct fuel2 as [|fuel2]; [lia|].
    simpl in Hl.
    destruct t as [name attrs|name|text| |]; simpl; try (apply IH; lia); [|done].
    repeat case_bool_decide; try (apply IH; lia).
    pose proof (readElementText_length [] rest) as Hlen.
    pose proof (readElementText_Invalid post rest []) as Hinv.
    destruct (readElementText [] rest) as [[text rest'] ok]. simpl in Hlen.
    rewrite Hinv. destruct ok; [|done]. apply IH; lia.
Qed.

Lemma parseFile_Invalid toAdd pre post :
  parseFile d toAdd (pre ++ Invalid :: post) = parseFile d toAdd pre.
Proof.
  unfold parseFile. f_equal.
  apply (parseTokens_Invalid post (length pre)); [done| |done].
  rewrite length_app. lia.
Qed.

End Fuel.

Section FamiliesFuel.
Variable Sanitize : QString -> QString.

(** The loop over the page never looks past an invalid token either. *)
Lemma readFamilies_Invalid post n : forall pre todo fuel1 fuel2 s,
  (length pre <= n)%nat -> (n <= fuel1)%nat -> (n <= fuel2)%nat ->
  readFamilies Sanitize fuel1 (pre ++ Invalid :: post) todo s
  = readFamilies Sanitize fuel2 pre todo s.
Proof.
  induction n as [|n IH]; intros pre todo fuel1 fuel2 s Hl H1 H2.
  - destruct pre; [|simpl in Hl; lia]. by destruct fuel1, fuel2.
  - destruct pre as [|t rest].
    { by destruct fuel1, fuel2. }
    destruct fuel1 as [|fuel1]; [lia|]. destruct fuel2 as [|fuel2]; [lia|].
    simpl in Hl.
    destruct t as [name attrs|name|text| |]; simpl; try (apply IH; lia); [|done].
    destruct (_ && _); [|apply IH; lia].
    pose proof (readElementText_length [] rest) as Hlen.
    pose proof (readElementText_Invalid post rest []) as Hinv.
    destruct (readElementText [] rest) as [[text rest'] ok]. simpl in Hlen.
    rewrite Hinv. unfold bind.
    destruct (addFamilyLink Sanitize text _ todo s) as [todo' s'].
    destruct ok; [|done]. apply IH; lia.
Qed.

Lemma importFamilies_Invalid pre post s :
  importFamilies Sanitize (pre ++ Invalid :: post) s = importFamilies Sanitize pre s.
Proof.
  unfold importFamilies, bind. simpl.
  rewrite (readFamilies_Invalid post (length pre) pre [] _ (length pre)); try done.
  rewrite length_app. lia.
Qed.

End FamiliesFuel.


(** Claim C8, as amended.  A parse error does not abort the import, but it
    ends the reading of the document it occurs in: the rows gathered, and
    with them the whole of steps 6 and 7, are those of the list cut off at
    the malformed place.  What precedes the error and the other documents of
    the archive is imported; what follows the error in the same document is
    not.  The same holds for the families read from the NIST page. *)
Theorem import_stops_at_parse_error (files1 files2 : list (list Token)) (pre post : list Token) :
  (forall d, parseFiles d (files1 ++ (pre ++ Invalid :: post) :: files2)
             = parseFiles d (files1 ++ pre :: files2))
  /\ (forall s, importCCIs (files1 ++ (pre ++ Invalid :: post) :: files2) s
                = importCCIs (files1 ++ pre :: files2) s)
  /\ (forall Sanitize s, importFamilies Sanitize (pre ++ Invalid :: post) s
                         = importFamilies Sanitize pre s).
Proof.
  assert (H : forall d, parseFiles d (files1 ++ (pre ++ Invalid :: post) :: files2)
                        = parseFiles d (files1 ++ pre :: files2)).
  { intros d. unfold parseFiles. rewrite !fold_left_app. simpl.
    by rewrite parseFile_Invalid. }
  split; [done|]. split; [|intros; apply importFamilies_Invalid].
  intros s. unfold importCCIs, bind, query. simpl.
  by rewrite H.
Qed.


(** ** The eMASS report *)

Lemma orderBy_Permutation {A} (le : A -> A -> bool) (l : list A) : orderBy le l ≡ₚ l.
Proof. apply merge_sort_Permutation. Qed.

Lemma elem_of_orderBy {A} (le : A -> A -> bool) (l : list A) x : x ∈ orderBy le l <-> x ∈ l.
Proof. by rewrite orderBy_Permutation. Qed.

Lemma elem_of_List_filter {A} (p : A -> bool) (l : list A) x :
  x ∈ List.filter p l <-> x ∈ l /\ p x = true.
Proof. rewrite !list_elem_of_In. apply filter_In. Qed.

Lemma count_NoDup {A} (f : A -> Z) (l : list A) (k : Z) :
  NoDup (map f l) ->
  length (List.filter (fun x => f x =? k) l)
  = if bool_decide (k ∈ map f l) then 1%nat else 0%nat.
Proof.
  induction l as [|x l IH]; simpl; [done|].
  rewrite NoDup_cons. intros [Hx Hl]. specialize (IH Hl).
  destruct (Z.eqb_spec (f x) k) as [<-|Hne]; simpl; rewrite IH.
  - rewrite (bool_decide_eq_false_2 (f x ∈ map f l)) by done.
    by rewrite (bool_decide_eq_true_2 (f x ∈ f x :: map f l)) by left.
  - rewrite (bool_decide_ext (k ∈ f x :: map f l) (k ∈ map f l)); [done|].
    rewrite elem_of_cons. naive_solver.
Qed.

Lemma filter_map_length {A B} (p : B -> bool) (h : A -> B) (l : list A) :
  length (List.filter p (map h l)) = length (List.filter (fun x => p (h x)) l).
Proof. induction l as [|x l IH]; simpl; [done|]. destruct (p (h x)); simpl; by rewrite IH. Qed.

(** *** The printed CCI number *)

Lemma list_ascii_of_string_inj (a b : string) :
  list_ascii_of_string a = list_ascii_of_string b -> a = b.
Proof.
  intros H. rewrite <- (string_of_list_ascii_of_string a), <- (string_of_list_ascii_of_string b).
  by rewrite H.
Qed.

Lemma string_of_uint_inj (m m' : N) :
  NilZero.string_of_uint (N.to_uint m) = NilZero.string_of_uint (N.to_uint m') -> m = m'.
Proof.
  intros H. apply DecimalN.Unsigned.to_uint_inj.
  pose proof (to_uint_nonnil m) as Hm. pose proof (to_uint_nonnil m') as Hm'.
  assert (E : forall d, d <> Nil ->
            NilZero.string_of_uint d = NilEmpty.string_of_uint d) by (by intros []).
  rewrite !E in H by done.
  apply (f_equal NilEmpty.uint_of_string) in H. rewrite !NilEmpty.usu in H. by injection H.
Qed.

(** The first digit of a number other than 0 is not 0. *)
Lemma to_uint_head (m : N) : m <> 0%N -> forall u, N.to_uint m <> D0 u.
Proof.
  intros Hm u E.
  assert (Hn : unorm (N.to_uint m) = N.to_uint m).
  { by rewrite <- DecimalN.Unsigned.to_of, DecimalN.Unsigned.of_to. }
  rewrite E, DecimalFacts.unorm_D0 in Hn.
  assert (Hu : u = Nil \/ u <> Nil) by (destruct u; auto).
  destruct Hu as [->|Hu].
  - apply Hm. apply DecimalN.Unsigned.to_uint_inj. by rewrite E.
  - pose proof (DecimalFacts.nb_digits_unorm u Hu) as Hlen.
    rewrite Hn in Hlen. simpl in Hlen. lia.
Qed.

Lemma number_head (n : Z) :
  n <> 0 -> exists c r, number n = c :: r /\ c <> "0"%char.
Proof.
  intros Hn. unfold number. destruct (n <? 0) eqn:Hs; [by eexists _, _|].
  pose proof (to_uint_head (Z.abs_N n)) as Hh.
  pose proof (to_uint_nonnil (Z.abs_N n)) as Hnil.
  destruct (N.to_uint (Z.abs_N n)) as [|u|u|u|u|u|u|u|u|u|u]; try done;
    try (by eexists _, _).
  exfalso. apply (Hh ltac:(lia) u). done.
Qed.

Lemma number_inj (a b : Z) : number a = number b -> a = b.
Proof.
  unfold number. intros H.
  assert (Hd : forall m, match list_ascii_of_string (NilZero.string_of_uint (N.to_uint m)) with
                         | c :: _ => c <> "-"%char | [] => True end).
  { intros m. pose proof (to_uint_nonnil m) as Hm.
    destruct (N.to_uint m); try done. }
  destruct (a <? 0) eqn:Ha, (b <? 0) eqn:Hb.
  - injection H as H. apply list_ascii_of_string_inj, string_of_uint_inj in H. lia.
  - specialize (Hd (Z.abs_N b)). rewrite <- H in Hd. done.
  - specialize (Hd (Z.abs_N a)). rewrite H in Hd. done.
  - apply list_ascii_of_string_inj, string_of_uint_inj in H. lia.
Qed.

(** Zeros put before two texts that do not begin with a zero. *)
Lemma zeros_app_inj (k k' : nat) (s s' : QString) :
  match s with c :: _ => c <> "0"%char | [] => True end ->
  match s' with c :: _ => c <> "0"%char | [] => True end ->
  replicate k "0"%char ++ s = replicate k' "0"%char ++ s' -> s = s'.
Proof.
  revert k'. induction k as [|k IH]; intros k' Hs Hs' H.
  - destruct k' as [|k']; [done|]. simpl in H. by rewrite H in Hs.
  - destruct k' as [|k']; simpl in H.
    + by rewrite <- H in Hs'.
    + injection H as H. by apply (IH k').
Qed.

(** A number as zeros followed by a text that does not begin with one. *)
Lemma number_zeros (n : Z) :
  exists z s, number n = replicate z "0"%char ++ s
    /\ match s with c :: _ => c <> "0"%char | [] => True end
    /\ (s = [] <-> n = 0).
Proof.
  destruct (Z.eq_dec n 0) as [->|Hn].
  - by exists 1%nat, [].
  - destruct (number_head n Hn) as (c & r & E & Hc).
    exists 0%nat, (c :: r). by rewrite E.
Qed.

(** Different numbers are printed differently. *)
Lemma zeroPad_number_inj (a b : Z) : zeroPad (number a) = zeroPad (number b) -> a = b.
Proof.
  unfold zeroPad. intros H.
  destruct (number_zeros a) as (za & sa & Ea & Ha & Ha0).
  destruct (number_zeros b) as (zb & sb & Eb & Hb & Hb0).
  assert (Hs : sa = sb).
  { rewrite Ea, Eb, !app_assoc, <- !replicate_add in H.
    by apply zeros_app_inj in H. }
  destruct (Z.eq_dec a 0) as [->|Hna].
  - symmetry. apply Hb0. rewrite <- Hs. by apply Ha0.
  - destruct (Z.eq_dec b 0) as [->|Hnb].
    + apply Ha0. rewrite Hs. by apply Hb0.
    + apply number_inj.
      destruct za; [|exfalso; destruct (number_head a Hna) as (c & r & E & Hc);
                      rewrite E in Ea; simpl in Ea; by injection Ea as -> _].
      destruct zb; [|exfalso; destruct (number_head b Hnb) as (c & r & E & Hc);
                      rewrite E in Eb; simpl in Eb; by injection Eb as -> _].
      by rewrite Ea, Eb, Hs.
Qed.

Section ReportFacts.
Context (cciOf : CKLCheck -> CCI) (cciKey : CCI -> Z) (controlOf : CCI -> Control)
        (PrintControl : Control -> QString) (Excelify : QString -> QString)
        (sortChecks : list CKLCheck -> list CKLCheck)
        (printOpenCheck printPassedCheck : CKLCheck -> QString)
        (curDate username : QString).

Local Abbreviation appendCheck := (appendCheck cciKey).
Local Abbreviation containsCCI := (containsCCI cciKey).
Local Abbreviation classify := (classify cciOf cciKey).
Local Abbreviation classifyAll := (classifyAll cciOf cciKey).
Local Abbreviation process :=
  (process cciOf cciKey controlOf PrintControl Excelify sortChecks printOpenCheck
           printPassedCheck curDate username).
Local Abbreviation failedRow :=
  (failedRow controlOf PrintControl Excelify sortChecks printOpenCheck curDate username).
Local Abbreviation passedRow :=
  (passedRow controlOf PrintControl Excelify sortChecks printPassedCheck curDate username).
Local Abbreviation oldRow := (oldRow controlOf PrintControl Excelify).

(** A row written for the CCI with key [k] shows [status]. *)
Local Abbreviation writtenFor status r k :=
  (exists row, row ∈ dataRows r /\ cciKey (Row_cci row) = k
               /\ col7_complianceStatus row = status).

(** A check of status [s] is mapped to the CCI with key [k]. *)
Local Abbreviation mapped checks k s :=
  (exists cc, cc ∈ checks /\ cciKey (cciOf cc) = k /\ CKLCheck_status cc = s).

(** Every entry is stored under the key of its CCI. *)
Local Abbreviation keyed m :=
  (forall k c l, (m : CCIMap) !! k = Some (c, l) -> cciKey c = k).

Lemma appendCheck_is_Some c cc (m : CCIMap) k :
  is_Some (appendCheck c cc m !! k) <-> k = cciKey c \/ is_Some (m !! k).
Proof.
  unfold WorkerEMASSReport.appendCheck.
  destruct (m !! cciKey c) as [[c0 l]|] eqn:E.
  - rewrite lookup_insert_is_Some. split.
    + intros [->|[_ H]]; auto.
    + intros [->|H]; [by left|]. destruct (decide (cciKey c = k)); auto.
  - rewrite lookup_insert_is_Some. split.
    + intros [->|[_ H]]; auto.
    + intros [->|H]; [by left|]. destruct (decide (cciKey c = k)); auto.
Qed.

Lemma appendCheck_keyed c cc (m : CCIMap) : keyed m -> keyed (appendCheck c cc m).
Proof.
  intros Hm k c' l'. unfold WorkerEMASSReport.appendCheck.
  destruct (m !! cciKey c) as [[c0 l]|] eqn:E.
  - destruct (decide (cciKey c = k)) as [<-|Hne].
    + rewrite lookup_insert_eq. intros [= <- <-]. by eapply Hm.
    + rewrite lookup_insert_ne by done. apply Hm.
  - destruct (decide (cciKey c = k)) as [<-|Hne].
    + rewrite lookup_insert_eq. by intros [= <- <-].
    + rewrite lookup_insert_ne by done. apply Hm.
Qed.

Lemma containsCCI_true c (m : CCIMap) : containsCCI c m = true <-> is_Some (m !! cciKey c).
Proof. unfold WorkerEMASSReport.containsCCI. by rewrite bool_decide_eq_true. Qed.

Lemma containsCCI_false c (m : CCIMap) : containsCCI c m = false <-> ~ is_Some (m !! cciKey c).
Proof. unfold WorkerEMASSReport.containsCCI. by rewrite bool_decide_eq_false. Qed.

(** What the two maps hold once the checks [checks] have been examined. *)
Lemma classifyAll_spec checks :
  let '(failedCCIs, passedCCIs) := classifyAll checks in
  (forall k, is_Some (failedCCIs !! k) <-> mapped checks k Open)
  /\ (forall k, is_Some (passedCCIs !! k) <->
                mapped checks k NotAFinding /\ ~ mapped checks k Open)
  /\ keyed failedCCIs /\ keyed passedCCIs.
Proof.
  unfold WorkerEMASSReport.classifyAll.
  induction checks as [|cc checks IH] using rev_ind.
  { simpl. split; [|split; [|split]].
    - intros k. rewrite lookup_empty. split; [by intros [? ?]|].
      intros (? & H & _). by apply elem_of_nil in H.
    - intros k. rewrite lookup_empty. split; [by intros [? ?]|].
      intros [(? & H & _) _]. by apply elem_of_nil in H.
    - intros ? ? ?. by rewrite lookup_empty.
    - intros ? ? ?. by rewrite lookup_empty. }
  rewrite fold_left_app. simpl.
  destruct (fold_left classify checks (∅, ∅)) as [failedCCIs passedCCIs].
  destruct IH as (Hf & Hp & Hkf & Hkp).
  assert (Hsnoc : forall k s, mapped (checks ++ [cc]) k s <->
            mapped checks k s \/ (cciKey (cciOf cc) = k /\ CKLCheck_status cc = s)).
  { intros k s. split.
    - intros (x & Hx & Hk & Hs). apply elem_of_app in Hx as [Hx|Hx]; [left; eauto|].
      apply list_elem_of_singleton in Hx as ->. by right.
    - intros [(x & Hx & Hk & Hs)|[Hk Hs]].
      + exists x. rewrite elem_of_app. auto.
      + exists cc. rewrite elem_of_app, list_elem_of_singleton. auto. }
  unfold WorkerEMASSReport.classify.
  case_bool_decide as Hopen.
  - (* Open *)
    split; [|split; [|split]].
    + intros k. rewrite appendCheck_is_Some, Hsnoc, Hf. naive_solver.
    + intros k. rewrite !Hsnoc.
      destruct (containsCCI (cciOf cc) passedCCIs) eqn:Hc.
      * rewrite lookup_delete_is_Some, Hp. split.
        -- intros [Hne [Hn Ho]]. split; [by left|]. intros [?|[? ?]]; done.
        -- intros [[Hn|[? ?]] Ho]; [|congruence]. split; [|split; [done|]]; naive_solver.
      * apply containsCCI_false in Hc. rewrite Hp. split.
        -- intros [Hn Ho]. split; [by left|]. intros [?|[<- ?]]; [done|].
           apply Hc. by apply Hp.
        -- intros [[Hn|[? ?]] Ho]; [|congruence]. naive_solver.
    + by apply appendCheck_keyed.
    + destruct (containsCCI (cciOf cc) passedCCIs); [|done].
      intros k c l Hl. apply lookup_delete_Some in Hl as [_ Hl]. by eapply Hkp.
  - case_bool_decide as Hnaf; simpl.
    + destruct (containsCCI (cciOf cc) failedCCIs) eqn:Hc; simpl.
      * (* already failed *)
        apply containsCCI_true, Hf in Hc.
        split; [|split; [|split]]; try done.
        -- intros k. rewrite Hsnoc, Hf. naive_solver.
        -- intros k. rewrite !Hsnoc, Hp. split.
           ++ intros [Hn Ho]. split; [by left|]. intros [?|[? ?]]; done.
           ++ intros [[Hn|[<- ?]] Ho]; [naive_solver|]. destruct Ho. by left.
      * apply containsCCI_false in Hc. rewrite Hf in Hc.
        split; [|split; [|split]]; try done.
        -- intros k. rewrite Hsnoc, Hf. naive_solver.
        -- intros k. rewrite !Hsnoc, appendCheck_is_Some, Hp. split.
           ++ intros [->|[Hn Ho]].
              ** split; [by right|]. intros [?|[? ?]]; done.
              ** split; [by left|]. intros [?|[? ?]]; done.
           ++ intros [[Hn|[<- ?]] Ho]; [right; naive_solver|by left].
        -- by apply appendCheck_keyed.
    + split; [|split; [|split]]; try done.
      * intros k. rewrite Hsnoc, Hf. naive_solver.
      * intros k. rewrite !Hsnoc, Hp. naive_solver.
Qed.


Lemma elem_of_entries (m : CCIMap) k c l :
  (k, (c, l)) ∈ entries m <-> m !! k = Some (c, l).
Proof. unfold entries. by rewrite elem_of_orderBy, elem_of_map_to_list. Qed.

Lemma NoDup_entries (m : CCIMap) : NoDup (map fst (entries m)).
Proof.
  unfold entries. rewrite (orderBy_Permutation _ (map_to_list m)).
  apply NoDup_fst_map_to_list.
Qed.

Lemma elem_of_entries_keys (m : CCIMap) k : k ∈ map fst (entries m) <-> is_Some (m !! k).
Proof.
  rewrite list_elem_of_fmap. split.
  - intros ([k' [c l]] & -> & H). apply elem_of_entries in H. by eexists.
  - intros [[c l] H]. exists (k, (c, l)). split; [done|]. by apply elem_of_entries.
Qed.

(** The rows of the report, group by group. *)
Lemma elem_of_rows checks ccis row :
  let '(failedCCIs, passedCCIs) := classifyAll checks in
  row ∈ dataRows (process checks ccis) <->
    (exists k c l, failedCCIs !! k = Some (c, l) /\ row = failedRow (k, (c, l)))
    \/ (exists k c l, passedCCIs !! k = Some (c, l) /\ row = passedRow (k, (c, l)))
    \/ (exists c, c ∈ ccis /\ isOldResult cciKey failedCCIs passedCCIs c = true
                   /\ row = oldRow c).
Proof.
  unfold WorkerEMASSReport.process.
  destruct (classifyAll checks) as [failedCCIs passedCCIs]. simpl.
  rewrite !elem_of_app, !list_elem_of_fmap.
  split.
  - intros [([k [c l]] & -> & H)|[([k [c l]] & -> & H)|(c & -> & H)]].
    + left. exists k, c, l. by rewrite <- elem_of_entries.
    + right; left. exists k, c, l. by rewrite <- elem_of_entries.
    + right; right. exists c. apply elem_of_List_filter in H as [? ?]. done.
  - intros [(k & c & l & H & ->)|[(k & c & l & H & ->)|(c & Hc & Ho & ->)]].
    + left. exists (k, (c, l)). by rewrite elem_of_entries.
    + right; left. exists (k, (c, l)). by rewrite elem_of_entries.
    + right; right. exists c. by rewrite elem_of_List_filter.
Qed.

Lemma status_texts_differ :
  Q"Non-Compliant" <> Q"Compliant" /\ Q"Non-Compliant" <> [] /\ Q"Compliant" <> [].
Proof. by vm_compute. Qed.

Lemma written_NonCompliant checks ccis k :
  writtenFor (Q"Non-Compliant") (process checks ccis) k <-> mapped checks k Open.
Proof.
  pose proof (classifyAll_spec checks) as Hspec.
  pose proof (elem_of_rows checks ccis) as Hrows.
  destruct (classifyAll checks) as [failedCCIs passedCCIs].
  destruct Hspec as (Hf & Hp & Hkf & Hkp).
  destruct status_texts_differ as (Hd1 & Hd2 & Hd3).
  rewrite <- Hf. split.
  - intros (row & Hin & Hk & Hs). apply Hrows in Hin
      as [(k' & c & l & H & ->)|[(k' & c & l & H & ->)|(c & Hc & Ho & ->)]]; simpl in *.
    + apply Hkf in H as Hkey. rewrite <- Hk, Hkey. by eexists.
    + by destruct Hd1.
    + by destruct Hd2.
  - intros [[c l] H]. exists (failedRow (k, (c, l))). split; [|split; [|done]].
    + apply Hrows. left. by exists k, c, l.
    + simpl. by eapply Hkf.
Qed.

Lemma written_Compliant checks ccis k :
  writtenFor (Q"Compliant") (process checks ccis) k <->
  mapped checks k NotAFinding /\ ~ mapped checks k Open.
Proof.
  pose proof (classifyAll_spec checks) as Hspec.
  pose proof (elem_of_rows checks ccis) as Hrows.
  destruct (classifyAll checks) as [failedCCIs passedCCIs].
  destruct Hspec as (Hf & Hp & Hkf & Hkp).
  destruct status_texts_differ as (Hd1 & Hd2 & Hd3).
  rewrite <- Hp. split.
  - intros (row & Hin & Hk & Hs). apply Hrows in Hin
      as [(k' & c & l & H & ->)|[(k' & c & l & H & ->)|(c & Hc & Ho & ->)]]; simpl in *.
    + by destruct Hd1.
    + apply Hkp in H as Hkey. rewrite <- Hk, Hkey. by eexists.
    + by destruct Hd3.
  - intros [[c l] H]. exists (passedRow (k, (c, l))). split; [|split; [|done]].
    + apply Hrows. right; left. by exists k, c, l.
    + simpl. by eapply Hkp.
Qed.

(** Every data row shows the number of the CCI it is written for in its
    CCI column. *)
Lemma row_cell checks ccis row :
  row ∈ dataRows (process checks ccis) -> col3_cci row = cciCell (CCI_cci (Row_cci row)).
Proof.
  intros Hin. pose proof (elem_of_rows checks ccis) as Hrows.
  destruct (classifyAll checks) as [failedCCIs passedCCIs].
  by destruct (proj1 (Hrows row) Hin)
    as [(k' & c & l & H & ->)|[(k' & c & l & H & ->)|(c & Hc & Ho & ->)]].
Qed.

(** Rows printed from a list without repeated keys: at most one per CCI. *)
Lemma count_rows {E} (h : E -> Row) (key : E -> Z) (l : list E) (k : Z) :
  (forall e, e ∈ l -> cciKey (Row_cci (h e)) = key e) ->
  NoDup (map key l) ->
  length (List.filter (fun row => cciKey (Row_cci row) =? k) (map h l))
  = if bool_decide (k ∈ map key l) then 1%nat else 0%nat.
Proof.
  intros Hkey Hnd. rewrite filter_map_length, <- (count_NoDup key l k Hnd).
  f_equal. apply filter_ext_in. intros e He. rewrite (Hkey e); [done|].
  by apply list_elem_of_In.
Qed.

(** An imported CCI has one row among the three groups; it is the row of
    old results when no check of the CCI is open or passed. *)
Lemma imported_CCI_rows (checks : list CKLCheck) (ccis : list CCI) (c : CCI) :
  NoDup (map cciKey ccis) ->
  c ∈ ccis ->
  CCI_isImport c = true ->
  length (List.filter (fun row => cciKey (Row_cci row) =? cciKey c)
                      (dataRows (process checks ccis))) = 1%nat
  /\ ((forall cc, cc ∈ checks -> cciKey (cciOf cc) = cciKey c ->
         CKLCheck_status cc <> Open /\ CKLCheck_status cc <> NotAFinding) ->
      oldRow c ∈ dataRows (process checks ccis)).
Proof.
  intros Hnd Hc Himp.
  pose proof (classifyAll_spec checks) as Hspec.
  pose proof (elem_of_rows checks ccis) as Hrows.
  unfold WorkerEMASSReport.process in *.
  destruct (classifyAll checks) as [failedCCIs passedCCIs].
  destruct Hspec as (Hf & Hp & Hkf & Hkp). simpl in *.
  split.
  - rewrite !List.filter_app, !length_app.
    rewrite (count_rows failedRow fst), (count_rows passedRow fst),
            (count_rows oldRow cciKey).
    + (* exactly one of the three groups holds the key *)
      assert (Hold : cciKey c ∈ map cciKey (List.filter (isOldResult cciKey failedCCIs passedCCIs) ccis)
                     <-> ~ is_Some (failedCCIs !! cciKey c) /\ ~ is_Some (passedCCIs !! cciKey c)).
      { rewrite list_elem_of_fmap. split.
        - intros (c' & Hk & Hin). apply elem_of_List_filter in Hin as [_ Ho].
          unfold isOldResult in Ho. rewrite negb_true_iff, !orb_false_iff in Ho.
          destruct Ho as [[_ Ho1] Ho2].
          apply containsCCI_false in Ho1, Ho2. by rewrite Hk.
        - intros [H1 H2]. exists c. split; [done|]. apply elem_of_List_filter.
          split; [done|]. unfold isOldResult. rewrite Himp. simpl.
          apply negb_true_iff, orb_false_iff.
          split; by apply containsCCI_false. }
      assert (Hdisj : is_Some (failedCCIs !! cciKey c) -> is_Some (passedCCIs !! cciKey c) -> False).
      { rewrite Hf, Hp. tauto. }
      rewrite !(bool_decide_ext _ _ (elem_of_entries_keys _ _)).
      rewrite (bool_decide_ext _ _ Hold).
      repeat case_bool_decide; try done; tauto.
    + intros e _. done.
    + apply sublist_NoDup with (map cciKey ccis); [exact Hnd|].
      apply (fmap_sublist cciKey). clear. induction ccis as [|x l IH]; simpl; [done|].
      destruct (isOldResult _ _ _ x); by constructor.
    + intros [k [c' l]] He. simpl. apply elem_of_entries in He. by eapply Hkp.
    + apply NoDup_entries.
    + intros [k [c' l]] He. simpl. apply elem_of_entries in He. by eapply Hkf.
    + apply NoDup_entries.
  - intros Hnone.
    apply Hrows. right; right. exists c. split; [done|]. split; [|done].
    unfold isOldResult. rewrite Himp. simpl. apply negb_true_iff, orb_false_iff.
    split; apply containsCCI_false.
    + rewrite Hf. intros (cc & Hin & Hk & Hs). destruct (Hnone cc Hin Hk). done.
    + rewrite Hp. intros [(cc & Hin & Hk & Hs) _]. destruct (Hnone cc Hin Hk). done.
Qed.

(** *** CCIs by their printed number

    The map of the report is ordered by [operator<] of [CCI], which is not
    among the sources.  The worksheet names a CCI by its number, so the
    statements about the printed CCIs take it that two CCIs have the same
    key exactly when they have the same number. *)

Section Numbered.
Hypothesis cciKey_number : forall c c', cciKey c = cciKey c' <-> CCI_cci c = CCI_cci c'.

(** A check of status [s] is mapped to the CCI of number [n]. *)
Local Abbreviation mappedTo checks n s :=
  (exists cc, cc ∈ checks /\ CCI_cci (cciOf cc) = n /\ CKLCheck_status cc = s).

Lemma mapped_number (checks : list CKLCheck) (c : CCI) s :
  mapped checks (cciKey c) s <-> mappedTo checks (CCI_cci c) s.
Proof.
  split; intros (cc & Hin & Hk & Hs); exists cc; (split; [done|]); (split; [|done]);
    by apply cciKey_number.
Qed.

Lemma emittedWith_written status (checks : list CKLCheck) ccis n :
  emittedWith status (process checks ccis) n
  <-> exists c, CCI_cci c = n /\ writtenFor status (process checks ccis) (cciKey c).
Proof.
  split.
  - intros (row & Hin & Hcell & Hs). exists (Row_cci row). split.
    + rewrite (row_cell checks ccis row Hin) in Hcell. by apply zeroPad_number_inj in Hcell.
    + by exists row.
  - intros (c & <- & row & Hin & Hk & Hs). exists row. split; [done|]. split; [|done].
    rewrite (row_cell checks ccis row Hin). f_equal. by apply cciKey_number.
Qed.

Lemma emitted_NonCompliant (checks : list CKLCheck) ccis n :
  emittedWith (Q"Non-Compliant") (process checks ccis) n <-> mappedTo checks n Open.
Proof.
  rewrite emittedWith_written. split.
  - intros (c & <- & H). by apply written_NonCompliant, mapped_number in H.
  - intros (cc & Hin & Hn & Hs). exists (cciOf cc). split; [done|].
    apply written_NonCompliant, mapped_number. exists cc. by rewrite Hn.
Qed.

Lemma emitted_Compliant (checks : list CKLCheck) ccis n :
  emittedWith (Q"Compliant") (process checks ccis) n <->
  mappedTo checks n NotAFinding /\ ~ mappedTo checks n Open.
Proof.
  rewrite emittedWith_written. split.
  - intros (c & <- & H). apply written_Compliant in H as [H1 H2].
    by rewrite !mapped_number in H1, H2.
  - intros [(cc & Hin & Hn & Hs) Hopen]. exists (cciOf cc). split; [done|].
    apply written_Compliant. rewrite !mapped_number, Hn. split; [|done]. by exists cc.
Qed.

Lemma mappedTo_Permutation (checks checks' : list CKLCheck) n s :
  checks ≡ₚ checks' -> mappedTo checks n s <-> mappedTo checks' n s.
Proof. intros Hperm. by setoid_rewrite Hperm. Qed.

(** Claim C1.  In the eMASS report a CCI is printed (its number in the CCI
    column) with the compliance status "Non-Compliant" exactly when some
    CKLCheck mapped to it is Open, and with "Compliant" exactly when some
    CKLCheck mapped to it is NotAFinding and none is Open; no CCI is printed
    with both, and the classification is the same for every order of the
    CKLChecks. *)
Theorem report_partitions_by_pass_fail (checks : list CKLCheck) (ccis : list CCI) (n : Z) :
  (emittedWith (Q"Non-Compliant") (process checks ccis) n <->
     exists cc, cc ∈ checks /\ CCI_cci (cciOf cc) = n /\ CKLCheck_status cc = Open)
  /\ (emittedWith (Q"Compliant") (process checks ccis) n <->
        (exists cc, cc ∈ checks /\ CCI_cci (cciOf cc) = n /\ CKLCheck_status cc = NotAFinding)
        /\ ~ (exists cc, cc ∈ checks /\ CCI_cci (cciOf cc) = n /\ CKLCheck_status cc = Open))
  /\ ~ (emittedWith (Q"Non-Compliant") (process checks ccis) n
        /\ emittedWith (Q"Compliant") (process checks ccis) n)
  /\ (forall checks', checks ≡ₚ checks' ->
        (emittedWith (Q"Non-Compliant") (process checks' ccis) n
           <-> emittedWith (Q"Non-Compliant") (process checks ccis) n)
        /\ (emittedWith (Q"Compliant") (process checks' ccis) n
           <-> emittedWith (Q"Compliant") (process checks ccis) n)).
Proof.
  split; [apply emitted_NonCompliant|]. split; [apply emitted_Compliant|]. split.
  - rewrite emitted_NonCompliant, emitted_Compliant. tauto.
  - intros checks' Hperm.
    rewrite !emitted_NonCompliant, !emitted_Compliant.
    rewrite !(mappedTo_Permutation checks checks') by done. tauto.
Qed.

Lemma NoDup_keys (ccis : list CCI) : NoDup (map CCI_cci ccis) -> NoDup (map cciKey ccis).
Proof.
  induction ccis as [|c ccis IH]; simpl; [constructor|].
  rewrite !NoDup_cons, !list_elem_of_fmap. intros [Hc Hnd]. split; [|by apply IH].
  intros (c' & Hk & Hin). apply Hc. exists c'. split; [|done]. by apply cciKey_number.
Qed.

(** Claim C10.  Every CCI of the database that carries imported test
    results gets exactly one row in the eMASS report: one data row shows
    its number in the CCI column.  When no CKLCheck mapped to it is Open or
    NotAFinding, that row has empty current-result columns and shows the
    imported compliance, date, tester and results in the latest-test-result
    columns. *)
Theorem imported_CCI_has_one_row (checks : list CKLCheck) (ccis : list CCI) (c : CCI) :
  NoDup (map CCI_cci ccis) ->
  c ∈ ccis ->
  CCI_isImport c = true ->
  rowCount (process checks ccis) (CCI_cci c) = 1%nat
  /\ ((forall cc, cc ∈ checks -> CCI_cci (cciOf cc) = CCI_cci c ->
         CKLCheck_status cc <> Open /\ CKLCheck_status cc <> NotAFinding) ->
      exists row, row ∈ dataRows (process checks ccis)
        /\ col3_cci row = cciCell (CCI_cci c)
        /\ col0_control row = PrintControl (controlOf c)
        /\ col4_definition row = Excelify (CCI_definition c)
        /\ col7_complianceStatus row = [] /\ col8_dateTested row = []
        /\ col9_testedBy row = [] /\ col10_testResults row = []
        /\ col11_latestComplianceStatus row = CCI_importCompliance c
        /\ col12_latestDateTested row = CCI_importDateTested c
        /\ col13_latestTestedBy row = CCI_importTestedBy c
        /\ col14_latestTestResults row = CCI_importTestResults c).
Proof.
  intros Hnd Hc Himp.
  destruct (imported_CCI_rows checks ccis c (NoDup_keys ccis Hnd) Hc Himp) as [Hcount Hold].
  split.
  - unfold rowCount. rewrite <- Hcount. f_equal. apply filter_ext_in.
    intros row Hrow. apply list_elem_of_In in Hrow.
    rewrite (row_cell checks ccis row Hrow).
    destruct (cciKey (Row_cci row) =? cciKey c) eqn:E.
    + apply Z.eqb_eq, cciKey_number in E. rewrite E. by apply bool_decide_eq_true_2.
    + apply bool_decide_eq_false_2. intros Hcell. apply zeroPad_number_inj in Hcell.
      apply Z.eqb_neq in E. apply E. by apply cciKey_number.
  - intros Hnone. exists (oldRow c). split.
    + apply Hold. intros cc Hin Hk. apply (Hnone cc Hin). by apply cciKey_number.
    + by simpl; unfold latest; rewrite Himp.
Qed.

End Numbered.

End ReportFacts.


(** ** The data layer *)

Lemma length_orderBy {A} (le : A -> A -> bool) (l : list A) : length (orderBy le l) = length l.
Proof. by rewrite orderBy_Permutation. Qed.

Lemma first_orderBy {A} (le : A -> A -> bool) (l : list A) x0 :
  x0 ∈ l -> exists x, first (orderBy le l) = Some x /\ x ∈ l.
Proof.
  intros Hin. destruct (orderBy le l) as [|x l'] eqn:E.
  - apply (elem_of_orderBy le) in Hin. rewrite E in Hin. by apply elem_of_nil in Hin.
  - exists x. split; [done|]. apply (elem_of_orderBy le). rewrite E. by left.
Qed.

Lemma first_orderBy_singleton {A} (le : A -> A -> bool) (x : A) :
  first (orderBy le [x]) = Some x.
Proof.
  pose proof (orderBy_Permutation le [x]) as H. symmetry in H.
  apply Permutation_singleton_l in H. by rewrite H.
Qed.


Lemma sameDb_refl s : sameDb s s.
Proof. done. Qed.

Lemma sameDb_trans s1 s2 s3 : sameDb s1 s2 -> sameDb s2 s3 -> sameDb s1 s3.
Proof. intros [? ?] [? ?]. split; congruence. Qed.

Lemma GetAsset_id_sameDb id s : sameDb s (GetAsset_id id s).2.
Proof. unfold GetAsset_id, bind, query. simpl. by destruct (first _). Qed.

Lemma GetAsset_hostName_sameDb h s : sameDb s (GetAsset_hostName h s).2.
Proof. done. Qed.

Lemma GetAsset_sameDb asset s : sameDb s (GetAsset asset s).2.
Proof.
  unfold GetAsset. destruct (Asset_id asset >? 0); [|done].
  unfold bind. pose proof (GetAsset_id_sameDb (Asset_id asset) s) as H.
  destruct (GetAsset_id (Asset_id asset) s) as [a s1]. simpl in H.
  destruct (Asset_id a >? 0); [done|]. done.
Qed.

Lemma GetSTIG_id_sameDb id s : sameDb s (GetSTIG_id id s).2.
Proof. unfold GetSTIG_id, bind, query. simpl. by destruct (first _). Qed.

Lemma GetSTIG_key_sameDb t v r s : sameDb s (GetSTIG_key t v r s).2.
Proof. unfold GetSTIG_key, bind, query. simpl. by destruct (first _). Qed.

Lemma GetSTIG_sameDb stig s : sameDb s (GetSTIG stig s).2.
Proof.
  unfold GetSTIG. destruct (STIG_id stig >? 0); [|apply GetSTIG_key_sameDb].
  unfold bind. pose proof (GetSTIG_id_sameDb (STIG_id stig) s) as H.
  destruct (GetSTIG_id (STIG_id stig) s) as [a s1]. simpl in H.
  destruct (STIG_id a >? 0); [done|].
  eapply sameDb_trans; [exact H|apply GetSTIG_key_sameDb].
Qed.

(** A stored row is found by its id, without a message. *)
Lemma GetAsset_stored asset s :
  asset ∈ rows (tblAsset (db s)) -> 0 < Asset_id asset ->
  exists a, GetAsset asset s = (a, s) /\ Asset_id a = Asset_id asset.
Proof.
  intros Hin Hpos. unfold GetAsset. rewrite (proj2 (Z.gtb_gt _ _)) by lia.
  unfold GetAsset_id, query, GetAssets_where, bind. cbv beta iota zeta.
  edestruct (first_orderBy (fun a b => orderByLower (Asset_hostName a) (Asset_hostName b))
               (selectRows (fun a => Asset_id a =? Asset_id asset) (tblAsset (db s))) asset)
    as (a & -> & Ha).
  { apply elem_of_List_filter. split; [done|]. apply Z.eqb_refl. }
  apply elem_of_List_filter in Ha as [_ Ha]. apply Z.eqb_eq in Ha.
  exists a. simpl. rewrite (proj2 (Z.gtb_gt _ _)) by lia. done.
Qed.

Lemma GetSTIG_id_stored stig s :
  stig ∈ rows (tblSTIG (db s)) ->
  exists a, GetSTIG_id (STIG_id stig) s = (a, s) /\ STIG_id a = STIG_id stig
            /\ a ∈ rows (tblSTIG (db s)).
Proof.
  intros Hin. unfold GetSTIG_id, query, GetSTIGs_where, bind. cbv beta iota zeta.
  edestruct (first_orderBy (fun a b => orderByLower (STIG_title a) (STIG_title b))
               (selectRows (fun a => STIG_id a =? STIG_id stig) (tblSTIG (db s))) stig)
    as (a & -> & Ha).
  { apply elem_of_List_filter. split; [done|]. apply Z.eqb_refl. }
  apply elem_of_List_filter in Ha as [Hr Ha]. apply Z.eqb_eq in Ha.
  by exists a.
Qed.

Lemma GetSTIG_stored stig s :
  stig ∈ rows (tblSTIG (db s)) -> 0 < STIG_id stig ->
  exists a, GetSTIG stig s = (a, s) /\ STIG_id a = STIG_id stig.
Proof.
  intros Hin Hpos. unfold GetSTIG. rewrite (proj2 (Z.gtb_gt _ _)) by lia.
  unfold bind. destruct (GetSTIG_id_stored stig s Hin) as (a & -> & Ha & _).
  exists a. rewrite (proj2 (Z.gtb_gt _ _)) by lia. done.
Qed.

Lemma insertRows_rows {A B} (row : B -> Z -> A) (src : list B) : forall t,
  rows (insertRows row src t)
  = rows t ++ imap (fun i b => row b (sequence t + 1 + Z.of_nat i)) src.
Proof.
  unfold insertRows.
  induction src as [|b src IH]; intros t; simpl; [by rewrite app_nil_r|].
  rewrite IH. simpl. rewrite <- app_assoc. simpl. rewrite Z.add_0_r. do 2 f_equal.
  apply imap_ext. intros i x _. simpl. f_equal. lia.
Qed.

Lemma imap_fmap_const {A B C} (f : nat -> A -> B) (g : B -> C) (h : A -> C) (l : list A) :
  (forall i x, g (f i x) = h x) -> map g (imap f l) = map h l.
Proof.
  revert f. induction l as [|x l IH]; intros f H; simpl; [done|].
  rewrite H. f_equal. apply IH. intros i y. apply H.
Qed.

Lemma imap_Forall {A B} (f : nat -> A -> B) (P : B -> Prop) (l : list A) :
  (forall i x, P (f i x)) -> Forall P (imap f l).
Proof.
  revert f. induction l as [|x l IH]; intros f H; simpl; constructor; [apply H|].
  apply IH. intros i y. apply H.
Qed.

(** Reading a row back keeps its id, its STIG and its rule. *)
Lemma GetSTIGChecks_where_ids (where_ : STIGCheck -> bool) (d : Db) :
  map STIGCheck_id (GetSTIGChecks_where where_ d)
  = map STIGCheck_id (selectRows where_ (tblSTIGCheck d)).
Proof. unfold GetSTIGChecks_where. rewrite map_map. by apply map_ext. Qed.

(** The effect of the calls that pass the check of [tmpAsset.id] and
    [tmpSTIG.id]. *)
Lemma AddSTIGToAsset_with_run ok1 ok2 stig asset s a st s1 s2 :
  GetAsset asset s = (a, s1) -> GetSTIG stig s1 = (st, s2) ->
  AddSTIGToAsset_with ok1 ok2 stig asset s =
    if (Asset_id a >? 0) && (STIG_id st >? 0) then
      if ok1 then
        let linked :=
          setAssetSTIG
            (fst (insertRow (fun id => mkAssetSTIG id (Asset_id a) (STIG_id st))
                            (tblAssetSTIG (db s2)))) (db s2) in
        if ok2 then
          (true,
           mkState
             (setCKLCheck
                (insertRows (CKLCheck_row (Asset_id a))
                   (selectRows (fun sc => STIGCheck_stigId sc =? STIG_id st)
                               (tblSTIGCheck (db s2)))
                   (tblCKLCheck (db s2)))
                linked)
             (delayCommit s2) (notices s2))
        else (false, mkState linked (delayCommit s2) (notices s2))
      else (false, s2)
    else (false, s2).
Proof.
  intros Ha Hs. unfold AddSTIGToAsset_with, bind. rewrite Ha, Hs.
  destruct ((Asset_id a >? 0) && (STIG_id st >? 0)); [|done].
  by destruct ok1, ok2.
Qed.

Lemma AddSTIGToAsset_run stig asset s a st s1 s2 :
  GetAsset asset s = (a, s1) -> GetSTIG stig s1 = (st, s2) ->
  AddSTIGToAsset stig asset s =
    if (Asset_id a >? 0) && (STIG_id st >? 0) then
      (true,
       mkState
         (setCKLCheck
            (insertRows (CKLCheck_row (Asset_id a))
               (selectRows (fun sc => STIGCheck_stigId sc =? STIG_id st) (tblSTIGCheck (db s2)))
               (tblCKLCheck (db s2)))
            (setAssetSTIG
               (fst (insertRow (fun id => mkAssetSTIG id (Asset_id a) (STIG_id st))
                               (tblAssetSTIG (db s2)))) (db s2)))
         (delayCommit s2) (notices s2))
    else (false, s2).
Proof.
  intros Ha Hs. unfold AddSTIGToAsset.
  by rewrite (AddSTIGToAsset_with_run true true stig asset s a st s1 s2 Ha Hs).
Qed.

(** Whatever the outcomes of the two statements, the check results are
    added all together or not at all. *)
Lemma AddSTIGToAsset_all_or_none ok1 ok2 stig asset s :
  let r := AddSTIGToAsset_with ok1 ok2 stig asset s in
  (r.1 = false /\ tblCKLCheck (db r.2) = tblCKLCheck (db s))
  \/ (r.1 = true /\ exists a st new, checksCreated a st (db s) (db r.2) new).
Proof.
  pose proof (GetAsset_sameDb asset s) as H1.
  destruct (GetAsset asset s) as [a s1] eqn:Ha.
  pose proof (GetSTIG_sameDb stig s1) as H2.
  destruct (GetSTIG stig s1) as [st s2] eqn:Hs.
  simpl in H1, H2. destruct H1 as [H1 _], H2 as [H2 _].
  rewrite (AddSTIGToAsset_with_run ok1 ok2 stig asset s a st s1 s2 Ha Hs).
  destruct ((Asset_id a >? 0) && (STIG_id st >? 0)); simpl; [|left; by rewrite H2, H1].
  destruct ok1; simpl; [|left; by rewrite H2, H1].
  destruct ok2; simpl; [|left; by rewrite H2, H1].
  right. split; [done|]. exists a, st. eexists. unfold checksCreated. simpl.
  rewrite insertRows_rows, H2, H1. split; [reflexivity|]. split.
  - unfold GetSTIGChecks. rewrite GetSTIGChecks_where_ids. by apply imap_fmap_const.
  - by apply imap_Forall.
Qed.

(** Claim C3.  Mapping a stored STIG to a stored Asset succeeds, links the
    two and adds exactly one CKLCheck row per STIGCheck of that STIG, each
    for that Asset and not reviewed.  Whatever the arguments and whichever
    of the two statements of the call fails, a call either adds all of
    these rows or leaves the CKLCheck table as it was. *)
Theorem AddSTIGToAsset_creates_checks (s : State) (stig : STIG) (asset : Asset) :
  asset ∈ rows (tblAsset (db s)) -> 0 < Asset_id asset ->
  stig ∈ rows (tblSTIG (db s)) -> 0 < STIG_id stig ->
  (exists s' new,
      AddSTIGToAsset stig asset s = (true, s')
      /\ checksCreated asset stig (db s) (db s') new
      /\ rows (tblAssetSTIG (db s'))
         = rows (tblAssetSTIG (db s))
           ++ [mkAssetSTIG (sequence (tblAssetSTIG (db s)) + 1) (Asset_id asset) (STIG_id stig)])
  /\ (forall ok1 ok2 stig0 asset0 s0,
        let r := AddSTIGToAsset_with ok1 ok2 stig0 asset0 s0 in
        (r.1 = false /\ tblCKLCheck (db r.2) = tblCKLCheck (db s0))
        \/ (r.1 = true /\ exists a st new, checksCreated a st (db s0) (db r.2) new)).
Proof.
  intros Ha Hap Hs Hsp. split; [|intros; apply AddSTIGToAsset_all_or_none].
  destruct (GetAsset_stored asset s Ha Hap) as (a & Hga & Hida).
  destruct (GetSTIG_stored stig s Hs Hsp) as (st & Hgs & Hids).
  rewrite (AddSTIGToAsset_run stig asset s a st s s Hga Hgs).
  rewrite Hida, Hids, !(proj2 (Z.gtb_gt _ _)) by lia. simpl.
  eexists _, _. split; [reflexivity|]. split; [|done]. unfold checksCreated. simpl.
  rewrite insertRows_rows. split; [reflexivity|]. split.
  - unfold GetSTIGChecks. rewrite GetSTIGChecks_where_ids. by apply imap_fmap_const.
  - by apply imap_Forall.
Qed.

Lemma length_pos_elem {A} (l : list A) x : x ∈ l -> (0 <? Z.of_nat (length l)) = true.
Proof. intros H. destruct l; [by apply elem_of_nil in H|]. done. Qed.

(** Claim C4.  Deleting an Asset that has a STIG mapped to it fails: the
    call returns [false], shows the warning "Asset Has Mapped STIGs" and
    leaves every table unchanged. *)
Theorem DeleteAsset_with_STIGs_fails (s : State) (asset : Asset) (link : AssetSTIG) (stig : STIG) :
  link ∈ rows (tblAssetSTIG (db s)) ->
  stig ∈ rows (tblSTIG (db s)) ->
  AssetSTIG_AssetId link = Asset_id asset ->
  AssetSTIG_STIGId link = STIG_id stig ->
  DeleteAsset asset s = (false, warned "Asset Has Mapped STIGs" s)
  /\ db (DeleteAsset asset s).2 = db s.
Proof.
  intros Hl Hs Ha Hst.
  assert (H : DeleteAsset asset s = (false, warned "Asset Has Mapped STIGs" s)); [|by rewrite H].
  unfold DeleteAsset, Asset_STIGs, query, bind. cbv beta iota zeta.
  rewrite (length_pos_elem _ stig); [done|].
  unfold GetSTIGs_Asset, GetSTIGs_where. apply elem_of_orderBy, elem_of_List_filter.
  split; [done|]. apply bool_decide_eq_true, list_elem_of_fmap.
  exists link. split; [done|]. apply elem_of_List_filter. split; [done|]. by apply Z.eqb_eq.
Qed.

Lemma elem_of_flat_map {A B} (f : A -> list B) (l : list A) y :
  y ∈ flat_map f l <-> exists x, x ∈ l /\ y ∈ f x.
Proof.
  rewrite list_elem_of_In, in_flat_map. setoid_rewrite list_elem_of_In. done.
Qed.

(** Claim C5.  Deleting a STIG that is mapped to an Asset fails: the call
    returns [false], shows the warning "STIG In Use" and leaves every table
    unchanged. *)
Theorem DeleteSTIG_in_use_fails (s : State) (stig : STIG) (link : AssetSTIG) (asset : Asset) :
  stig ∈ rows (tblSTIG (db s)) ->
  link ∈ rows (tblAssetSTIG (db s)) ->
  asset ∈ rows (tblAsset (db s)) ->
  AssetSTIG_STIGId link = STIG_id stig ->
  AssetSTIG_AssetId link = Asset_id asset ->
  DeleteSTIG stig s = (false, warned "STIG In Use" s)
  /\ db (DeleteSTIG stig s).2 = db s.
Proof.
  intros Hs Hl Ha Hst Has.
  assert (H : DeleteSTIG stig s = (false, warned "STIG In Use" s)); [|by rewrite H].
  unfold DeleteSTIG, DeleteSTIG_id, bind.
  destruct (GetSTIG_id_stored stig s Hs) as (tmpStig & -> & Hid & Hin).
  unfold STIG_Assets, query. cbv beta iota zeta.
  rewrite (proj2 (Z.gtb_gt _ _)); [done|].
  apply Z.lt_gt, Z.ltb_lt. apply (length_pos_elem _ asset).
  unfold GetAssets_STIG. apply elem_of_orderBy.
  apply elem_of_flat_map. exists asset. split; [done|].
  apply elem_of_flat_map. exists link. split; [done|].
  apply elem_of_flat_map. exists stig. split; [done|].
  rewrite Has, Hst, Hid, !Z.eqb_refl. simpl. by left.
Qed.

Section Duplicates.
Variable Sanitize : QString -> QString.

(** Claim C6, as amended.  A CCI whose number is already stored, and a new
    STIG whose title, version and release are already stored (unless the
    caller asks to add checks to the existing STIG), are rejected: the call
    returns [false], shows a warning and leaves every table unchanged.  A
    Family whose acronym is already stored is rejected by the [UNIQUE]
    constraint: the call returns [false] and leaves the state unchanged. *)
Theorem duplicate_import_rejected (s : State)
    (cci c0 : CCI) (stig s0 : STIG) (checks : list STIGCheck)
    (acronym description : QString) (f0 : Family) :
  (c0 ∈ rows (tblCCI (db s)) -> CCI_cci c0 = CCI_cci cci ->
     AddCCI cci s = ((false, cci), warned "CCI Already Exists" s))
  /\ (s0 ∈ rows (tblSTIG (db s)) ->
      STIG_title s0 = STIG_title stig -> STIG_version s0 = STIG_version stig ->
      STIG_release s0 = STIG_release stig ->
      STIG_id stig <= 0 ->
      (forall x, x ∈ rows (tblSTIG (db s)) -> 0 < STIG_id x) ->
      AddSTIG stig checks false s = (false, warned "STIG Already Exists" s))
  /\ (f0 ∈ rows (tblFamily (db s)) -> Family_acronym f0 = acronym ->
      AddFamily Sanitize acronym description s = (false, s)).
Proof.
  split; [|split].
  - intros Hin Hk. unfold AddCCI, query, bind. cbv beta iota zeta.
    rewrite (length_pos_elem _ c0); [done|].
    apply elem_of_List_filter. split; [done|]. by apply Z.eqb_eq.
  - intros Hin Ht Hv Hr Hid Hpos. unfold AddSTIG.
    rewrite (proj2 (Z.leb_le _ _)) by done.
    unfold GetSTIG_key, query, GetSTIGs_where, bind. cbv beta iota zeta.
    edestruct (first_orderBy (fun a b => orderByLower (STIG_title a) (STIG_title b))
      (selectRows (fun x => bool_decide (STIG_title x = STIG_title stig)
                            && bool_decide (STIG_release x = STIG_release stig)
                            && (STIG_version x =? STIG_version stig)) (tblSTIG (db s))) s0)
      as (tmp & -> & Htmp).
    { apply elem_of_List_filter. split; [done|].
      rewrite !bool_decide_eq_true_2 by done. simpl. by apply Z.eqb_eq. }
    apply elem_of_List_filter in Htmp as [Htmp _]. apply Hpos in Htmp.
    unfold ret. rewrite (proj2 (Z.gtb_gt _ _)) by lia. done.
  - intros Hin Ha. unfold AddFamily.
    rewrite (bool_decide_eq_true_2 (acronym ∈ _)); [done|].
    apply list_elem_of_fmap. by exists f0.
Qed.

End Duplicates.

(** ** Lists and the state monad *)

Lemma filter_none {A} (p : A -> bool) (l : list A) :
  (forall x, x ∈ l -> p x = false) -> List.filter p l = [].
Proof.
  induction l as [|y l IH]; intros H; simpl; [done|].
  rewrite (H y) by left. apply IH. intros x Hx. apply H. by right.
Qed.

(** A unique column selects one row. *)
Lemma filter_unique {A B} `{EqDecision B} (f : A -> B) (l : list A) (x : A) :
  NoDup (map f l) -> x ∈ l -> List.filter (fun y => bool_decide (f y = f x)) l = [x].
Proof.
  induction l as [|y l IH]; simpl; [by intros _ H; apply elem_of_nil in H|].
  rewrite NoDup_cons, elem_of_cons. intros [Hy Hl] [->|Hx].
  - rewrite bool_decide_eq_true_2 by done. f_equal. apply filter_none.
    intros z Hz. apply bool_decide_eq_false_2. intros Heq. apply Hy.
    rewrite <- Heq. apply list_elem_of_fmap. by exists z.
  - rewrite bool_decide_eq_false_2; [by apply IH|].
    intros Heq. apply Hy. rewrite Heq. apply list_elem_of_fmap. by exists x.
Qed.

Lemma filter_andb {A} (p q : A -> bool) (l : list A) :
  List.filter (fun x => p x && q x) l = List.filter q (List.filter p l).
Proof.
  induction l as [|y l IH]; simpl; [done|].
  destruct (p y); simpl; [|done]. destruct (q y); by rewrite IH.
Qed.

Lemma filter_map_commute {A} (p : A -> bool) (g : A -> A) (l : list A) :
  (forall x, p (g x) = p x) -> List.filter p (map g l) = map g (List.filter p l).
Proof.
  intros H. induction l as [|y l IH]; simpl; [done|].
  rewrite H. destruct (p y); simpl; by rewrite IH.
Qed.

Lemma NoDup_fmap_elem {A B} (f : A -> B) (l : list A) x y :
  NoDup (map f l) -> x ∈ l -> y ∈ l -> f x = f y -> x = y.
Proof.
  induction l as [|z l IH]; simpl; [by intros _ H; apply elem_of_nil in H|].
  rewrite NoDup_cons, !elem_of_cons. intros [Hz Hl] [->|Hx] [->|Hy] Heq; try done.
  - destruct Hz. rewrite Heq. apply list_elem_of_fmap. by exists y.
  - destruct Hz. rewrite <- Heq. apply list_elem_of_fmap. by exists x.
  - by apply IH.
Qed.

Lemma bind_run {A B} (m : M A) (k : A -> M B) (s : State) :
  bind m k s = let '(a, s') := m s in k a s'.
Proof. done. Qed.

(** ** The claims on the sample data *)

Import Samples.

(** Decidable facts about the sample data are settled by evaluation. *)
Ltac by_computation :=
  match goal with
  | |- ?P => refine (@bool_decide_unpack P _ _); vm_compute; exact I
  end.

(** Claim C9 on a one-item list: the row of CCI-000015. *)
Lemma reference_rows_are_rev4_sample :
  row_15 ∈ parseFiles sampleDb [item_15]
  /\ exists xmlFile iattrs rattrs,
       xmlFile ∈ [item_15]
       /\ stemsFrom sampleDb xmlFile row_15 iattrs rattrs
       /\ hasAttribute (Q"version") rattrs = true
       /\ hasAttribute (Q"index") rattrs = true
       /\ attributeValue (Q"version") [] rattrs <> []
       /\ attributeValue (Q"index") [] rattrs <> []
       /\ attributeValue (Q"version") [] rattrs = Q"4"
       /\ CCI_cci row_15 = toInt (right 6 (attributeValue (Q"id") [] iattrs)).
Proof.
  assert (H : row_15 ∈ parseFiles sampleDb [item_15]) by (vm_compute; left).
  split; [exact H|]. exact (reference_rows_are_rev4 sampleDb [item_15] row_15 H).
Defined.

(** Claim C9 as stated fails on a list with a [cci_item] that has no id:
    the second reference lies in that item, which has no id attribute to
    read a number from, and its row is stored under the number of the item
    before it, 15. *)
Lemma idless_item_takes_earlier_number :
  map fst (referencesOf None (item_15 ++ item_noid)) = [Some [(Q"id", Q"CCI-000015")]; Some []]
  /\ hasAttribute (Q"id") [] = false
  /\ map (fun c => (CCI_cci c, CCI_definition c)) (parseFiles sampleDb [item_15 ++ item_noid])
     = [(15, Q"A definition."); (15, Q"Another definition.")]
  /\ map CCI_cci (parseFiles sampleDb [item_noid]) = [].
Proof. by vm_compute. Qed.

(** Claim C8 as stated fails on a list that is broken between two items:
    the second item is well formed and would be imported on its own, yet
    nothing of it is read. *)
Lemma parse_error_skips_rest_of_list :
  map CCI_cci (parseFiles sampleDb [brokenList]) = [15]
  /\ map CCI_cci (parseFiles sampleDb [item_366]) = [366]
  /\ map CCI_cci (parseFiles sampleDb [item_15 ++ item_366]) = [15; 366]
  /\ 366 ∉ map CCI_cci (parseFiles sampleDb [brokenList]).
Proof.
  assert (H : map CCI_cci (parseFiles sampleDb [brokenList]) = [15]) by (by vm_compute).
  split; [exact H|]. split; [by vm_compute|]. split; [by vm_compute|].
  rewrite H. by intros [=]%list_elem_of_singleton.
Qed.

(** Claim C1 on the sample report: CCI-000366 has an open check. *)
Lemma report_partitions_by_pass_fail_sample :
  emittedWith (Q"Non-Compliant") sampleReport 366
  /\ ~ emittedWith (Q"Compliant") sampleReport 366.
Proof.
  destruct (report_partitions_by_pass_fail cciOf CCI_cci controlOf PrintControl
              (fun s => s) (fun l => l) printCheck printCheck
              (Q"03-Nov-2019") (Q"tester") (fun c c' => iff_refl _)
              [reviewed_1; reviewed_2] (GetCCIs sampleDb) 366) as (H1 & _ & H3 & _).
  assert (E : emittedWith (Q"Non-Compliant") sampleReport 366).
  { apply H1. exists reviewed_2. split; [by_computation|]. split; reflexivity. }
  split; [exact E|]. intros Hc. by apply H3.
Defined.

(** Claim C10 on the sample report: CCI-001084 has imported results and no
    check. *)
Lemma imported_CCI_has_one_row_sample :
  rowCount sampleReport 1084 = 1%nat.
Proof.
  refine (proj1 (imported_CCI_has_one_row cciOf CCI_cci controlOf PrintControl
                   (fun s => s) (fun l => l) printCheck printCheck
                   (Q"03-Nov-2019") (Q"tester") (fun c c' => iff_refl _)
                   [reviewed_1; reviewed_2] (GetCCIs sampleDb) cci_1084 _ _ _)).
  - by_computation.
  - by_computation.
  - reflexivity.
Defined.

(** Claim C3 on the sample database. *)
Lemma AddSTIGToAsset_creates_checks_sample :
  exists s' new,
    AddSTIGToAsset stig_win10 asset_TEST sampleState = (true, s')
    /\ checksCreated asset_TEST stig_win10 (db sampleState) (db s') new
    /\ rows (tblAssetSTIG (db s')) = [link_1].
Proof.
  refine (proj1 (AddSTIGToAsset_creates_checks sampleState stig_win10 asset_TEST _ _ _ _)).
  - by_computation.
  - reflexivity.
  - by_computation.
  - reflexivity.
Defined.

(** Claim C4 on the sample database, once the STIG is mapped. *)
Lemma DeleteAsset_with_STIGs_fails_sample :
  DeleteAsset asset_TEST mappedState = (false, warned "Asset Has Mapped STIGs" mappedState)
  /\ db (DeleteAsset asset_TEST mappedState).2 = db mappedState.
Proof.
  apply (DeleteAsset_with_STIGs_fails mappedState asset_TEST link_1 stig_win10).
  - by_computation.
  - by_computation.
  - reflexivity.
  - reflexivity.
Defined.

(** Claim C5 on the sample database, once the STIG is mapped. *)
Lemma DeleteSTIG_in_use_fails_sample :
  DeleteSTIG stig_win10 mappedState = (false, warned "STIG In Use" mappedState)
  /\ db (DeleteSTIG stig_win10 mappedState).2 = db mappedState.
Proof.
  apply (DeleteSTIG_in_use_fails mappedState stig_win10 link_1 asset_TEST).
  - by_computation.
  - by_computation.
  - by_computation.
  - reflexivity.
  - reflexivity.
Defined.

(** The amended claim C6 on the sample database: CCI-000015, the Windows 10
    STIG and the family AC are there already. *)
Lemma duplicate_import_rejected_sample :
  AddCCI row_15 sampleState = ((false, row_15), warned "CCI Already Exists" sampleState)
  /\ AddSTIG (mkSTIG (-1) (Q"Windows 10") [] (Q"Release: 19") 1 [] []) [check_1] false sampleState
     = (false, warned "STIG Already Exists" sampleState)
  /\ AddFamily (fun s => s) (Q"AC") (Q"Access Control (again)") sampleState
     = (false, sampleState).
Proof.
  destruct (duplicate_import_rejected (fun s => s) sampleState row_15 cci_15
              (mkSTIG (-1) (Q"Windows 10") [] (Q"Release: 19") 1 [] []) stig_win10 [check_1]
              (Q"AC") (Q"Access Control (again)") family_AC) as (H1 & H2 & H3).
  split; [|split].
  - apply H1; [|reflexivity]. by_computation.
  - apply H2; try reflexivity.
    + by_computation.
    + by vm_compute.
    + intros x Hx. apply list_elem_of_singleton in Hx as ->. reflexivity.
  - apply H3; [|reflexivity]. by_computation.
Defined.

(** Claim C6 as stated fails for a Family: the duplicate is refused, but no
    warning is shown. *)
Lemma duplicate_Family_shows_no_warning :
  family_AC ∈ rows (tblFamily (db sampleState))
  /\ (AddFamily (fun s => s) (Q"AC") (Q"Access Control") sampleState).1 = false
  /\ notices (AddFamily (fun s => s) (Q"AC") (Q"Access Control") sampleState).2
     = notices sampleState.
Proof. split; [by left|]. by vm_compute. Qed.

(** * Further properties of the code *)

(** ** Assets *)

Lemma orderBy_nil {A} (le : A -> A -> bool) : orderBy le [] = [].
Proof.
  pose proof (orderBy_Permutation le []) as H. symmetry in H.
  by apply Permutation_nil_l in H.
Qed.

Lemma filter_snoc_only {A} (p : A -> bool) (l : list A) (x : A) :
  (forall y, y ∈ l -> p y = false) -> p x = true -> List.filter p (l ++ [x]) = [x].
Proof.
  intros Hl Hx. rewrite List.filter_app, (filter_none p l Hl). simpl. by rewrite Hx.
Qed.

(** The run of [AddAsset] on a host name that is not stored. *)
Lemma AddAsset_new (s : State) (asset : Asset) :
  Asset_hostName asset ∉ map Asset_hostName (rows (tblAsset (db s))) ->
  let a := mkAsset (sequence (tblAsset (db s)) + 1) (Asset_assetType asset)
                   (Asset_hostName asset) (Asset_hostIP asset) (Asset_hostMAC asset)
                   (Asset_hostFQDN asset) (Asset_techArea asset) (Asset_targetKey asset)
                   (Asset_webOrDB asset) (Asset_webDbSite asset) (Asset_webDbInstance asset) in
  (forall y, y ∈ rows (tblAsset (db s)) ->
     bool_decide (Asset_hostName y = Asset_hostName asset) = false)
  /\ exists s',
       AddAsset asset s = ((true, a), s')
       /\ rows (tblAsset (db s')) = rows (tblAsset (db s)) ++ [a]
       /\ notices s' = notices s.
Proof.
  intros Hnew a.
  assert (Hnone : forall y, y ∈ rows (tblAsset (db s)) ->
            bool_decide (Asset_hostName y = Asset_hostName asset) = false).
  { intros y Hy. apply bool_decide_eq_false_2. intros Heq. apply Hnew.
    rewrite <- Heq. apply list_elem_of_fmap. by exists y. }
  split; [exact Hnone|].
  unfold AddAsset. rewrite bind_run. unfold query, selectRows.
  rewrite (filter_none _ _ Hnone). simpl.
  eexists. split; [reflexivity|]. by simpl.
Qed.

(** Property X1.  An Asset whose host name is not stored yet is added
    without a message: it gets the next id, its other fields are stored as
    given, and looking the host name up afterwards returns it. *)
Theorem AddAsset_then_GetAsset (s : State) (asset : Asset) :
  Asset_hostName asset ∉ map Asset_hostName (rows (tblAsset (db s))) ->
  exists a s',
    AddAsset asset s = ((true, a), s')
    /\ a = mkAsset (sequence (tblAsset (db s)) + 1) (Asset_assetType asset)
                   (Asset_hostName asset) (Asset_hostIP asset) (Asset_hostMAC asset)
                   (Asset_hostFQDN asset) (Asset_techArea asset) (Asset_targetKey asset)
                   (Asset_webOrDB asset) (Asset_webDbSite asset) (Asset_webDbInstance asset)
    /\ rows (tblAsset (db s')) = rows (tblAsset (db s)) ++ [a]
    /\ notices s' = notices s
    /\ GetAsset_hostName (Asset_hostName asset) s' = (a, s').
Proof.
  intros Hnew. destruct (AddAsset_new s asset Hnew) as (Hnone & s' & Hrun & Hrows & Hn).
  eexists _, s'. split; [exact Hrun|]. split; [reflexivity|].
  split; [exact Hrows|]. split; [exact Hn|].
  unfold GetAsset_hostName, query, GetAssets_where, selectRows. rewrite Hrows.
  rewrite filter_snoc_only; [|exact Hnone|by apply bool_decide_eq_true_2].
  by rewrite first_orderBy_singleton.
Qed.

(** Property X2.  Host names stay unique: [AddAsset] keeps a table without
    repeated host names that way, and an Asset whose host name is stored
    already is refused with the warning "Asset Already Exists", nothing
    being changed. *)
Theorem AddAsset_keeps_hostNames_unique (s : State) (asset : Asset) :
  NoDup (map Asset_hostName (rows (tblAsset (db s)))) ->
  NoDup (map Asset_hostName (rows (tblAsset (db (AddAsset asset s).2))))
  /\ (Asset_hostName asset ∈ map Asset_hostName (rows (tblAsset (db s))) ->
      AddAsset asset s = ((false, asset), warned "Asset Already Exists" s)).
Proof.
  intros Hnd.
  destruct (decide (Asset_hostName asset ∈ map Asset_hostName (rows (tblAsset (db s)))))
    as [Hin|Hnew].
  - assert (Hrun : AddAsset asset s = ((false, asset), warned "Asset Already Exists" s)).
    { unfold AddAsset. rewrite bind_run. unfold query. cbv beta iota zeta.
      apply list_elem_of_fmap in Hin as (y & Hy & Hin).
      erewrite length_pos_elem; [done|].
      apply elem_of_List_filter. split; [exact Hin|]. by apply bool_decide_eq_true_2. }
    split; [by rewrite Hrun|done].
  - destruct (AddAsset_new s asset Hnew) as (_ & s' & -> & Hrows & _).
    split; [|done]. simpl. rewrite Hrows, map_app. apply NoDup_app.
    split; [done|]. split; [|apply NoDup_singleton].
    intros x Hx. simpl. rewrite list_elem_of_singleton. by intros ->.
Qed.

(** ** Reference data *)

(** The first row of an ordered selection: a selected row, when there is one. *)
Lemma first_select {A} (le : A -> A -> bool) (p : A -> bool) (l : list A) :
  match first (orderBy le (List.filter p l)) with
  | Some x => x ∈ l /\ p x = true
  | None => forall x, x ∈ l -> p x = false
  end.
Proof.
  destruct (first (orderBy le (List.filter p l))) as [x|] eqn:E.
  - apply elem_of_List_filter, (elem_of_orderBy le).
    destruct (orderBy le (List.filter p l)); [done|]. simpl in E. injection E as ->. by left.
  - intros x Hx. destruct (p x) eqn:Hp; [|done].
    assert (Hin : x ∈ orderBy le (List.filter p l)).
    { apply elem_of_orderBy, elem_of_List_filter. done. }
    destruct (orderBy le (List.filter p l)); [by apply elem_of_nil in Hin|done].
Qed.

Lemma number_absent (cci : Z) (l : list CCI) :
  (forall x, x ∈ l -> (CCI_cci x =? cci) = false) <-> cci ∉ map CCI_cci l.
Proof.
  rewrite list_elem_of_fmap. split.
  - intros H (x & -> & Hx). specialize (H x Hx). by rewrite Z.eqb_refl in H.
  - intros H x Hx. apply Z.eqb_neq. intros <-. apply H. by exists x.
Qed.

(** Property X3.  Looking a CCI up by its number returns the stored CCI
    of that number, without a message.  When there is none, the warning
    "Broken CCI" is shown and the lookup falls back to CCI-000366: the
    stored CCI 366 when there is one, a default CCI otherwise. *)
Theorem GetCCIByCCI_remaps_to_366 (s : State) (cci : Z) (stig : option STIG) :
  let r := GetCCIByCCI cci stig s in
  (exists c, c ∈ rows (tblCCI (db s)) /\ CCI_cci c = cci /\ r = (c, s))
  \/ ((cci ∉ map CCI_cci (rows (tblCCI (db s))))
      /\ r.2 = warned "Broken CCI" s
      /\ ((exists c, c ∈ rows (tblCCI (db s)) /\ CCI_cci c = 366 /\ r.1 = c)
          \/ ((366 ∉ map CCI_cci (rows (tblCCI (db s)))) /\ r.1 = CCI_default))).
Proof.
  unfold GetCCIByCCI, bind, query, Warning, ret, GetCCIs_where, selectRows.
  cbv beta iota zeta.
  pose proof (first_select (fun a b => CCI_cci a <=? CCI_cci b)
                (fun c => CCI_cci c =? cci) (rows (tblCCI (db s)))) as H.
  destruct (first _) as [c|].
  - left. exists c. destruct H as [Hin Hc]. apply Z.eqb_eq in Hc. done.
  - right. apply number_absent in H. split; [exact H|].
    cbv beta iota zeta. simpl db.
    pose proof (first_select (fun a b => CCI_cci a <=? CCI_cci b)
                  (fun c => CCI_cci c =? 366) (rows (tblCCI (db s)))) as H'.
    destruct (first _) as [c|].
    + split; [done|]. left. exists c. destruct H' as [Hin Hc]. apply Z.eqb_eq in Hc. done.
    + split; [done|]. right. by apply number_absent in H'.
Qed.

(** *** The stored CCI numbers *)


Lemma AddCCI_db (c : CCI) (s : State) :
  let s' := (AddCCI c s).2 in
  delayCommit s' = delayCommit s
  /\ (if bool_decide (CCI_cci c ∈ map CCI_cci (rows (tblCCI (db s))))
      then db s' = db s
      else db s' = setCCI (mkTable (rows (tblCCI (db s)) ++ [newCCIRow (sequence (tblCCI (db s))) c])
                                   (sequence (tblCCI (db s)) + 1)) (db s)).
Proof.
  unfold AddCCI. rewrite bind_run. unfold query, selectRows. cbv beta iota zeta.
  case_bool_decide as Hin.
  - apply list_elem_of_fmap in Hin as (y & Hy & Hin).
    erewrite length_pos_elem; [done|].
    apply elem_of_List_filter. split; [exact Hin|]. apply Z.eqb_eq. done.
  - rewrite (filter_none _ _ (proj2 (number_absent _ _) Hin)). simpl. done.
Qed.

Lemma AddCCI_NoDup (c : CCI) (s : State) :
  NoDup (map CCI_cci (rows (tblCCI (db s)))) ->
  NoDup (map CCI_cci (rows (tblCCI (db (AddCCI c s).2)))).
Proof.
  intros Hnd. destruct (AddCCI_db c s) as [_ H]. case_bool_decide as Hin.
  - by rewrite H.
  - rewrite H. simpl. rewrite map_app. apply NoDup_app. split; [done|].
    split; [|apply NoDup_singleton].
    intros x Hx. simpl. rewrite list_elem_of_singleton. by intros ->.
Qed.

(** The loop of step 7, run on the rows gathered in [toAdd]. *)
Lemma addCCIs_fold_spec (toAdd : list CCI) : forall (acc : M unit) (s : State),
  let s0 := (acc s).2 in
  let s' := (fold_left (fun (acc : M unit) c => bind acc (fun _ => bind (AddCCI c) (fun _ => ret tt)))
                       toAdd acc s).2 in
  NoDup (map CCI_cci (rows (tblCCI (db s0)))) ->
  NoDup (map CCI_cci (rows (tblCCI (db s'))))
  /\ delayCommit s' = delayCommit s0
  /\ exists new,
       rows (tblCCI (db s')) = rows (tblCCI (db s0)) ++ new
       /\ Forall (fun r => exists c, c ∈ toAdd /\ exists id, r = mkCCI id (CCI_controlId c) (CCI_cci c) (CCI_definition c) false [] [] [] []) new
       /\ forall pre c post,
            toAdd = pre ++ c :: post ->
            CCI_cci c ∉ map CCI_cci pre ->
            CCI_cci c ∉ map CCI_cci (rows (tblCCI (db s0))) ->
            exists id, mkCCI id (CCI_controlId c) (CCI_cci c) (CCI_definition c) false [] [] [] []
                       ∈ new.
Proof.
  induction toAdd as [|c toAdd IH]; intros acc s; cbv zeta.
  - intros Hnd. simpl. split; [done|]. split; [done|]. exists []. rewrite app_nil_r.
    split; [done|]. split; [done|]. intros [|??] ???; done.
  - intros Hnd. simpl fold_left.
    specialize (IH (bind acc (fun _ => bind (AddCCI c) (fun _ => ret tt))) s).
    cbv zeta in IH.
    assert (Hstep : (bind acc (fun _ => bind (AddCCI c) (fun _ => ret tt)) s).2
                    = (AddCCI c (acc s).2).2).
    { rewrite bind_run. destruct (acc s) as [[] s1]. rewrite bind_run. simpl.
      by destruct (AddCCI c s1) as [? ?]. }
    rewrite Hstep in IH.
    destruct (IH (AddCCI_NoDup c _ Hnd)) as (Hnd' & Hdc & new & Hrows & Hnew & Hfirst).
    destruct (AddCCI_db c (acc s).2) as [Hdc1 Hdb].
    split; [done|]. split; [congruence|].
    case_bool_decide as Hin.
    + rewrite Hdb in Hrows. exists new. split; [done|]. split.
      { eapply Forall_impl; [exact Hnew|]. intros r (c' & Hc' & Hr). exists c'. split; [by right|done]. }
      intros pre c' post Heq Hpre Hstored. destruct pre as [|c0 pre]; simpl in Heq.
      * injection Heq as -> ->. done.
      * injection Heq as -> ->. apply (Hfirst pre c' post); [done| |by rewrite Hdb].
        intros H. apply Hpre. simpl. by right.
    + rewrite Hdb in Hrows. simpl in Hrows.
      exists (newCCIRow (sequence (tblCCI (db (acc s).2))) c :: new).
      split; [by rewrite Hrows, <- app_assoc|]. split.
      { constructor.
        - exists c. split; [by left|]. by eexists.
        - eapply Forall_impl; [exact Hnew|]. intros r (c' & Hc' & Hr). exists c'.
          split; [by right|done]. }
      intros pre c' post Heq Hpre Hstored. destruct pre as [|c0 pre]; simpl in Heq.
      * injection Heq as -> ->. eexists. left.
      * injection Heq as -> ->.
        destruct (Hfirst pre c' post) as (id & Hid); [done| | |].
        { intros H. apply Hpre. simpl. by right. }
        { rewrite Hdb. simpl. rewrite map_app, elem_of_app. intros [H|H]; [done|].
          simpl in H. apply list_elem_of_singleton in H. apply Hpre. simpl. rewrite H. left. }
        exists id. by right.
Qed.

Lemma importCCIs_run (xmlFiles : list (list Token)) (s : State) :
  (importCCIs xmlFiles s).2
  = let s1 := (fold_left (fun (acc : M unit) c => bind acc (fun _ => bind (AddCCI c) (fun _ => ret tt)))
                 (parseFiles (db s) xmlFiles) (ret tt)
                 (mkState (db s) true (notices s))).2 in
    mkState (db s1) false (notices s1).
Proof.
  unfold importCCIs, addCCIs, DelayCommit, query.
  repeat (rewrite bind_run; cbv beta iota zeta). simpl db. simpl notices.
  match goal with
  | |- context [fold_left ?f ?l ?a ?x] => by destruct (fold_left f l a x) as [[] s1]
  end.
Qed.

(** Property X4.  Step 7 of the CCI import, which adds the gathered CCIs,
    keeps the CCI numbers of the table distinct, leaves the database in
    immediate-commit mode, and only appends rows, each built from one of
    the gathered rows. *)
Theorem importCCIs_keeps_numbers_unique (xmlFiles : list (list Token)) (s : State) :
  NoDup (map CCI_cci (rows (tblCCI (db s)))) ->
  let s' := (importCCIs xmlFiles s).2 in
  NoDup (map CCI_cci (rows (tblCCI (db s'))))
  /\ delayCommit s' = false
  /\ exists new,
       rows (tblCCI (db s')) = rows (tblCCI (db s)) ++ new
       /\ Forall (fun r => exists c id,
                    c ∈ parseFiles (db s) xmlFiles
                    /\ r = mkCCI id (CCI_controlId c) (CCI_cci c) (CCI_definition c)
                                 false [] [] [] []) new.
Proof.
  intros Hnd. cbv zeta. rewrite importCCIs_run. cbv zeta. simpl.
  destruct (addCCIs_fold_spec (parseFiles (db s) xmlFiles) (ret tt)
              (mkState (db s) true (notices s)) Hnd) as (Hnd' & _ & new & Hrows & Hnew & _).
  split; [done|]. split; [done|]. exists new. split; [done|].
  eapply Forall_impl; [exact Hnew|]. intros r (c & Hc & id & ->). by exists c, id.
Qed.

(** Property X5.  When a new CCI number is gathered more than once, the
    row stored is the one built from its first occurrence: after the import
    the table holds exactly one row of that number, with the control and
    the definition of the first gathered row. *)
Theorem first_reference_of_a_CCI_wins (xmlFiles : list (list Token)) (s : State)
    (pre post : list CCI) (c : CCI) :
  NoDup (map CCI_cci (rows (tblCCI (db s)))) ->
  parseFiles (db s) xmlFiles = pre ++ c :: post ->
  CCI_cci c ∉ map CCI_cci pre ->
  CCI_cci c ∉ map CCI_cci (rows (tblCCI (db s))) ->
  exists id,
    List.filter (fun r => CCI_cci r =? CCI_cci c) (rows (tblCCI (db (importCCIs xmlFiles s).2)))
    = [mkCCI id (CCI_controlId c) (CCI_cci c) (CCI_definition c) false [] [] [] []].
Proof.
  intros Hnd Heq Hpre Hstored. rewrite importCCIs_run. cbv zeta. simpl.
  destruct (addCCIs_fold_spec (parseFiles (db s) xmlFiles) (ret tt)
              (mkState (db s) true (notices s)) Hnd) as (Hnd' & _ & new & Hrows & _ & Hfirst).
  destruct (Hfirst pre c post Heq Hpre Hstored) as (id & Hid).
  exists id. simpl in *.
  set (r := mkCCI id (CCI_controlId c) (CCI_cci c) (CCI_definition c) false [] [] [] []) in *.
  assert (Hin : r ∈ rows (tblCCI (db (fold_left
             (fun (acc : M unit) c => bind acc (fun _ => bind (AddCCI c) (fun _ => ret tt)))
             (parseFiles (db s) xmlFiles) (ret tt) (mkState (db s) true (notices s))).2))).
  { rewrite Hrows. apply elem_of_app. by right. }
  rewrite <- (filter_unique CCI_cci _ r Hnd' Hin).
  apply filter_ext_in. intros x _. simpl.
  destruct (Z.eqb_spec (CCI_cci x) (CCI_cci c)).
  - by rewrite bool_decide_eq_true_2.
  - by rewrite bool_decide_eq_false_2.
Qed.

(** ** Check results *)

Lemma head_filter {A} (p : A -> bool) (l : list A) :
  match head (List.filter p l) with
  | Some x => x ∈ l /\ p x = true
  | None => forall x, x ∈ l -> p x = false
  end.
Proof.
  induction l as [|y l IH]; simpl; [by intros x Hx; apply elem_of_nil in Hx|].
  destruct (p y) eqn:Hy; simpl.
  - split; [by left|done].
  - destruct (head (List.filter p l)) as [x|].
    + destruct IH. split; [by right|done].
    + intros x Hx. apply elem_of_cons in Hx as [->|Hx]; [done|by apply IH].
Qed.

(** Property X6.  [UpdateCKLCheck] changes no identity: the ids, Assets and
    STIG checks of the stored rows are as before, and nothing is shown.  A
    check that matches a stored row (by id when its id is positive, by
    Asset and STIG check otherwise) reads back afterwards with the status,
    finding details, comments, severity override and justification it was
    updated with. *)
Theorem UpdateCKLCheck_then_GetCKLCheck (s : State) (check r : CKLCheck) :
  r ∈ rows (tblCKLCheck (db s)) ->
  (if CKLCheck_id check >? 0 then CKLCheck_id r = CKLCheck_id check
   else CKLCheck_assetId r = CKLCheck_assetId check
        /\ CKLCheck_stigCheckId r = CKLCheck_stigCheckId check) ->
  let s' := (UpdateCKLCheck check s).2 in
  map (fun c => (CKLCheck_id c, CKLCheck_assetId c, CKLCheck_stigCheckId c))
      (rows (tblCKLCheck (db s')))
  = map (fun c => (CKLCheck_id c, CKLCheck_assetId c, CKLCheck_stigCheckId c))
        (rows (tblCKLCheck (db s)))
  /\ notices s' = notices s
  /\ exists r',
       GetCKLCheck check s' = (r', s')
       /\ r' ∈ rows (tblCKLCheck (db s'))
       /\ CKLCheck_status r' = CKLCheck_status check
       /\ CKLCheck_findingDetails r' = CKLCheck_findingDetails check
       /\ CKLCheck_comments r' = CKLCheck_comments check
       /\ CKLCheck_severityOverride r' = CKLCheck_severityOverride check
       /\ CKLCheck_severityJustification r' = CKLCheck_severityJustification check.
Proof.
  intros Hr Hsel. cbv zeta.
  unfold UpdateCKLCheck. rewrite bind_run. unfold exec, ret. cbv beta iota zeta. simpl.
  split.
  { rewrite map_map. apply map_ext. intros c.
    repeat match goal with |- context [if ?b then _ else _] => destruct b end; done. }
  split; [done|].
  unfold GetCKLCheck. rewrite bind_run. unfold query, GetCKLChecks_where, selectRows.
  cbv beta iota zeta. simpl.
  match goal with |- context [first (List.filter ?p ?l)] =>
    pose proof (head_filter p l) as H; unfold first; destruct (head (List.filter p l)) as [r'|]
  end.
  - exists r'. split; [done|]. destruct H as [Hin Hp]. split; [exact Hin|].
    apply list_elem_of_fmap in Hin as (r0 & -> & Hin0).
    destruct (CKLCheck_id check >? 0) eqn:Hid.
    + rewrite (proj2 (Z.leb_gt _ _)) in Hp by (apply Z.gtb_gt in Hid; lia).
      destruct (CKLCheck_id r0 =? CKLCheck_id check) eqn:E; [done|].
      by rewrite E in Hp.
    + rewrite (proj2 (Z.leb_le _ _)) in Hp by (rewrite Z.gtb_ltb in Hid; apply Z.ltb_ge in Hid; lia).
      destruct ((CKLCheck_assetId r0 =? CKLCheck_assetId check)
                && (CKLCheck_stigCheckId r0 =? CKLCheck_stigCheckId check)) eqn:E; [done|].
      by rewrite E in Hp.
  - exfalso.
    set (upd := fun r0 : CKLCheck => _) in H.
    specialize (H (upd r)). 
    assert (Hin : upd r ∈ map upd (rows (tblCKLCheck (db s)))).
    { apply list_elem_of_fmap. by exists r. }
    specialize (H Hin). unfold upd in H.
    destruct (CKLCheck_id check >? 0) eqn:Hid.
    + rewrite (proj2 (Z.leb_gt _ _)) in H by (apply Z.gtb_gt in Hid; lia).
      rewrite Hsel, Z.eqb_refl in H. simpl in H. by rewrite Z.eqb_refl in H.
    + rewrite (proj2 (Z.leb_le _ _)) in H by (rewrite Z.gtb_ltb in Hid; apply Z.ltb_ge in Hid; lia).
      destruct Hsel as [Ha Hc]. rewrite Ha, Hc, !Z.eqb_refl in H. simpl in H.
      by try rewrite !Z.eqb_refl in H.
Qed.

Lemma nil_no_elem {A} (l : list A) : (forall x, x ∉ l) -> l = [].
Proof. destruct l as [|x l]; [done|]. intros H. destruct (H x). by left. Qed.

(** ** Deleting STIGs *)

(** No link to the STIG: no Asset uses it. *)
Lemma GetAssets_STIG_unlinked (stig : STIG) (d : Db) :
  (forall l, l ∈ rows (tblAssetSTIG d) -> AssetSTIG_STIGId l <> STIG_id stig) ->
  GetAssets_STIG stig d = [].
Proof.
  intros H. unfold GetAssets_STIG.
  rewrite (nil_no_elem (flat_map _ _)); [apply orderBy_nil|].
  intros a Ha. apply elem_of_flat_map in Ha as (a' & _ & Ha).
  apply elem_of_flat_map in Ha as (l & Hl & Ha).
  apply elem_of_flat_map in Ha as (st & _ & Ha).
  destruct (_ && _) eqn:E; [|by apply elem_of_nil in Ha].
  apply andb_true_iff in E as [E E3]. apply andb_true_iff in E as [E1 E2].
  apply Z.eqb_eq in E2, E3. apply (H l Hl). congruence.
Qed.

Lemma DeleteSTIG_run (stig : STIG) (s : State) :
  stig ∈ rows (tblSTIG (db s)) ->
  (forall l, l ∈ rows (tblAssetSTIG (db s)) -> AssetSTIG_STIGId l <> STIG_id stig) ->
  DeleteSTIG stig s
  = (true,
     mkState
       (setSTIG (deleteRows (fun x => STIG_id x =? STIG_id stig) (tblSTIG (db s)))
          (setSTIGCheck
             (deleteRows (fun c => STIGCheck_stigId c =? STIG_id stig) (tblSTIGCheck (db s)))
             (db s)))
       (delayCommit s) (notices s)).
Proof.
  intros Hin Hfree. unfold DeleteSTIG, DeleteSTIG_id. rewrite bind_run.
  destruct (GetSTIG_id_stored stig s Hin) as (st & -> & Hid & _).
  rewrite bind_run. unfold STIG_Assets, query. cbv beta iota zeta.
  rewrite GetAssets_STIG_unlinked by (by rewrite Hid). simpl.
  done.
Qed.

(** Property X7.  Deleting a stored STIG that no Asset is mapped to
    succeeds without a message, removes the STIG and every STIG check of
    it, and leaves the Assets, the links, the checklist rows and the CCIs
    alone. *)
Theorem DeleteSTIG_unused_removes_checks (s : State) (stig : STIG) :
  stig ∈ rows (tblSTIG (db s)) ->
  (forall l, l ∈ rows (tblAssetSTIG (db s)) -> AssetSTIG_STIGId l <> STIG_id stig) ->
  exists s',
    DeleteSTIG stig s = (true, s')
    /\ notices s' = notices s
    /\ rows (tblSTIG (db s'))
       = List.filter (fun x => negb (STIG_id x =? STIG_id stig)) (rows (tblSTIG (db s)))
    /\ rows (tblSTIGCheck (db s'))
       = List.filter (fun c => negb (STIGCheck_stigId c =? STIG_id stig))
                     (rows (tblSTIGCheck (db s)))
    /\ GetSTIGChecks stig (db s') = []
    /\ tblAsset (db s') = tblAsset (db s)
    /\ tblAssetSTIG (db s') = tblAssetSTIG (db s)
    /\ tblCKLCheck (db s') = tblCKLCheck (db s)
    /\ tblCCI (db s') = tblCCI (db s).
Proof.
  intros Hin Hfree. eexists. split; [by apply DeleteSTIG_run|]. simpl.
  repeat (split; [done|]). split; [|done].
  unfold GetSTIGChecks, GetSTIGChecks_where, selectRows. simpl.
  rewrite filter_none; [done|]. intros c Hc. apply elem_of_List_filter in Hc as [_ Hc].
  by apply negb_true_iff in Hc.
Qed.

(** ** Sequences of operations *)

(** A loop that runs [step] on every element, as a fold over the states. *)
Lemma fold_bind_state {X} (step : X -> M unit) (l : list X) : forall (acc : M unit) (s : State),
  (fold_left (fun (acc : M unit) x => bind acc (fun _ => step x)) l acc s).2
  = fold_left (fun st x => (step x st).2) l (acc s).2.
Proof.
  induction l as [|x l IH]; intros acc s; simpl; [done|].
  rewrite IH. f_equal. rewrite bind_run. by destruct (acc s).
Qed.

Lemma filter_all {A} (p : A -> bool) (l : list A) :
  (forall x, x ∈ l -> p x = true) -> List.filter p l = l.
Proof.
  induction l as [|y l IH]; intros H; simpl; [done|].
  rewrite (H y) by left. f_equal. apply IH. intros x Hx. apply H. by right.
Qed.

Lemma filter_filter {A} (p q : A -> bool) (l : list A) :
  List.filter p (List.filter q l) = List.filter (fun x => q x && p x) l.
Proof.
  induction l as [|y l IH]; simpl; [done|].
  destruct (q y); simpl; [|done]. destruct (p y); by rewrite IH.
Qed.

(** ** Mapping and unmapping a STIG *)


Lemma DeleteSTIGFromAsset_stored (stig : STIG) (asset : Asset) (s : State) :
  stig ∈ rows (tblSTIG (db s)) -> 0 < STIG_id stig ->
  asset ∈ rows (tblAsset (db s)) -> 0 < Asset_id asset ->
  DeleteSTIGFromAsset stig asset s
  = (true, mkState (unmapped (Asset_id asset) (STIG_id stig) (db s)) (delayCommit s) (notices s)).
Proof.
  intros Hs Hsp Ha Hap. unfold DeleteSTIGFromAsset. rewrite bind_run.
  destruct (GetSTIG_stored stig s Hs Hsp) as (st & -> & Hst).
  rewrite bind_run.
  destruct (GetAsset_stored asset s Ha Hap) as (a & -> & Hida).
  rewrite Hst, Hida, !(proj2 (Z.gtb_gt _ _)) by lia. simpl.
  done.
Qed.

(** Property X8.  Mapping a STIG to an Asset and unmapping it again
    restores the links and the checklist rows; the other tables and the
    messages are untouched.  The Asset and the STIG are stored with
    positive ids, are not mapped yet, and the Asset has no checklist rows
    of the STIG. *)
Theorem AddSTIGToAsset_then_DeleteSTIGFromAsset (s : State) (stig : STIG) (asset : Asset) :
  asset ∈ rows (tblAsset (db s)) -> 0 < Asset_id asset ->
  stig ∈ rows (tblSTIG (db s)) -> 0 < STIG_id stig ->
  (forall l, l ∈ rows (tblAssetSTIG (db s)) ->
     ~ (AssetSTIG_AssetId l = Asset_id asset /\ AssetSTIG_STIGId l = STIG_id stig)) ->
  GetCKLChecks asset (Some stig) (db s) = [] ->
  exists s1 s2,
    AddSTIGToAsset stig asset s = (true, s1)
    /\ DeleteSTIGFromAsset stig asset s1 = (true, s2)
    /\ rows (tblAssetSTIG (db s2)) = rows (tblAssetSTIG (db s))
    /\ rows (tblCKLCheck (db s2)) = rows (tblCKLCheck (db s))
    /\ tblAsset (db s2) = tblAsset (db s)
    /\ tblSTIG (db s2) = tblSTIG (db s)
    /\ tblSTIGCheck (db s2) = tblSTIGCheck (db s)
    /\ notices s2 = notices s.
Proof.
  intros Ha Hap Hs Hsp Hlink Hnone.
  destruct (GetAsset_stored asset s Ha Hap) as (a & Hga & Hida).
  destruct (GetSTIG_stored stig s Hs Hsp) as (st & Hgs & Hids).
  rewrite (AddSTIGToAsset_run stig asset s a st s s Hga Hgs).
  rewrite Hida, Hids, !(proj2 (Z.gtb_gt _ _)) by lia. simpl.
  eexists _, _. split; [reflexivity|].
  rewrite DeleteSTIGFromAsset_stored by done. split; [reflexivity|].
  unfold unmapped. simpl. rewrite insertRows_rows.
  split; [|split; [|done]].
  - rewrite List.filter_app. simpl. rewrite !Z.eqb_refl. simpl.
    rewrite app_nil_r. apply filter_all. intros l Hl. apply negb_true_iff.
    apply andb_false_iff.
    destruct (Z.eqb_spec (AssetSTIG_AssetId l) (Asset_id asset)); [|by left].
    destruct (Z.eqb_spec (AssetSTIG_STIGId l) (STIG_id stig)); [|by right].
    by destruct (Hlink l Hl).
  - rewrite List.filter_app. rewrite (filter_none _ (imap _ _)).
    + rewrite app_nil_r. apply filter_all. intros c Hc. apply negb_true_iff.
      destruct (_ && _) eqn:E; [|done]. exfalso.
      assert (Hin : c ∈ GetCKLChecks asset (Some stig) (db s)).
      { apply elem_of_List_filter. split; [done|]. exact E. }
      rewrite Hnone in Hin. by apply elem_of_nil in Hin.
    + intros c Hc. apply negb_false_iff.
      apply list_elem_of_lookup in Hc as (i & Hc).
      rewrite list_lookup_imap in Hc.
      destruct (selectRows _ _ !! i) as [sc|] eqn:Hsc; [|done].
      simpl in Hc. injection Hc as <-. simpl. rewrite Z.eqb_refl. simpl.
      unfold inSTIG. simpl. apply bool_decide_eq_true_2.
      apply list_elem_of_fmap. exists sc. split; [done|].
      by apply list_elem_of_lookup_2 in Hsc.
Qed.

(** ** The test run: deleting every Asset *)

Lemma GetSTIGs_Asset_elem (asset : Asset) (d : Db) (st : STIG) :
  st ∈ GetSTIGs_Asset asset d
  <-> st ∈ rows (tblSTIG d)
      /\ exists l, l ∈ rows (tblAssetSTIG d)
           /\ AssetSTIG_AssetId l = Asset_id asset /\ AssetSTIG_STIGId l = STIG_id st.
Proof.
  unfold GetSTIGs_Asset, GetSTIGs_where, selectRows.
  rewrite elem_of_orderBy, elem_of_List_filter, bool_decide_eq_true, list_elem_of_fmap.
  split.
  - intros [Hst (l & Hid & Hl)]. split; [done|]. exists l.
    apply elem_of_List_filter in Hl as [Hl Ha]. apply Z.eqb_eq in Ha. done.
  - intros [Hst (l & Hl & Ha & Hid)]. split; [done|]. exists l. split; [done|].
    apply elem_of_List_filter. split; [done|]. by apply Z.eqb_eq.
Qed.

Lemma sublist_List_filter {A} (p : A -> bool) (l : list A) : List.filter p l `sublist_of` l.
Proof. induction l as [|x l IH]; simpl; [done|]. destruct (p x); by constructor. Qed.

(** The inner loop: the STIGs [stigs] are removed from the asset. *)
Lemma unmap_all (assetId : Z) (stigs : list STIG) : forall (s : State),
  let s' := fold_left (fun st stig =>
                mkState (unmapped assetId (STIG_id stig) (db st)) (delayCommit st) (notices st))
              stigs s in
  tblAsset (db s') = tblAsset (db s)
  /\ tblSTIG (db s') = tblSTIG (db s)
  /\ tblSTIGCheck (db s') = tblSTIGCheck (db s)
  /\ rows (tblAssetSTIG (db s'))
     = List.filter (fun l => negb ((AssetSTIG_AssetId l =? assetId)
                                   && bool_decide (AssetSTIG_STIGId l ∈ map STIG_id stigs)))
                   (rows (tblAssetSTIG (db s)))
  /\ rows (tblCKLCheck (db s')) `sublist_of` rows (tblCKLCheck (db s))
  /\ delayCommit s' = delayCommit s
  /\ notices s' = notices s.
Proof.
  induction stigs as [|stig stigs IH]; intros s; cbv zeta.
  - simpl. repeat (split; [done|]). split; [|done].
    symmetry. apply filter_all. intros l _. apply negb_true_iff, andb_false_iff. by right.
  - simpl fold_left.
    specialize (IH (mkState (unmapped assetId (STIG_id stig) (db s)) (delayCommit s) (notices s))).
    cbv zeta in IH. destruct IH as (H1 & H2 & H3 & H4 & H5 & H6 & H7).
    split; [by rewrite H1|]. split; [by rewrite H2|]. split; [by rewrite H3|].
    split; [|split; [|done]].
    + rewrite H4. simpl. rewrite filter_filter. apply filter_ext_in. intros l _. simpl.
      destruct (AssetSTIG_AssetId l =? assetId); simpl; [|done].
      destruct (Z.eqb_spec (AssetSTIG_STIGId l) (STIG_id stig)) as [->|Hne]; simpl.
      * symmetry. apply negb_false_iff, bool_decide_eq_true_2. by left.
      * f_equal. apply bool_decide_ext. rewrite elem_of_cons. naive_solver.
    + etrans; [exact H5|]. simpl. apply sublist_List_filter.
Qed.

Lemma deleteAsset_run (asset : Asset) (s : State) :
  asset ∈ rows (tblAsset (db s)) -> 0 < Asset_id asset ->
  Forall (fun st => 0 < STIG_id st) (rows (tblSTIG (db s))) ->
  (fold_left (fun (acc : M unit) stig =>
                bind acc (fun _ => bind (DeleteSTIGFromAsset stig asset) (fun _ => ret tt)))
             (GetSTIGs_Asset asset (db s)) (ret tt) s).2
  = fold_left (fun st stig =>
                 mkState (unmapped (Asset_id asset) (STIG_id stig) (db st))
                         (delayCommit st) (notices st))
              (GetSTIGs_Asset asset (db s)) s.
Proof.
  intros Ha Hap Hpos.
  rewrite (fold_bind_state (fun stig => bind (DeleteSTIGFromAsset stig asset) (fun _ => ret tt))).
  simpl.
  assert (Hin : forall st, st ∈ GetSTIGs_Asset asset (db s) ->
                  st ∈ rows (tblSTIG (db s)) /\ 0 < STIG_id st).
  { intros st Hst. apply GetSTIGs_Asset_elem in Hst as [Hst _]. split; [done|].
    rewrite Forall_forall in Hpos. by apply Hpos. }
  revert Hin. generalize (GetSTIGs_Asset asset (db s)). intros stigs Hin.
  assert (Hgen : forall s0, tblSTIG (db s0) = tblSTIG (db s) -> tblAsset (db s0) = tblAsset (db s) ->
            fold_left (fun st x => (bind (DeleteSTIGFromAsset x asset) (fun _ => ret tt) st).2) stigs s0
            = fold_left (fun st stig =>
                    mkState (unmapped (Asset_id asset) (STIG_id stig) (db st))
                            (delayCommit st) (notices st)) stigs s0).
  { induction stigs as [|st stigs IH]; intros s0 Hs0 Ha0; simpl; [done|].
    destruct (Hin st) as [Hst Hstp]; [by left|].
    rewrite bind_run, DeleteSTIGFromAsset_stored; [|by rewrite Hs0|done|by rewrite Ha0|done].
    simpl. apply IH; [|done|done]. intros x Hx. apply Hin. by right. }
  by apply Hgen.
Qed.

Lemma deleteAsset_spec (asset : Asset) (s : State) :
  asset ∈ rows (tblAsset (db s)) -> 0 < Asset_id asset ->
  Forall (fun st => 0 < STIG_id st) (rows (tblSTIG (db s))) ->
  let s' := (deleteAsset asset s).2 in
  rows (tblAsset (db s'))
  = List.filter (fun a => negb (Asset_id a =? Asset_id asset)) (rows (tblAsset (db s)))
  /\ tblSTIG (db s') = tblSTIG (db s)
  /\ tblSTIGCheck (db s') = tblSTIGCheck (db s)
  /\ rows (tblAssetSTIG (db s')) `sublist_of` rows (tblAssetSTIG (db s))
  /\ rows (tblCKLCheck (db s')) `sublist_of` rows (tblCKLCheck (db s))
  /\ delayCommit s' = delayCommit s
  /\ notices s' = notices s.
Proof.
  intros Ha Hap Hpos. cbv zeta.
  pose proof (deleteAsset_run asset s Ha Hap Hpos) as Hloop.
  pose proof (unmap_all (Asset_id asset) (GetSTIGs_Asset asset (db s)) s) as H.
  cbv zeta in H. rewrite <- Hloop in H. clear Hloop.
  destruct H as (H1 & H2 & H3 & H4 & H5 & H6 & H7).
  assert (Hrun : exists s1,
            (deleteAsset asset s).2
            = mkState (setAsset (deleteRows (fun a => Asset_id a =? Asset_id asset)
                                            (tblAsset (db s1))) (db s1))
                      (delayCommit s1) (notices s1)
            /\ s1 = (fold_left (fun (acc : M unit) stig =>
                bind acc (fun _ => bind (DeleteSTIGFromAsset stig asset) (fun _ => ret tt)))
                (GetSTIGs_Asset asset (db s)) (ret tt) s).2).
  { unfold deleteAsset. rewrite bind_run. unfold Asset_STIGs at 1, query at 1.
    cbv beta iota zeta. rewrite bind_run.
    match goal with |- context [fold_left ?f ?l ?a ?x] =>
      set (r := fold_left f l a x) in *; destruct r as [[] s1] eqn:E end.
    exists s1. split; [|done]. simpl in *.
    assert (Hnone : GetSTIGs_Asset asset (db s1) = []).
    { apply nil_no_elem. intros st Hst.
      apply GetSTIGs_Asset_elem in Hst as [Hst (l & Hl & Hla & Hls)].
      rewrite H4 in Hl. apply elem_of_List_filter in Hl as [Hl Hf].
      apply negb_true_iff, andb_false_iff in Hf as [Hf|Hf].
      - apply Z.eqb_neq in Hf. done.
      - apply bool_decide_eq_false in Hf. apply Hf. rewrite Hls.
        apply list_elem_of_fmap. exists st. split; [done|].
        apply GetSTIGs_Asset_elem. rewrite H2 in Hst. split; [done|]. by exists l. }
    rewrite bind_run. unfold DeleteAsset. rewrite bind_run.
    unfold Asset_STIGs, query. cbv beta iota zeta. by rewrite Hnone. }
  destruct Hrun as (s1 & -> & ->). simpl.
  rewrite H1, H2, H3, H6, H7. split; [done|]. split; [done|]. split; [done|].
  split; [|done]. rewrite H4. apply sublist_List_filter.
Qed.

Lemma deleteAssets_loop (assets : list Asset) : forall (s : State),
  NoDup (map Asset_id assets) ->
  Forall (fun a => a ∈ rows (tblAsset (db s)) /\ 0 < Asset_id a) assets ->
  Forall (fun st => 0 < STIG_id st) (rows (tblSTIG (db s))) ->
  let s' := fold_left (fun st a => (deleteAsset a st).2) assets s in
  rows (tblAsset (db s'))
  = List.filter (fun a => negb (bool_decide (Asset_id a ∈ map Asset_id assets)))
                (rows (tblAsset (db s)))
  /\ tblSTIG (db s') = tblSTIG (db s)
  /\ tblSTIGCheck (db s') = tblSTIGCheck (db s)
  /\ rows (tblAssetSTIG (db s')) `sublist_of` rows (tblAssetSTIG (db s))
  /\ rows (tblCKLCheck (db s')) `sublist_of` rows (tblCKLCheck (db s))
  /\ delayCommit s' = delayCommit s
  /\ notices s' = notices s.
Proof.
  induction assets as [|a assets IH]; intros s Hnd Hin Hpos; cbv zeta.
  - simpl. split; [|done]. symmetry. by apply filter_all.
  - simpl fold_left. simpl in Hnd. apply NoDup_cons in Hnd as [Ha Hnd].
    apply Forall_cons in Hin as [[Hain Hap] Hin].
    destruct (deleteAsset_spec a s Hain Hap Hpos) as (H1 & H2 & H3 & H4 & H5 & H6 & H7).
    destruct (IH (deleteAsset a s).2) as (I1 & I2 & I3 & I4 & I5 & I6 & I7).
    + done.
    + rewrite Forall_forall in Hin. apply Forall_forall. intros x Hx.
      destruct (Hin x Hx) as [Hxin Hxp]. split; [|done].
      rewrite H1. apply elem_of_List_filter. split; [done|].
      apply negb_true_iff, Z.eqb_neq. intros Heq. apply Ha. rewrite <- Heq.
      apply list_elem_of_fmap. by exists x.
    + by rewrite H2.
    + split.
      { rewrite I1, H1, filter_filter. apply filter_ext_in. intros x _. simpl.
        destruct (Z.eqb_spec (Asset_id x) (Asset_id a)) as [->|Hne]; simpl.
        - symmetry. apply negb_false_iff, bool_decide_eq_true_2. by left.
        - f_equal. apply bool_decide_ext. rewrite elem_of_cons. naive_solver. }
      split; [congruence|]. split; [congruence|].
      split; [by etrans|]. split; [by etrans|]. split; congruence.
Qed.

(** Property X9.  Deleting every Asset as the test run does (unmap the
    STIGs of the Asset, then delete it; ids positive, Asset ids distinct)
    leaves no Asset and shows no warning; the STIGs and their checks are
    untouched, and links and checklist rows are only removed. *)
Theorem deleteAssets_deletes_every_Asset (s : State) :
  NoDup (map Asset_id (rows (tblAsset (db s)))) ->
  Forall (fun a => 0 < Asset_id a) (rows (tblAsset (db s))) ->
  Forall (fun st => 0 < STIG_id st) (rows (tblSTIG (db s))) ->
  let s' := (deleteAssets s).2 in
  rows (tblAsset (db s')) = []
  /\ tblSTIG (db s') = tblSTIG (db s)
  /\ tblSTIGCheck (db s') = tblSTIGCheck (db s)
  /\ rows (tblAssetSTIG (db s')) `sublist_of` rows (tblAssetSTIG (db s))
  /\ rows (tblCKLCheck (db s')) `sublist_of` rows (tblCKLCheck (db s))
  /\ notices s' = notices s.
Proof.
  intros Hnd Hap Hpos. cbv zeta. unfold deleteAssets. rewrite bind_run.
  unfold query. cbv beta iota zeta.
  rewrite (fold_bind_state deleteAsset). simpl.
  set (assets := GetAssets_where (fun _ => true) (db s)).
  assert (Hperm : assets ≡ₚ rows (tblAsset (db s))).
  { unfold assets, GetAssets_where, selectRows. rewrite orderBy_Permutation.
    by rewrite filter_all. }
  destruct (deleteAssets_loop assets s) as (H1 & H2 & H3 & H4 & H5 & H6 & H7).
  - by rewrite Hperm.
  - apply Forall_forall. intros a Ha. rewrite Hperm in Ha. split; [done|].
    rewrite Forall_forall in Hap. by apply Hap.
  - done.
  - split; [|done]. rewrite H1. apply filter_none. intros a Ha.
    apply negb_false_iff, bool_decide_eq_true_2. rewrite Hperm.
    apply list_elem_of_fmap. by exists a.
Qed.

(** ** Deleting the selected STIGs *)

Lemma GetAssets_STIG_id (a b : STIG) (d : Db) :
  STIG_id a = STIG_id b -> GetAssets_STIG a d = GetAssets_STIG b d.
Proof. intros H. unfold GetAssets_STIG. by rewrite H. Qed.

Lemma flat_map_filter_irrelevant {A B} (f : A -> list B) (p : A -> bool) (l : list A) :
  (forall y, y ∈ l -> p y = false -> f y = []) ->
  flat_map f (List.filter p l) = flat_map f l.
Proof.
  induction l as [|y l IH]; intros H; simpl; [done|].
  destruct (p y) eqn:Hp; simpl.
  - f_equal. apply IH. intros z Hz. apply H. by right.
  - rewrite (H y) by (done || by left). simpl. apply IH. intros z Hz. apply H. by right.
Qed.

Lemma flat_map_ext_elem {A B} (f g : A -> list B) (l : list A) :
  (forall y, y ∈ l -> f y = g y) -> flat_map f l = flat_map g l.
Proof.
  induction l as [|y l IH]; intros H; simpl; [done|].
  rewrite (H y) by left. f_equal. apply IH. intros z Hz. apply H. by right.
Qed.

(** Deleting a STIG that no Asset uses leaves the Assets of every STIG as
    they are. *)
Lemma GetAssets_STIG_after_delete (x stig : STIG) (d : Db) :
  inUse stig d = false ->
  GetAssets_STIG x
    (setSTIG (deleteRows (fun y => STIG_id y =? STIG_id stig) (tblSTIG d))
       (setSTIGCheck (deleteRows (fun c => STIGCheck_stigId c =? STIG_id stig) (tblSTIGCheck d)) d))
  = GetAssets_STIG x d.
Proof.
  intros Hfree. unfold GetAssets_STIG. simpl. f_equal.
  destruct (Z.eqb_spec (STIG_id x) (STIG_id stig)) as [Heq|Hne].
  - assert (Hnil : flat_map (fun a => flat_map (fun l => flat_map (fun s0 =>
               if (AssetSTIG_AssetId l =? Asset_id a) && (STIG_id s0 =? AssetSTIG_STIGId l)
                  && (STIG_id s0 =? STIG_id x) then [a] else []) (rows (tblSTIG d)))
               (rows (tblAssetSTIG d))) (rows (tblAsset d)) = []).
    { unfold inUse in Hfree. apply Z.ltb_ge in Hfree.
      rewrite (GetAssets_STIG_id stig x) in Hfree by done.
      unfold GetAssets_STIG in Hfree. rewrite length_orderBy in Hfree.
      apply length_zero_iff_nil. lia. }
    rewrite Hnil. apply nil_no_elem. intros a Ha.
    apply elem_of_flat_map in Ha as (a' & _ & Ha).
    apply elem_of_flat_map in Ha as (l & _ & Ha).
    apply elem_of_flat_map in Ha as (st & Hst & Ha).
    apply elem_of_List_filter in Hst as [_ Hst]. apply negb_true_iff, Z.eqb_neq in Hst.
    destruct (_ && _) eqn:E; [|by apply elem_of_nil in Ha].
    apply andb_true_iff in E as [_ E]. apply Z.eqb_eq in E. congruence.
  - apply flat_map_ext_elem. intros a _. apply flat_map_ext_elem. intros l _.
    apply flat_map_filter_irrelevant. intros y _ Hy.
    apply negb_false_iff, Z.eqb_eq in Hy.
    rewrite (proj2 (Z.eqb_neq (STIG_id y) (STIG_id x))) by congruence.
    by rewrite andb_false_r.
Qed.

Lemma DeleteSTIG_stored (stig : STIG) (s : State) :
  stig ∈ rows (tblSTIG (db s)) ->
  DeleteSTIG stig s
  = if inUse stig (db s) then (false, warned "STIG In Use" s)
    else (true,
          mkState
            (setSTIG (deleteRows (fun x => STIG_id x =? STIG_id stig) (tblSTIG (db s)))
               (setSTIGCheck
                  (deleteRows (fun c => STIGCheck_stigId c =? STIG_id stig)
                              (tblSTIGCheck (db s))) (db s)))
            (delayCommit s) (notices s)).
Proof.
  intros Hin. unfold DeleteSTIG, DeleteSTIG_id. rewrite bind_run.
  destruct (GetSTIG_id_stored stig s Hin) as (st & -> & Hid & _).
  rewrite bind_run. unfold STIG_Assets, query. cbv beta iota zeta.
  rewrite (GetAssets_STIG_id st stig) by done. unfold inUse.
  rewrite Z.gtb_ltb. by destruct (0 <? _).
Qed.

Lemma DeleteSTIGs_loop (selected : list STIG) : forall (s : State),
  NoDup (map STIG_id selected) ->
  Forall (fun x => x ∈ rows (tblSTIG (db s))) selected ->
  let s' := fold_left (fun st x => (DeleteSTIG x st).2) selected s in
  rows (tblSTIG (db s'))
  = List.filter (fun x => negb (bool_decide (STIG_id x ∈ map STIG_id selected)) || inUse x (db s))
                (rows (tblSTIG (db s)))
  /\ rows (tblSTIGCheck (db s'))
     = List.filter (fun c => negb (bool_decide (STIGCheck_stigId c ∈
                       map STIG_id (List.filter (fun x => negb (inUse x (db s))) selected))))
                   (rows (tblSTIGCheck (db s)))
  /\ tblAsset (db s') = tblAsset (db s)
  /\ tblAssetSTIG (db s') = tblAssetSTIG (db s)
  /\ tblCKLCheck (db s') = tblCKLCheck (db s)
  /\ notices s'
     = notices s ++ map (fun _ => mkNotice "STIG In Use" false)
                        (List.filter (fun x => inUse x (db s)) selected)
  /\ forall x, GetAssets_STIG x (db s') = GetAssets_STIG x (db s).
Proof.
  induction selected as [|stig selected IH]; intros s Hnd Hin; cbv zeta.
  - simpl. split; [symmetry; by apply filter_all|]. split; [symmetry; by apply filter_all|].
    by rewrite app_nil_r.
  - simpl fold_left. simpl in Hnd. apply NoDup_cons in Hnd as [Hstig Hnd].
    apply Forall_cons in Hin as [Hsin Hin].
    pose proof (DeleteSTIG_stored stig s Hsin) as Hrun.
    assert (Hsame : forall x, GetAssets_STIG x (db (DeleteSTIG stig s).2) = GetAssets_STIG x (db s)).
    { intros x. rewrite Hrun. destruct (inUse stig (db s)) eqn:Hu; [done|].
      simpl. by apply GetAssets_STIG_after_delete. }
    assert (Huse : forall x, inUse x (db (DeleteSTIG stig s).2) = inUse x (db s)).
    { intros x. unfold inUse. by rewrite Hsame. }
    destruct (IH (DeleteSTIG stig s).2) as (I1 & I2 & I3 & I4 & I5 & I6 & I7).
    { done. }
    { rewrite Forall_forall in Hin. apply Forall_forall. intros x Hx.
      rewrite Hrun. destruct (inUse stig (db s)); simpl; [by apply Hin|].
      apply elem_of_List_filter. split; [by apply Hin|].
      apply negb_true_iff, Z.eqb_neq. intros Heq. apply Hstig. rewrite <- Heq.
      apply list_elem_of_fmap. by exists x. }
    rewrite I1, I2, I3, I4, I5, I6. clear I1 I2 I3 I4 I5 I6.
    split; [|split; [|split; [|split; [|split; [|split]]]]].
    + rewrite (filter_ext_in _ (fun x => negb (bool_decide (STIG_id x ∈ map STIG_id selected))
                                         || inUse x (db s)))
        by (intros x _; by rewrite Huse).
      rewrite Hrun. destruct (inUse stig (db s)) eqn:Hu; simpl.
      * apply filter_ext_in. intros x _.
        destruct (bool_decide (STIG_id x ∈ map STIG_id selected)) eqn:E1; simpl.
        -- rewrite bool_decide_eq_true_2; [done|]. apply bool_decide_eq_true in E1. by right.
        -- destruct (decide (STIG_id x = STIG_id stig)) as [Heq|Hne].
           ++ rewrite bool_decide_eq_true_2 by (rewrite Heq; by left). simpl.
              unfold inUse. rewrite (GetAssets_STIG_id x stig) by done. symmetry. exact Hu.
           ++ rewrite bool_decide_eq_false_2; [done|]. apply bool_decide_eq_false in E1.
              rewrite not_elem_of_cons. done.
      * rewrite filter_filter. apply filter_ext_in. intros x _.
        destruct (Z.eqb_spec (STIG_id x) (STIG_id stig)) as [Heq|Hne]; simpl.
        -- rewrite bool_decide_eq_true_2 by (rewrite Heq; by left). simpl.
           unfold inUse. rewrite (GetAssets_STIG_id x stig) by done. symmetry. exact Hu.
        -- f_equal. f_equal. apply bool_decide_ext. rewrite elem_of_cons. naive_solver.
    + assert (Hfilter : List.filter (fun x => negb (inUse x (db (DeleteSTIG stig s).2))) selected
                        = List.filter (fun x => negb (inUse x (db s))) selected).
      { apply filter_ext_in. intros x _. by rewrite Huse. }
      rewrite Hfilter. rewrite Hrun. destruct (inUse stig (db s)) eqn:Hu; simpl; rewrite Hu; simpl; [done|].
      rewrite filter_filter. apply filter_ext_in. intros c _.
      destruct (Z.eqb_spec (STIGCheck_stigId c) (STIG_id stig)) as [Heq|Hne]; simpl.
      * symmetry. apply negb_false_iff, bool_decide_eq_true_2. rewrite Heq. by left.
      * f_equal. apply bool_decide_ext. rewrite elem_of_cons. naive_solver.
    + rewrite Hrun. by destruct (inUse stig (db s)).
    + rewrite Hrun. by destruct (inUse stig (db s)).
    + rewrite Hrun. by destruct (inUse stig (db s)).
    + assert (Hfilter : List.filter (fun x => inUse x (db (DeleteSTIG stig s).2)) selected
                        = List.filter (fun x => inUse x (db s)) selected).
      { apply filter_ext_in. intros x _. by rewrite Huse. }
      rewrite Hfilter. rewrite Hrun. destruct (inUse stig (db s)) eqn:Hu; simpl; rewrite Hu; simpl; [|done].
      by rewrite <- app_assoc.
    + intros x. by rewrite I7, Hsame.
Qed.

(** Property X10.  Deleting the selected STIGs removes exactly the
    selected STIGs that no Asset uses, together with their checks; a
    selected STIG in use stays and gives one warning "STIG In Use".  Assets,
    links and checklist rows are untouched. *)
Theorem DeleteSTIGs_keeps_STIGs_in_use (s : State) (selected : list STIG) :
  NoDup (map STIG_id selected) ->
  Forall (fun x => x ∈ rows (tblSTIG (db s))) selected ->
  let s' := (DeleteSTIGs selected s).2 in
  rows (tblSTIG (db s'))
  = List.filter (fun x => negb (bool_decide (STIG_id x ∈ map STIG_id selected)) || inUse x (db s))
                (rows (tblSTIG (db s)))
  /\ rows (tblSTIGCheck (db s'))
     = List.filter (fun c => negb (bool_decide (STIGCheck_stigId c ∈
                       map STIG_id (List.filter (fun x => negb (inUse x (db s))) selected))))
                   (rows (tblSTIGCheck (db s)))
  /\ tblAsset (db s') = tblAsset (db s)
  /\ tblAssetSTIG (db s') = tblAssetSTIG (db s)
  /\ tblCKLCheck (db s') = tblCKLCheck (db s)
  /\ notices s'
     = notices s ++ map (fun _ => mkNotice "STIG In Use" false)
                        (List.filter (fun x => inUse x (db s)) selected).
Proof.
  intros Hnd Hin. cbv zeta. unfold DeleteSTIGs.
  rewrite (fold_bind_state (fun x => bind (DeleteSTIG x) (fun _ => ret tt))). simpl.
  assert (Hstep : forall l s0,
            fold_left (fun st x => (bind (DeleteSTIG x) (fun _ => ret tt) st).2) l s0
            = fold_left (fun st x => (DeleteSTIG x st).2) l s0).
  { induction l as [|x l IH]; intros s0; simpl; [done|]. rewrite IH. f_equal.
    rewrite bind_run. by destruct (DeleteSTIG x s0). }
  rewrite Hstep.
  destruct (DeleteSTIGs_loop selected s Hnd Hin) as (H1 & H2 & H3 & H4 & H5 & H6 & _).
  done.
Qed.

(** ** Controls *)

Lemma trimmed_trailing_space (s : QString) :
  Forall (fun c => isSpace c = false) s -> trimmed (s ++ [" "%char]) = s.
Proof.
  intros H. unfold trimmed.
  assert (H1 : s <> [] -> skipSpaces (s ++ [" "%char]) = s ++ [" "%char]).
  { destruct H as [|c s Hc Hs]; [done|]. intros _. simpl. by rewrite Hc. }
  destruct (decide (s = [])) as [->|Hne]; [done|].
  rewrite H1 by done. rewrite rev_app_distr.
  change (rev [" "%char] ++ rev s) with (" "%char :: rev s).
  change (skipSpaces (" "%char :: rev s)) with (skipSpaces (rev s)).
  rewrite skipSpaces_id by (by apply List.Forall_rev).
  apply rev_involutive.
Qed.

Lemma trimmed_ends (c d : ascii) (s : QString) :
  isSpace c = false -> isSpace d = false -> trimmed (c :: s ++ [d]) = c :: s ++ [d].
Proof.
  intros Hc Hd. unfold trimmed. cbn [skipSpaces]. rewrite Hc.
  change (c :: s ++ [d]) with ((c :: s) ++ [d]).
  rewrite rev_app_distr. cbn [rev app skipSpaces]. rewrite Hd.
  change (d :: rev s ++ [c]) with (rev [d] ++ rev (c :: s)).
  by rewrite <- rev_app_distr, rev_involutive.
Qed.

Lemma toInt_trailing_space (s : QString) :
  Forall (fun c => isSpace c = false) s -> toInt (s ++ [" "%char]) = toInt s.
Proof.
  intros H. unfold toInt. by rewrite trimmed_trailing_space, trimmed_id.
Qed.

Section AddControlParse.
Variables (a b : ascii) (ds es : QString).
Hypothesis Ha : isLetter a = true.
Hypothesis Hb : isLetter b = true.
Hypothesis Hds : Forall (fun c => isDigit c = true) ds.
Hypothesis Hes : Forall (fun c => isDigit c = true) es.

Local Abbreviation stem := (a :: b :: "-"%char :: ds).
Local Abbreviation enhanced := (stem ++ " "%char :: "("%char :: es ++ [")"%char]).

Lemma length_stem : 4 <= qlength stem <-> ds <> [].
Proof. unfold qlength. destruct ds; simpl; split; (done || lia). Qed.

Lemma AddControl_parse_stem :
  AddControl_parse stem = ([a; b], toInt ds, None).
Proof.
  unfold AddControl_parse.
  rewrite (indexOf_notin " " stem) by (by apply stem_nomark_but_dash).
  cbn [Z.gtb Z.compare].
  assert (Hr : right (qlength stem - 3) stem = ds).
  { apply (right_app [a; b; "-"%char] ds). solve_length. }
  rewrite Hr.
  by rewrite contains_notin by (by apply digits_nomark).
Qed.

Lemma AddControl_parse_enhanced :
  toInt es <> 0 ->
  AddControl_parse enhanced = ([a; b], toInt ds, Some (toInt es)).
Proof.
  intros He. unfold AddControl_parse.
  assert (Hsp : " "%char ∉ stem) by (by apply stem_nomark_but_dash).
  rewrite (one_space_enhanced a b ds es Ha Hb Hds Hes).
  rewrite (indexOf_app " " stem) by done.
  rewrite (proj2 (Z.gtb_gt _ _)) by solve_length.
  cbn [Z.gtb Z.compare].
  set (rest := ds ++ " "%char :: "("%char :: es ++ [")"%char]).
  assert (Hl : left 2 enhanced = [a; b]) by done.
  rewrite Hl.
  assert (Hr : right (qlength enhanced - 3) enhanced = rest).
  { apply (right_app [a; b; "-"%char] rest). unfold rest. solve_length. }
  rewrite Hr. unfold rest.
  assert (Hrest : ds ++ " "%char :: "("%char :: es ++ [")"%char]
                  = (ds ++ [" "%char]) ++ "("%char :: es ++ [")"%char])
    by (by rewrite <- app_assoc).
  rewrite Hrest.
  assert (Hp : "("%char ∉ ds ++ [" "%char]).
  { rewrite not_elem_of_app, list_elem_of_singleton. split; [by apply digits_nomark|done]. }
  rewrite (contains_app "(" (ds ++ [" "%char])) by done.
  rewrite (indexOf_app "(" (ds ++ [" "%char])) by done.
  rewrite left_app.
  assert (He1 : right (qlength ((ds ++ [" "%char]) ++ "("%char :: es ++ [")"%char])
                       - Z.of_nat (length (ds ++ [" "%char])) - 1)
                      ((ds ++ [" "%char]) ++ "("%char :: es ++ [")"%char]) = es ++ [")"%char]).
  { replace ((ds ++ [" "%char]) ++ "("%char :: es ++ [")"%char])
      with (((ds ++ [" "%char]) ++ ["("%char]) ++ es ++ [")"%char])
      by (by rewrite <- !app_assoc).
    apply right_app. solve_length. }
  rewrite He1.
  assert (He2 : left (qlength (es ++ [")"%char]) - 1) (es ++ [")"%char]) = es).
  { replace (qlength (es ++ [")"%char]) - 1) with (Z.of_nat (length es)).
    - apply left_app.
    - solve_length. }
  rewrite He2. rewrite (proj2 (Z.eqb_neq _ _) He).
  rewrite toInt_trailing_space by (by apply digits_nospace).
  destruct es as [|e es']; [|done]. by vm_compute in He.
Qed.

End AddControlParse.

Lemma GetFamily_acronym_unique (d : Db) (f : Family) :
  NoDup (map Family_acronym (rows (tblFamily d))) -> f ∈ rows (tblFamily d) ->
  GetFamily_acronym (Family_acronym f) d = f.
Proof.
  intros Hnd Hin. unfold GetFamily_acronym, selectRows.
  by rewrite (filter_unique Family_acronym _ f Hnd Hin).
Qed.

Lemma GetFamily_acronym_missing (d : Db) (acronym : QString) :
  acronym ∉ map Family_acronym (rows (tblFamily d)) ->
  GetFamily_acronym acronym d = Family_default.
Proof.
  intros H. unfold GetFamily_acronym, selectRows. rewrite filter_none; [done|].
  intros f Hf. apply bool_decide_eq_false_2. intros <-. apply H.
  apply list_elem_of_fmap. by exists f.
Qed.

(** The family, number and enhancement of a reference index (the textual
    part of the lookup the CCI import does). *)
Lemma parseIndex_referenceIndex (a b : ascii) (n : Z) (enhancement : option Z) :
  isLetter a = true -> isLetter b = true ->
  0 <= n <= INT_MAX ->
  (forall e, enhancement = Some e -> 0 <= e <= INT_MAX) ->
  parseControl (controlOfIndex (referenceIndex [a; b] n enhancement))
  = ([a; b], n, default (-1) enhancement).
Proof.
  intros Ha Hb Hn He. unfold referenceIndex.
  pose proof (number_digits n (proj1 Hn)) as Hds.
  destruct enhancement as [e|].
  - specialize (He e eq_refl).
    pose proof (number_digits e (proj1 He)) as Hes.
    change ([a; b] ++ "-"%char :: number n ++ " "%char :: "("%char :: number e ++ [")"%char])
      with ((a :: b :: "-"%char :: number n) ++ " "%char :: "("%char :: number e ++ [")"%char]).
    rewrite (controlOfIndex_enhanced a b (number n) (number e)) by done.
    apply parseControl_enhanced; auto using number_nonempty, toInt_number.
  - rewrite app_nil_r.
    change ([a; b] ++ "-"%char :: number n) with (a :: b :: "-"%char :: number n).
    rewrite (controlOfIndex_plain a b (number n)) by done.
    apply parseControl_stem; auto using number_nonempty, toInt_number.
Qed.

Lemma AddControl_parse_referenceIndex (a b : ascii) (n : Z) (enhancement : option Z) :
  isLetter a = true -> isLetter b = true ->
  0 <= n <= INT_MAX ->
  (forall e, enhancement = Some e -> 0 < e <= INT_MAX) ->
  trimmed (referenceIndex [a; b] n enhancement) = referenceIndex [a; b] n enhancement
  /\ 4 <= qlength (referenceIndex [a; b] n enhancement)
  /\ AddControl_parse (referenceIndex [a; b] n enhancement) = ([a; b], n, enhancement).
Proof.
  intros Ha Hb Hn He. unfold referenceIndex.
  pose proof (number_digits n (proj1 Hn)) as Hds.
  pose proof (number_nonempty n) as Hne.
  assert (Hstem : Forall (fun c => isSpace c = false) (a :: b :: "-"%char :: number n)).
  { by apply stem_nospace. }
  destruct enhancement as [e|].
  - specialize (He e eq_refl).
    assert (He' : 0 <= e <= INT_MAX) by lia.
    pose proof (number_digits e (proj1 He')) as Hes.
    change ([a; b] ++ "-"%char :: number n ++ " "%char :: "("%char :: number e ++ [")"%char])
      with ((a :: b :: "-"%char :: number n) ++ " "%char :: "("%char :: number e ++ [")"%char]).
    split; [|split].
    + change ((a :: b :: "-"%char :: number n) ++ " "%char :: "("%char :: number e ++ [")"%char])
        with (a :: (b :: "-"%char :: number n ++ " "%char :: "("%char :: number e ++ [")"%char])).
      replace (b :: "-"%char :: number n ++ " "%char :: "("%char :: number e ++ [")"%char])
        with ((b :: "-"%char :: number n ++ " "%char :: "("%char :: number e) ++ [")"%char]).
      * apply trimmed_ends; [by apply isLetter_not_space|done].
      * simpl. by rewrite <- app_assoc.
    + destruct (number n); [done|]. solve_length.
    + rewrite (AddControl_parse_enhanced a b (number n) (number e)) by
        (try done; rewrite toInt_number by done; lia).
      by rewrite !toInt_number.
  - rewrite app_nil_r.
    change ([a; b] ++ "-"%char :: number n) with (a :: b :: "-"%char :: number n).
    split; [by apply trimmed_id|]. split.
    + destruct (number n); [done|]. solve_length.
    + rewrite (AddControl_parse_stem a b (number n)) by done. by rewrite toInt_number.
Qed.

Lemma AddControl_run (s : State) (control title description family : QString)
    (number_ : Z) (enhancement : option Z) (f : Family) :
  4 <= qlength (trimmed control) ->
  AddControl_parse (trimmed control) = (family, number_, enhancement) ->
  GetFamily_acronym family (db s) = f ->
  AddControl control title description s
  = if Family_id f >=? 0 then
      (true,
       mkState
         (setControl
            (mkTable (rows (tblControl (db s))
                      ++ [mkControl (sequence (tblControl (db s)) + 1) (Family_id f) number_
                                    (default (-1) enhancement) title description])
                     (sequence (tblControl (db s)) + 1)) (db s))
         (delayCommit s) (notices s))
    else (false, warned "Family Does Not Exist" s).
Proof.
  intros Hlen Hparse Hf. unfold AddControl. rewrite (proj2 (Z.ltb_ge _ _)) by lia.
  rewrite Hparse, bind_run. unfold query. cbv beta iota zeta. rewrite Hf.
  by destruct (Family_id f >=? 0).
Qed.

(** Property X11.  A control named as the CCI list names it (a family of
    two letters, a number, an optional enhancement) is added under the next
    id without a message, and [GetControl] on the name the import derives
    from the same reference index finds it, when its family is stored and
    no stored control of that family and number stands in the way: none
    with the same enhancement for a name with an enhancement, none at all
    for a name without one, because [GetControl] then takes the first
    control of that family and number whatever its enhancement. *)
Theorem AddControl_then_GetControl (s : State) (a b : ascii) (n : Z) (enhancement : option Z)
    (title description : QString) (f : Family) :
  isLetter a = true -> isLetter b = true ->
  0 <= n <= INT_MAX ->
  (forall e, enhancement = Some e -> 0 < e <= INT_MAX) ->
  NoDup (map Family_acronym (rows (tblFamily (db s)))) ->
  f ∈ rows (tblFamily (db s)) -> Family_acronym f = [a; b] -> 0 <= Family_id f ->
  (forall r, r ∈ rows (tblControl (db s)) ->
     ~ (Control_familyId r = Family_id f /\ Control_number r = n
        /\ forall e, enhancement = Some e -> Control_enhancement r = e)) ->
  let name := referenceIndex [a; b] n enhancement in
  let stored := mkControl (sequence (tblControl (db s)) + 1) (Family_id f) n
                          (default (-1) enhancement) title description in
  exists s',
    AddControl name title description s = (true, s')
    /\ rows (tblControl (db s')) = rows (tblControl (db s)) ++ [stored]
    /\ notices s' = notices s
    /\ GetControl_name (controlOfIndex name) (db s') = stored.
Proof.
  intros Ha Hb Hn He Hnd Hf Hacr Hfid Hnew. cbv zeta.
  destruct (AddControl_parse_referenceIndex a b n enhancement Ha Hb Hn He)
    as (Htrim & Hlen & Hparse).
  rewrite (AddControl_run s _ title description [a; b] n enhancement f).
  2:{ by rewrite Htrim. }
  2:{ by rewrite Htrim. }
  2:{ rewrite <- Hacr. by apply GetFamily_acronym_unique. }
  rewrite (proj2 (Z.geb_le _ _)) by lia.
  eexists. split; [reflexivity|]. simpl. split; [done|]. split; [done|].
  unfold GetControl_name.
  rewrite parseIndex_referenceIndex by (try done; intros e Hee; specialize (He e Hee); lia).
  assert (Hfam : forall t acr, GetFamily_acronym acr (setControl t (db s))
                               = GetFamily_acronym acr (db s)) by done.
  rewrite Hfam, <- Hacr, (GetFamily_acronym_unique (db s) f Hnd Hf).
  unfold selectRows. simpl rows.
  rewrite filter_snoc_only; [done| |].
  - intros r Hr. destruct ((_ =? _) && (_ =? _) && _) eqn:E; [|done].
    exfalso. apply (Hnew r Hr).
    apply andb_true_iff in E as [E E3]. apply andb_true_iff in E as [E1 E2].
    apply Z.eqb_eq in E1, E2. split; [done|]. split; [done|].
    intros e ->. simpl in E3. rewrite (proj2 (Z.gtb_gt _ _)) in E3 by (specialize (He e eq_refl); lia).
    by apply Z.eqb_eq in E3.
  - simpl. rewrite !Z.eqb_refl. simpl. destruct (_ >? 0); [|done]. by rewrite ?Z.eqb_refl.
Qed.

(** Property X12.  [AddControl] refuses a name of fewer than four
    characters with the warning "Control Does Not Exist", and a name whose
    family acronym is not stored with the warning "Family Does Not Exist";
    nothing is stored in either case. *)
Theorem AddControl_refuses_bad_names (s : State) (control title description : QString) :
  (qlength (trimmed control) < 4 ->
   AddControl control title description s = (false, warned "Control Does Not Exist" s))
  /\ (4 <= qlength (trimmed control) ->
      (AddControl_parse (trimmed control)).1.1 ∉ map Family_acronym (rows (tblFamily (db s))) ->
      AddControl control title description s = (false, warned "Family Does Not Exist" s)).
Proof.
  split.
  - intros H. unfold AddControl. by rewrite (proj2 (Z.ltb_lt _ _)) by lia.
  - intros Hlen Hfam.
    destruct (AddControl_parse (trimmed control)) as [[family n] enhancement] eqn:Hparse.
    rewrite (AddControl_run s control title description family n enhancement Family_default Hlen Hparse).
    + done.
    + by apply GetFamily_acronym_missing.
Qed.

(** ** STIGs *)

Lemma GetSTIG_key_missing (s : State) (title : QString) (version : Z) (release : QString) :
  (forall x, x ∈ rows (tblSTIG (db s)) ->
     ~ (STIG_title x = title /\ STIG_version x = version /\ STIG_release x = release)) ->
  GetSTIG_key title version release s = (STIG_default, mkState (db s) (delayCommit s)
       (notices s ++ [mkNotice "Unable to Find STIG" true])).
Proof.
  intros H. unfold GetSTIG_key. rewrite bind_run. unfold query, GetSTIGs_where, selectRows.
  cbv beta iota zeta. rewrite filter_none; [by rewrite orderBy_nil|].
  intros x Hx. destruct (_ && _) eqn:E; [|done]. exfalso. apply (H x Hx).
  apply andb_true_iff in E as [E E3]. apply andb_true_iff in E as [E1 E2].
  apply bool_decide_eq_true in E1, E2. apply Z.eqb_eq in E3. done.
Qed.

(** The loop of [AddSTIG] that stores the checks. *)
Lemma AddSTIG_checks_fold (stigId : Z) (checks : list STIGCheck) :
  forall (acc : M bool) (s s1 : State) (b : bool),
  acc s = (b, s1) ->
  fold_left (fun (acc : M bool) c =>
      bind acc (fun r =>
      bind (exec (fun d =>
              setSTIGCheck (fst (insertRow (STIGCheck_row stigId c) (tblSTIGCheck d))) d))
           (fun tmpRet =>
      bind (if negb tmpRet then Warning "Unable to Add STIGCheck" false else ret tt)
           (fun _ => ret (r && tmpRet)))))
    checks acc s
  = (b, mkState (setSTIGCheck (insertRows (STIGCheck_row stigId) checks (tblSTIGCheck (db s1)))
                              (db s1))
                (delayCommit s1) (notices s1)).
Proof.
  induction checks as [|c checks IH]; intros acc s s1 b Hacc; simpl fold_left.
  - rewrite Hacc. unfold insertRows. simpl. by destruct s1 as [[] ? ?].
  - erewrite IH.
    2:{ rewrite bind_run, Hacc. rewrite bind_run. unfold exec. cbv beta iota zeta.
        simpl negb. cbv iota. rewrite bind_run. unfold ret. reflexivity. }
    rewrite andb_true_r. f_equal.
Qed.

Lemma AddSTIG_checks_run (stig : STIG) (checks : list STIGCheck) (ret0 : bool) (s : State) :
  0 < STIG_id stig ->
  AddSTIG_checks stig checks ret0 s
  = (true,
     mkState (setSTIGCheck (insertRows (STIGCheck_row (STIG_id stig)) checks
                                       (tblSTIGCheck (db s))) (db s))
             (delayCommit s) (notices s)).
Proof.
  intros Hid. unfold AddSTIG_checks. rewrite (proj2 (Z.leb_gt _ _)) by lia.
  rewrite bind_run. unfold getDelayCommit. cbv beta iota zeta.
  destruct (delayCommit s) eqn:Hd; cbn [negb]; cbv iota.
  - rewrite bind_run. unfold ret at 1. cbv beta iota zeta. rewrite bind_run.
    erewrite AddSTIG_checks_fold by reflexivity.
    rewrite bind_run. unfold ret. cbv beta iota zeta. simpl. by rewrite ?Hd.
  - rewrite bind_run. unfold DelayCommit at 1. cbv beta iota zeta. rewrite bind_run.
    erewrite AddSTIG_checks_fold by reflexivity.
    rewrite bind_run. unfold DelayCommit, ret. cbv beta iota zeta. simpl. by rewrite ?Hd.
Qed.

(** Property X13.  Adding a STIG that is not stored yet stores it under
    the next id and appends its checks to the STIGCheck table in the order
    given, under consecutive ids, every column as given; the commit mode is
    restored and the only message is the quiet "Unable to Find STIG" of the
    duplicate lookup.  [GetSTIGChecks] of the new STIG returns these checks
    as it reads rows back: with the stored responsibility in the field
    thirdPartyTools and the field responsibility left at its default. *)
Theorem AddSTIG_stores_STIG_and_checks (s : State) (stig : STIG) (checks : list STIGCheck)
    (stigExists : bool) :
  STIG_id stig <= 0 ->
  0 <= sequence (tblSTIG (db s)) ->
  (forall x, x ∈ rows (tblSTIG (db s)) ->
     ~ (STIG_title x = STIG_title stig /\ STIG_version x = STIG_version stig
        /\ STIG_release x = STIG_release stig)) ->
  (forall c, c ∈ rows (tblSTIGCheck (db s)) ->
     STIGCheck_stigId c <> sequence (tblSTIG (db s)) + 1) ->
  let id := sequence (tblSTIG (db s)) + 1 in
  let stored := mkSTIG id (STIG_title stig) (STIG_description stig) (STIG_release stig)
                       (STIG_version stig) (STIG_benchmarkId stig) (STIG_fileName stig) in
  exists s',
    AddSTIG stig checks stigExists s = (true, s')
    /\ rows (tblSTIG (db s')) = rows (tblSTIG (db s)) ++ [stored]
    /\ rows (tblSTIGCheck (db s'))
       = rows (tblSTIGCheck (db s))
         ++ imap (fun i c => STIGCheck_row id c (sequence (tblSTIGCheck (db s)) + 1 + Z.of_nat i))
                 checks
    /\ GetSTIGChecks stored (db s')
       = imap (fun i c =>
                 STIGCheck_read
                   (STIGCheck_row id c (sequence (tblSTIGCheck (db s)) + 1 + Z.of_nat i)))
              checks
    /\ delayCommit s' = delayCommit s
    /\ notices s' = notices s ++ [mkNotice "Unable to Find STIG" true].
Proof.
  intros Hid Hseq Hnew Hfresh. cbv zeta.
  unfold AddSTIG. rewrite (proj2 (Z.leb_le _ _)) by lia.
  rewrite bind_run, GetSTIG_key_missing by done.
  change (STIG_id STIG_default >? 0) with false. cbv iota.
  cbv beta iota zeta. unfold insertRow. cbv beta iota zeta.
  rewrite AddSTIG_checks_run by (simpl; lia).
  eexists. split; [reflexivity|]. simpl. split; [done|].
  split; [by rewrite insertRows_rows|]. split; [|done].
  unfold GetSTIGChecks, GetSTIGChecks_where, selectRows. simpl.
  rewrite insertRows_rows, List.filter_app, filter_none, filter_all;
    [simpl; by rewrite fmap_imap| |].
  - intros c Hc. apply list_elem_of_lookup in Hc as (i & Hc).
    rewrite list_lookup_imap in Hc. destruct (checks !! i); [|done].
    simpl in Hc. injection Hc as <-. simpl. apply Z.eqb_refl.
  - intros c Hc. apply Z.eqb_neq. by apply Hfresh.
Qed.

(** ** More on the eMASS report *)

Lemma uint_of_string_zeros (k : nat) (s : QString) (d : uint) :
  NilEmpty.uint_of_string (string_of_list_ascii s) = Some d ->
  exists d', NilEmpty.uint_of_string (string_of_list_ascii (replicate k "0"%char ++ s)) = Some d'
             /\ N.of_uint d' = N.of_uint d.
Proof.
  intros H. induction k as [|k (d' & Hd' & Hv)]; simpl; [by exists d|].
  rewrite Hd'. simpl. by exists (D0 d').
Qed.

Lemma NilZero_NilEmpty (s : string) :
  s <> EmptyString -> NilZero.uint_of_string s = NilEmpty.uint_of_string s.
Proof. by destruct s. Qed.

Lemma toInt_zeroPad (n : Z) : 0 <= n <= INT_MAX -> toInt (zeroPad (number n)) = n.
Proof.
  intros Hn. pose proof (number_digits n (proj1 Hn)) as Hd.
  pose proof (number_nonempty n) as Hne.
  unfold zeroPad. destruct (6 - length (number n))%nat as [|k] eqn:Hk;
    [by apply toInt_number|].
  assert (E : NilEmpty.uint_of_string (string_of_list_ascii (number n))
              = Some (N.to_uint (Z.abs_N n))).
  { rewrite <- NilZero_NilEmpty.
    - unfold number. rewrite (proj2 (Z.ltb_ge _ _)) by lia.
      rewrite string_of_list_ascii_of_string. apply NilZero.usu, to_uint_nonnil.
    - by destruct (number n). }
  set (s := number n) in *.
  assert (Hall : Forall (fun c => isDigit c = true) (replicate (S k) "0"%char ++ s)).
  { apply Forall_app. split; [|done]. by apply Forall_replicate. }
  change (replicate (S k) "0"%char ++ s) with ("0"%char :: (replicate k "0"%char ++ s)) in *.
  rewrite toInt_unsigned.
  2:{ eapply Forall_impl; [exact Hall|]. apply isDigit_not_space. }
  2:{ done. }
  change ("0"%char :: replicate k "0"%char ++ s) with (replicate (S k) "0"%char ++ s).
  rewrite NilZero_NilEmpty by done.
  destruct (uint_of_string_zeros (S k) s _ E) as (d' & -> & ->).
  rewrite DecimalN.Unsigned.of_to. cbv zeta. rewrite N2Z.inj_abs_N, Z.abs_eq by lia.
  unfold INT_MIN, INT_MAX in *.
  rewrite andb_true_intro; [done|]. split; apply Z.leb_le; lia.
Qed.

Lemma zeroPad_length (s : QString) : (6 <= length (zeroPad s))%nat.
Proof. unfold zeroPad. rewrite length_app, length_replicate. lia. Qed.

Lemma zeroPad_digits (s : QString) :
  Forall (fun c => isDigit c = true) s -> Forall (fun c => isDigit c = true) (zeroPad s).
Proof. intros H. apply Forall_app. split; [by apply Forall_replicate|done]. Qed.

(** An ordered selection is sorted by its key; strictly so when the keys
    do not repeat. *)
Lemma orderBy_sorted {A} (key : A -> Z) (l : list A) :
  NoDup (map key l) ->
  StronglySorted Z.lt (map key (orderBy (fun a b => key a <=? key b) l)).
Proof.
  intros Hnd. unfold orderBy.
  set (R := fun a b : A => Is_true (key a <=? key b)).
  assert (Htrans : Transitive R).
  { intros x y z Hxy Hyz. unfold R in *. apply Is_true_true, Z.leb_le.
    apply Is_true_true, Z.leb_le in Hxy, Hyz. lia. }
  assert (Htotal : Total R).
  { intros x y. unfold R. destruct (Z.leb_spec (key x) (key y)); [by left|right].
    apply Is_true_true, Z.leb_le. lia. }
  pose proof (StronglySorted_merge_sort R l) as Hs.
  assert (Hnd' : NoDup (map key (merge_sort R l))) by (by rewrite merge_sort_Permutation).
  induction Hs as [|x l' Hs IH Hall]; simpl; constructor.
  - apply IH. simpl in Hnd'. by apply NoDup_cons in Hnd' as [_ ?].
  - simpl in Hnd'. apply NoDup_cons in Hnd' as [Hx _].
    apply Forall_fmap, Forall_forall. intros y Hy. rewrite Forall_forall in Hall.
    specialize (Hall y Hy). unfold R in Hall. apply Is_true_true, Z.leb_le in Hall.
    simpl. assert (key y <> key x); [|lia].
    intros Heq. apply Hx. rewrite <- Heq. apply list_elem_of_fmap. by exists y.
Qed.

Section ReportRows.
Context (cciOf : CKLCheck -> CCI) (cciKey : CCI -> Z) (controlOf : CCI -> Control)
        (PrintControl : Control -> QString) (Excelify : QString -> QString)
        (sortChecks : list CKLCheck -> list CKLCheck)
        (printOpenCheck printPassedCheck : CKLCheck -> QString)
        (curDate username : QString).

Local Abbreviation appendCheck := (appendCheck cciKey).
Local Abbreviation containsCCI := (containsCCI cciKey).
Local Abbreviation classify := (classify cciOf cciKey).
Local Abbreviation classifyAll := (classifyAll cciOf cciKey).
Local Abbreviation process :=
  (process cciOf cciKey controlOf PrintControl Excelify sortChecks printOpenCheck
           printPassedCheck curDate username).
Local Abbreviation failedRow :=
  (failedRow controlOf PrintControl Excelify sortChecks printOpenCheck curDate username).
Local Abbreviation passedRow :=
  (passedRow controlOf PrintControl Excelify sortChecks printPassedCheck curDate username).
Local Abbreviation oldRow := (oldRow controlOf PrintControl Excelify).

(** The checks of status [s] mapped to the CCI with key [k], in the order
    in which they are examined. *)
Local Abbreviation checksOf s k checks :=
  (List.filter (fun cc : CKLCheck =>
     bool_decide (CKLCheck_status cc = s) && (cciKey (cciOf cc) =? k)) checks).

(** Property X14.  The CCI column of every data row holds the number of
    the CCI the row is written for, with zeros put before it up to at least
    six characters; rows written for different CCI numbers never show the
    same text.  For a number from 0 to INT_MAX the cell consists of digits
    and, read as a number, is the CCI number again. *)
Theorem report_CCI_column_reads_back (checks : list CKLCheck) (ccis : list CCI) (row : Row) :
  row ∈ dataRows (process checks ccis) ->
  (6 <= length (col3_cci row))%nat
  /\ col3_cci row = zeroPad (number (CCI_cci (Row_cci row)))
  /\ (forall row', row' ∈ dataRows (process checks ccis) ->
        col3_cci row' = col3_cci row -> CCI_cci (Row_cci row') = CCI_cci (Row_cci row))
  /\ (0 <= CCI_cci (Row_cci row) <= INT_MAX ->
        Forall (fun c => isDigit c = true) (col3_cci row)
        /\ toInt (col3_cci row) = CCI_cci (Row_cci row)).
Proof.
  intros Hin.
  pose proof (row_cell cciOf cciKey controlOf PrintControl Excelify sortChecks
                printOpenCheck printPassedCheck curDate username checks ccis) as Hcell.
  rewrite (Hcell row Hin). unfold cciCell.
  split; [apply zeroPad_length|]. split; [done|]. split.
  - intros row' Hin' E. rewrite (Hcell row' Hin') in E. by apply zeroPad_number_inj in E.
  - intros Hn. split; [apply zeroPad_digits, number_digits; lia|by apply toInt_zeroPad].
Qed.

(** A check that is neither Open nor NotAFinding changes nothing. *)
Lemma classify_unreviewed maps cc :
  CKLCheck_status cc <> Open -> CKLCheck_status cc <> NotAFinding ->
  classify maps cc = maps.
Proof.
  intros H1 H2. destruct maps as [f p]. unfold WorkerEMASSReport.classify.
  by rewrite !bool_decide_eq_false_2.
Qed.


(** Property X15.  Checks that are not reviewed or not applicable have no
    effect on the report: leaving them out gives the same rows. *)
Theorem report_ignores_unreviewed_checks (checks : list CKLCheck) (ccis : list CCI) :
  process (List.filter reviewed checks) ccis = process checks ccis.
Proof.
  unfold WorkerEMASSReport.process.
  assert (H : classifyAll (List.filter reviewed checks) = classifyAll checks).
  { unfold WorkerEMASSReport.classifyAll. generalize (∅ : CCIMap, ∅ : CCIMap).
    induction checks as [|cc checks IH]; intros maps; simpl; [done|].
    destruct (reviewed cc) eqn:E; simpl; [apply IH|].
    rewrite classify_unreviewed; [apply IH| |].
    - intros Hs. unfold reviewed in E. by rewrite bool_decide_eq_true_2 in E.
    - intros Hs. unfold reviewed in E. rewrite (bool_decide_eq_true_2 (_ = NotAFinding)) in E by done.
      by rewrite orb_true_r in E. }
  by rewrite H.
Qed.

(** What the lists of the two maps hold: every check of that status mapped
    to the CCI, in the order of examination; the CCI kept is that of the
    first of them. *)
Lemma classifyAll_lists checks :
  let '(failedCCIs, passedCCIs) := classifyAll checks in
  (forall k c l, failedCCIs !! k = Some (c, l) ->
     l = checksOf Open k checks /\ exists cc, head l = Some cc /\ c = cciOf cc)
  /\ (forall k c l, passedCCIs !! k = Some (c, l) ->
     l = checksOf NotAFinding k checks /\ exists cc, head l = Some cc /\ c = cciOf cc).
Proof.
  unfold WorkerEMASSReport.classifyAll.
  induction checks as [|cc checks IH] using rev_ind.
  { simpl. split; intros ? ? ?; by rewrite lookup_empty. }
  pose proof (classifyAll_spec cciOf cciKey Excelify sortChecks printOpenCheck printPassedCheck
                username checks) as Hspec.
  unfold WorkerEMASSReport.classifyAll in Hspec.
  rewrite fold_left_app. simpl.
  destruct (fold_left classify checks (∅, ∅)) as [failedCCIs passedCCIs].
  destruct IH as (Hf & Hp). destruct Hspec as (Sf & Sp & Kf & Kp).
  assert (Hother : forall s k, ~ (CKLCheck_status cc = s /\ cciKey (cciOf cc) = k) ->
            checksOf s k (checks ++ [cc]) = checksOf s k checks).
  { intros s k Hne. rewrite List.filter_app. simpl.
    destruct (bool_decide (CKLCheck_status cc = s)) eqn:E1; simpl; [|by rewrite app_nil_r].
    destruct (Z.eqb_spec (cciKey (cciOf cc)) k); [|by rewrite app_nil_r].
    apply bool_decide_eq_true in E1. by destruct Hne. }
  assert (Hsame : forall s k, CKLCheck_status cc = s -> cciKey (cciOf cc) = k ->
            checksOf s k (checks ++ [cc]) = checksOf s k checks ++ [cc]).
  { intros s k Hs Hk. rewrite List.filter_app. simpl.
    rewrite bool_decide_eq_true_2 by done. by rewrite (proj2 (Z.eqb_eq _ _) Hk). }
  assert (Hnone : forall s k, ~ (exists x, x ∈ checks /\ cciKey (cciOf x) = k /\ CKLCheck_status x = s) ->
            checksOf s k checks = []).
  { intros s k Hn. apply filter_none. intros x Hx.
    destruct (bool_decide (CKLCheck_status x = s)) eqn:E1; [|done].
    destruct (Z.eqb_spec (cciKey (cciOf x)) k); [|done].
    apply bool_decide_eq_true in E1. destruct Hn. by exists x. }
  assert (Happend : forall s (m : CCIMap),
            CKLCheck_status cc = s ->
            (forall k, ~ is_Some (m !! k) -> k = cciKey (cciOf cc) -> checksOf s k checks = []) ->
            (forall k c l, m !! k = Some (c, l) ->
               l = checksOf s k checks /\ exists cc, head l = Some cc /\ c = cciOf cc) ->
            forall k c l, appendCheck (cciOf cc) cc m !! k = Some (c, l) ->
               l = checksOf s k (checks ++ [cc]) /\ exists cc, head l = Some cc /\ c = cciOf cc).
  { intros s m Hs Hfresh Hm k c l. unfold WorkerEMASSReport.appendCheck.
    destruct (m !! cciKey (cciOf cc)) as [[c0 l0]|] eqn:E.
    - destruct (decide (cciKey (cciOf cc) = k)) as [<-|Hne].
      + rewrite lookup_insert_eq. intros [= <- <-].
        destruct (Hm _ _ _ E) as (-> & cc0 & Hh & ->).
        split; [by rewrite Hsame|]. exists cc0. split; [|done].
        destruct (checksOf s (cciKey (cciOf cc)) checks); done.
      + rewrite lookup_insert_ne by done. intros H. destruct (Hm _ _ _ H) as [-> ?].
        split; [|done]. rewrite Hother; [done|]. by intros [_ ?].
    - destruct (decide (cciKey (cciOf cc) = k)) as [<-|Hne].
      + rewrite lookup_insert_eq. intros [= <- <-].
        split; [|by exists cc]. rewrite Hsame, Hfresh; try done.
        rewrite E. by intros [? ?].
      + rewrite lookup_insert_ne by done. intros H. destruct (Hm _ _ _ H) as [-> ?].
        split; [|done]. rewrite Hother; [done|]. by intros [_ ?]. }
  assert (Hkeep : forall s (m : CCIMap),
            CKLCheck_status cc <> s ->
            (forall k c l, m !! k = Some (c, l) ->
               l = checksOf s k checks /\ exists cc, head l = Some cc /\ c = cciOf cc) ->
            forall k c l, m !! k = Some (c, l) ->
               l = checksOf s k (checks ++ [cc]) /\ exists cc, head l = Some cc /\ c = cciOf cc).
  { intros s m Hs Hm k c l H. destruct (Hm _ _ _ H) as [-> ?]. split; [|done].
    rewrite Hother; [done|]. by intros [? _]. }
  unfold WorkerEMASSReport.classify.
  case_bool_decide as Hopen.
  - split.
    + apply (Happend Open); [done| |done].
      intros k Hk ->. apply Hnone. by rewrite <- Sf.
    + destruct (containsCCI (cciOf cc) passedCCIs).
      * intros k c l H. apply lookup_delete_Some in H as [_ H].
        apply (Hkeep NotAFinding passedCCIs); [congruence|done|done].
      * apply (Hkeep NotAFinding passedCCIs); [congruence|done].
  - case_bool_decide as Hnaf; simpl.
    + destruct (containsCCI (cciOf cc) failedCCIs) eqn:Hc; simpl.
      * split; [by apply (Hkeep Open)|].
        intros k c l H. destruct (Hp _ _ _ H) as [-> ?]. split; [|done].
        rewrite Hother; [done|]. intros [_ Hk].
        apply containsCCI_true in Hc. apply Sf in Hc.
        assert (Hs : is_Some (passedCCIs !! k)) by (by eexists).
        apply Sp in Hs as [_ Hs]. apply Hs. by rewrite <- Hk.
      * split; [by apply (Hkeep Open)|].
        apply (Happend NotAFinding); [done| |done].
        intros k Hk ->. apply Hnone. intros Hm. apply Hk, Sp. split; [done|].
        apply containsCCI_false in Hc. by rewrite <- Sf.
    + split; [by apply (Hkeep Open)|by apply (Hkeep NotAFinding)].
Qed.

(** Property X16.  The test-results cell of a Non-Compliant row lists the
    open checks of the CCI of the row, that of a Compliant row the checks of
    that CCI that are not a finding: all of them, no others, sorted. *)
Theorem report_rows_list_their_checks (checks : list CKLCheck) (ccis : list CCI) (row : Row) :
  row ∈ dataRows (process checks ccis) ->
  (col7_complianceStatus row = Q"Non-Compliant" ->
   col10_testResults row
   = Excelify (failedResults printOpenCheck
                 (sortChecks (checksOf Open (cciKey (Row_cci row)) checks))))
  /\ (col7_complianceStatus row = Q"Compliant" ->
      col10_testResults row
      = Excelify (passedResults printPassedCheck
                    (sortChecks (checksOf NotAFinding (cciKey (Row_cci row)) checks)))).
Proof.
  intros Hin.
  pose proof (elem_of_rows cciOf cciKey controlOf PrintControl Excelify sortChecks
                printOpenCheck printPassedCheck curDate username checks ccis row) as Hrows.
  pose proof (classifyAll_lists checks) as Hlists.
  pose proof (classifyAll_spec cciOf cciKey Excelify sortChecks printOpenCheck printPassedCheck
                username checks) as Hspec.
  destruct (classifyAll checks) as [failedCCIs passedCCIs].
  destruct Hlists as [Hf Hp]. destruct Hspec as (_ & _ & Kf & Kp).
  destruct status_texts_differ as (Hd1 & Hd2 & Hd3).
  destruct (proj1 Hrows Hin) as [(k & c & l & H & Hr)|[(k & c & l & H & Hr)|(c & Hc & Ho & Hr)]];
    rewrite Hr; simpl.
  - split; [|by intros ?; destruct Hd1]. intros _.
    destruct (Hf _ _ _ H) as [-> _]. by rewrite (Kf _ _ _ H).
  - split; [by intros ?; destruct Hd1|]. intros _.
    destruct (Hp _ _ _ H) as [-> _]. by rewrite (Kp _ _ _ H).
  - split; intros ?; [by destruct Hd2|by destruct Hd3].
Qed.

Lemma entries_sorted (m : CCIMap) : StronglySorted Z.lt (map fst (entries m)).
Proof.
  unfold entries. apply (orderBy_sorted fst). apply NoDup_fst_map_to_list.
Qed.

(** Property X17.  The rows come in three blocks: Non-Compliant,
    Compliant, then the old results without a status.  The first two are
    strictly ascending by CCI; the third follows the order of the stored
    CCIs. *)
Theorem report_rows_are_grouped_and_sorted (checks : list CKLCheck) (ccis : list CCI) :
  exists failed passed old,
    dataRows (process checks ccis) = failed ++ passed ++ old
    /\ Forall (fun r => col7_complianceStatus r = Q"Non-Compliant") failed
    /\ Forall (fun r => col7_complianceStatus r = Q"Compliant") passed
    /\ Forall (fun r => col7_complianceStatus r = []) old
    /\ StronglySorted Z.lt (map (fun r => cciKey (Row_cci r)) failed)
    /\ StronglySorted Z.lt (map (fun r => cciKey (Row_cci r)) passed)
    /\ map Row_cci old `sublist_of` ccis.
Proof.
  pose proof (classifyAll_spec cciOf cciKey Excelify sortChecks printOpenCheck printPassedCheck
                username checks) as Hspec.
  unfold WorkerEMASSReport.process.
  destruct (classifyAll checks) as [failedCCIs passedCCIs].
  destruct Hspec as (_ & _ & Kf & Kp). simpl.
  eexists _, _, _. split; [reflexivity|].
  assert (Hkeys : forall (m : CCIMap) (h : Z * (CCI * list CKLCheck) -> Row),
            (forall k c l, m !! k = Some (c, l) -> cciKey c = k) ->
            (forall e, Row_cci (h e) = e.2.1) ->
            map (fun r => cciKey (Row_cci r)) (map h (entries m)) = map fst (entries m)).
  { intros m h Hk Hh. rewrite map_map. apply map_ext_in. intros [k [c l]] He.
    rewrite Hh. simpl. apply (Hk k c l). apply elem_of_entries. by apply list_elem_of_In. }
  split; [|split; [|split; [|split; [|split]]]].
  - apply Forall_fmap, Forall_forall. by intros [k [c l]] _.
  - apply Forall_fmap, Forall_forall. by intros [k [c l]] _.
  - apply Forall_fmap, Forall_forall. by intros c _.
  - rewrite (Hkeys failedCCIs); [apply entries_sorted|done|by intros [k [c l]]].
  - rewrite (Hkeys passedCCIs); [apply entries_sorted|done|by intros [k [c l]]].
  - rewrite map_map. simpl. rewrite map_id. apply sublist_List_filter.
Qed.

End ReportRows.

Import WorkerSTIGAdd.

(** ** The STIG import *)

(** What [readElementText()] leaves to read is a suffix of what it was
    given. *)
Lemma readElementText_suffix acc toks :
  (readElementText acc toks).1.2 `suffix_of` toks.
Proof.
  revert acc. induction toks as [|t toks IH]; intros acc; simpl; [done|].
  destruct t; simpl; try (by apply suffix_cons_r); by apply suffix_cons_r, IH.
Qed.

Lemma Forall_suffix {A} (P : A -> Prop) (l k : list A) :
  l `suffix_of` k -> Forall P k -> Forall P l.
Proof. intros [pre ->] H. by apply Forall_app in H as [_ ?]. Qed.


Lemma nameAfterText_tag (P : QString -> Prop) (toks : list Token) :
  P [] -> Forall (fun t => P (tagName t)) toks -> P (nameAfterText toks).
Proof.
  intros H0 H. induction H as [|t toks Ht _ IH]; simpl; [done|].
  destruct t; done.
Qed.

Section ParserFacts.
Context (STIGCheck_new : Check) (GetSeverity : QString -> Severity)
        (GetCCINumber : QString -> Z) (GetCCI : Z -> CCI)
        (CleanXML : QString -> bool -> QString) (xmlTokens : QString -> list Token).

Local Abbreviation rule := (rule GetSeverity GetCCINumber GetCCI CleanXML xmlTokens).
Local Abbreviation parseRounds :=
  (parseRounds GetSeverity GetCCINumber GetCCI CleanXML xmlTokens).
Local Abbreviation ParseSTIG :=
  (ParseSTIG STIGCheck_new GetSeverity GetCCINumber GetCCI CleanXML xmlTokens).

Lemma readInto_flags (set : QString -> Parser -> Parser) rest p :
  (forall text q, p_s (set text q) = p_s q /\ p_inStigRules (set text q) = p_inStigRules q) ->
  p_s (readInto set rest p).1.1 = p_s p
  /\ p_inStigRules (readInto set rest p).1.1 = p_inStigRules p.
Proof.
  intros H. unfold readInto. destruct (readElementText [] rest) as [[text rest'] ok]. apply H.
Qed.

(** The rules part leaves the STIG and the flag [inStigRules] alone. *)
Lemma rule_keeps_STIG name attrs rest p :
  p_s (rule name attrs rest p).1.1 = p_s p
  /\ p_inStigRules (rule name attrs rest p).1.1 = p_inStigRules p.
Proof.
  unfold WorkerSTIGAdd.rule.
  set (p1 := if _ && _ then _ else p).
  assert (H1 : p_s p1 = p_s p /\ p_inStigRules p1 = p_inStigRules p).
  { unfold p1. by destruct (_ && _). }
  destruct H1 as [<- <-]. clearbody p1.
  repeat match goal with
  | |- context [if ?b then _ else _] => destruct b
  end; try done; try (apply readInto_flags; intros; done).
  - unfold beginRule. simpl. by destruct (_ =? _).
  - apply readInto_flags. intros text q. by destruct (startsWith_ci _ _).
Qed.

Lemma rule_keeps_inProfile name attrs rest p :
  p_inProfile (rule name attrs rest p).1.1 = p_inProfile p.
Proof.
  unfold WorkerSTIGAdd.rule.
  set (p1 := if _ && _ then _ else p).
  assert (H1 : p_inProfile p1 = p_inProfile p).
  { unfold p1. by destruct (_ && _). }
  destruct H1. clearbody p1.
  repeat match goal with
  | |- context [if ?b then _ else _] => destruct b
  end; try done;
    try (unfold readInto; destruct (readElementText [] rest) as [[text rest'] ok]; done).
  - unfold beginRule. simpl. by destruct (_ =? _).
  - unfold readInto. destruct (readElementText [] rest) as [[text rest'] ok]. simpl.
    by destruct (startsWith_ci _ _).
Qed.

(** Property X18.  Once the parser has met a [Profile] or the first
    [Group], the STIG (title, description, release, version) is final:
    whatever follows, no element changes it. *)
Theorem ParseSTIG_header_is_final (fuel : nat) (toks : list Token) (p : Parser) :
  p_inStigRules p = true \/ p_inProfile p = true ->
  p_s (parseRounds fuel toks p) = p_s p.
Proof.
  revert toks p. induction fuel as [|fuel IH]; intros toks p Hin; simpl; [done|].
  destruct toks as [|[name attrs|name|text| |] rest]; try done; try (by apply IH).
  pose proof (rule_keeps_STIG name attrs rest) as Hrule.
  pose proof (rule_keeps_inProfile name attrs rest) as Hprof.
  destruct (p_inStigRules p) eqn:Hrules; simpl.
  - rewrite Hrules. simpl. specialize (Hrule p). specialize (Hprof p).
    destruct (rule name attrs rest p) as [[p' rest'] ok]. simpl in *.
    destruct Hrule as [<- Hr]. destruct ok; [|done]. apply IH. left. congruence.
  - destruct Hin as [Hin|Hin]; [done|]. unfold header. rewrite Hin. simpl.
    match goal with |- context [rule _ _ _ ?q] => set (p1 := q) end.
    assert (H1 : p_s p1 = p_s p /\ (p_inStigRules p1 = true \/ p_inProfile p1 = true)).
    { unfold p1. repeat case_bool_decide; simpl; auto. }
    destruct H1 as [<- H1]. clearbody p1. rewrite andb_true_r.
    destruct (p_inStigRules p1) eqn:Hrules1.
    + specialize (Hrule p1). destruct (rule name attrs rest p1) as [[p' rest'] ok]. simpl in *.
      destruct Hrule as [<- Hr]. destruct ok; [|done]. apply IH. left. congruence.
    + apply IH. destruct H1 as [H1|H1]; [done|by right].
Qed.

Lemma readInto_suffix (set : QString -> Parser -> Parser) rest p :
  (readInto set rest p).1.2 `suffix_of` rest.
Proof.
  unfold readInto. pose proof (readElementText_suffix [] rest) as H.
  by destruct (readElementText [] rest) as [[text rest'] ok].
Qed.

Lemma readInto_keeps (Inv : Parser -> Prop) (set : QString -> Parser -> Parser) rest p :
  (forall text, Inv (set text p)) -> Inv (readInto set rest p).1.1.
Proof.
  intros H. unfold readInto. destruct (readElementText [] rest) as [[text rest'] ok]. apply H.
Qed.

Lemma vulnField_keeps_id name set text c :
  vulnField name = Some set -> chk_id (set text c) = chk_id c.
Proof.
  unfold vulnField.
  repeat (case_bool_decide; [by intros [= <-]|]). done.
Qed.

Lemma parseVulnDescription_keeps_id fuel toks c :
  chk_id (parseVulnDescription fuel toks c) = chk_id c.
Proof.
  revert toks c. induction fuel as [|fuel IH]; intros toks c; simpl; [done|].
  destruct toks as [|[name attrs|name|text| |] rest]; try done.
  destruct (vulnField name) as [set|] eqn:E; [|done].
  destruct (readElementText [] rest) as [[text rest'] ok].
  destruct ok; [rewrite IH|]; by eapply vulnField_keeps_id.
Qed.

(** The header part leaves the check and the gathered checks alone; what
    is left to read is a suffix of the input. *)
Lemma header_keeps_checks name attrs rest p :
  let r := header name attrs rest p in
  p_c r.1.1.1 = p_c p /\ p_checks r.1.1.1 = p_checks p /\ r.1.1.2 `suffix_of` rest.
Proof.
  unfold header.
  set (r1 := if negb (p_inProfile p) then _ else _).
  assert (H1 : p_c r1.1.1.1 = p_c p /\ p_checks r1.1.1.1 = p_checks p
               /\ r1.1.1.2 `suffix_of` rest).
  { unfold r1. destruct (negb (p_inProfile p)); [|done].
    repeat match goal with
    | |- context [if ?b then _ else _] => destruct b
    end; try done; simpl;
      try (split; [by apply readInto_keeps|split; [by apply readInto_keeps|apply readInto_suffix]]).
    unfold releaseInfo. destruct (List.filter _ attrs) as [|? [|? ?]]; [done| |].
    - pose proof (readInto_keeps (fun q => p_c q = p_c p /\ p_checks q = p_checks p)
                    (fun text => set_s (set_STIG_release (trimmed text))) rest p) as Hk.
      pose proof (readInto_suffix (fun text => set_s (set_STIG_release (trimmed text))) rest p).
      destruct (readInto _ rest p) as [[? ?] ?]. simpl in *. destruct Hk; done.
    - pose proof (readInto_keeps (fun q => p_c q = p_c p /\ p_checks q = p_checks p)
                    (fun text => set_s (set_STIG_release [])) rest p) as Hk.
      pose proof (readInto_suffix (fun text => set_s (set_STIG_release [])) rest p).
      destruct (readInto _ rest p) as [[? ?] ?]. simpl in *. destruct Hk; done. }
  destruct r1 as [[[p1 rest1] ok] moved]. simpl in *.
  destruct H1 as (<- & <- & ?).
  repeat match goal with
  | |- context [if ?b then _ else _] => destruct b
  end; done.
Qed.

Lemma rule_keeps_checks name attrs rest p :
  name <> Q"Rule" ->
  let r := rule name attrs rest p in
  p_checks r.1.1 = p_checks p /\ chk_id (p_c r.1.1) = chk_id (p_c p)
  /\ r.1.2 `suffix_of` rest.
Proof.
  intros Hname. unfold WorkerSTIGAdd.rule.
  set (p1 := if _ && _ then _ else p).
  assert (H1 : p_checks p1 = p_checks p /\ chk_id (p_c p1) = chk_id (p_c p)).
  { unfold p1. by destruct (_ && _). }
  destruct H1 as [<- <-]. clearbody p1.
  rewrite (bool_decide_eq_false_2 (name = Q"Rule")) by done. cbn [andb].
  repeat match goal with
  | |- context [if ?b then _ else _] => destruct b
  end; try done;
    (split; [|split; [|apply readInto_suffix]]); apply readInto_keeps; intros text; try done.
  - simpl. apply parseVulnDescription_keeps_id.
  - by destruct (startsWith_ci _ _).
  - by destruct (startsWith_ci _ _).
Qed.

Lemma header_flag name attrs rest p :
  name <> Q"Group" -> nameAfterText rest <> Q"Group" ->
  p_inStigRules (header name attrs rest p).1.1.1 = p_inStigRules p.
Proof.
  intros Hname Hrest. unfold header.
  set (r1 := if negb (p_inProfile p) then _ else _).
  assert (H1 : p_inStigRules r1.1.1.1 = p_inStigRules p).
  { unfold r1. destruct (negb (p_inProfile p)); [|done].
    repeat match goal with
    | |- context [if ?b then _ else _] => destruct b
    end; try done; simpl; try (by apply readInto_keeps).
    unfold releaseInfo. destruct (List.filter _ attrs) as [|? [|? ?]]; [done| |].
    - pose proof (readInto_keeps (fun q => p_inStigRules q = p_inStigRules p)
                    (fun text => set_s (set_STIG_release (trimmed text))) rest p) as Hk.
      destruct (readInto _ rest p) as [[? ?] ?]. simpl in *. by apply Hk.
    - pose proof (readInto_keeps (fun q => p_inStigRules q = p_inStigRules p)
                    (fun text => set_s (set_STIG_release [])) rest p) as Hk.
      destruct (readInto _ rest p) as [[? ?] ?]. simpl in *. by apply Hk. }
  destruct r1 as [[[p1 rest1] ok] moved]. simpl in *. rewrite <- H1.
  destruct moved.
  - rewrite (bool_decide_eq_false_2 (nameAfterText rest = Q"Group")) by done.
    by destruct (bool_decide _).
  - rewrite (bool_decide_eq_false_2 (name = Q"Group")) by done.
    by destruct (bool_decide _).
Qed.

Lemma parseRounds_without_Rule fuel toks p :
  Forall (fun t => isStartOf (Q"Rule") t = false) toks ->
  p_checks (parseRounds fuel toks p) = p_checks p
  /\ chk_id (p_c (parseRounds fuel toks p)) = chk_id (p_c p).
Proof.
  revert toks p. induction fuel as [|fuel IH]; intros toks p Hall; simpl; [done|].
  destruct toks as [|t rest]; [done|]. apply Forall_cons in Hall as [Ht Hall].
  destruct t as [name attrs|name|text| |]; try done; try (by apply IH).
  simpl in Ht. apply bool_decide_eq_false in Ht.
  pose proof (header_keeps_checks name attrs rest p) as Hh. cbv zeta in Hh.
  set (r1 := if negb (p_inStigRules p) then _ else _).
  assert (H1 : p_c r1.1.1.1 = p_c p /\ p_checks r1.1.1.1 = p_checks p
               /\ r1.1.1.2 `suffix_of` rest).
  { unfold r1. by destruct (negb (p_inStigRules p)). }
  destruct r1 as [[[p1 rest1] ok1] moved]. simpl in H1. destruct H1 as (Hc1 & Hk1 & Hs1).
  pose proof (rule_keeps_checks name attrs rest1 p1 Ht) as Hr. cbv zeta in Hr.
  set (r2 := if p_inStigRules p1 && negb moved then _ else _).
  assert (H2 : p_checks r2.1.1 = p_checks p /\ chk_id (p_c r2.1.1) = chk_id (p_c p)
               /\ r2.1.2 `suffix_of` rest).
  { unfold r2. destruct (_ && _); simpl.
    - destruct Hr as (-> & -> & Hs). rewrite Hk1, Hc1. split; [done|]. split; [done|]. by etrans.
    - by rewrite Hk1, Hc1. }
  destruct r2 as [[p2 rest2] ok2]. simpl in H2. destruct H2 as (<- & <- & Hs2).
  destruct ok2; [|done]. apply IH. by eapply Forall_suffix.
Qed.

Lemma parseRounds_without_Group fuel toks p :
  Forall (fun t => tagName t <> Q"Group") toks ->
  p_inStigRules p = false ->
  p_inStigRules (parseRounds fuel toks p) = false
  /\ p_checks (parseRounds fuel toks p) = p_checks p.
Proof.
  revert toks p. induction fuel as [|fuel IH]; intros toks p Hall Hin; simpl; [done|].
  destruct toks as [|t rest]; [done|]. apply Forall_cons in Hall as [Ht Hall].
  destruct t as [name attrs|name|text| |]; try done; try (by apply IH).
  simpl in Ht. rewrite Hin. simpl.
  pose proof (header_keeps_checks name attrs rest p) as Hh. cbv zeta in Hh.
  pose proof (header_flag name attrs rest p Ht) as Hf.
  destruct (header name attrs rest p) as [[[p1 rest1] ok1] moved]. simpl in *.
  destruct Hh as (_ & <- & Hs).
  rewrite Hf, Hin by (by apply (nameAfterText_tag (fun n => n <> Q"Group"))).
  simpl. destruct ok1; [|by rewrite Hf by (by apply (nameAfterText_tag (fun n => n <> Q"Group")))].
  apply IH; [by eapply Forall_suffix|].
  rewrite Hf by (by apply (nameAfterText_tag (fun n => n <> Q"Group"))). done.
Qed.

(** Property X19.  A benchmark without a [Rule] element yields no check,
    or, when the rules part was entered, the single check that no rule ever
    began (its id is -1); a benchmark without a [Group] element yields no
    check at all. *)
Theorem ParseSTIG_without_Rule (toks : list Token) :
  (Forall (fun t => isStartOf (Q"Rule") t = false) toks ->
   (ParseSTIG toks).2 = []
   \/ exists c, (ParseSTIG toks).2 = [c] /\ chk_id c = -1)
  /\ (Forall (fun t => tagName t <> Q"Group") toks -> (ParseSTIG toks).2 = []).
Proof.
  unfold WorkerSTIGAdd.ParseSTIG, parse. cbv zeta. split.
  - intros Hall.
    destruct (parseRounds_without_Rule (length toks) toks
                (mkParser STIG_default (set_chk_id (-1) STIGCheck_new) [] false false false) Hall)
      as [Hk Hid].
    simpl in Hk, Hid. simpl. rewrite Hk.
    destruct (p_inStigRules _); [right|by left]. by eexists.
  - intros Hall.
    destruct (parseRounds_without_Group (length toks) toks
                (mkParser STIG_default (set_chk_id (-1) STIGCheck_new) [] false false false) Hall)
      as [Hf Hk]; [done|].
    simpl in *. by rewrite Hf, Hk.
Qed.

(** *** A benchmark of the expected shape *)

Local Abbreviation rulePart := (rulePart GetSeverity GetCCINumber GetCCI CleanXML xmlTokens).
Local Abbreviation checksFrom :=
  (checksFrom GetSeverity GetCCINumber GetCCI CleanXML xmlTokens).
Local Abbreviation parse := (parse GetSeverity GetCCINumber GetCCI CleanXML xmlTokens).

Lemma rule_suffix name attrs rest p :
  (rule name attrs rest p).1.2 `suffix_of` rest.
Proof.
  unfold WorkerSTIGAdd.rule.
  repeat match goal with
  | |- context [if ?b then _ else _] => destruct b
  end; try done; apply readInto_suffix.
Qed.

(** Every round reads at least one token: fuel beyond the number of tokens
    is never used. *)
Lemma parseRounds_enough (fuel1 fuel2 : nat) (toks : list Token) (p : Parser) :
  (length toks <= fuel1)%nat -> (length toks <= fuel2)%nat ->
  parseRounds fuel1 toks p = parseRounds fuel2 toks p.
Proof.
  revert fuel2 toks p. induction fuel1 as [|fuel1 IH]; intros fuel2 toks p H1 H2.
  { destruct toks; [|simpl in H1; lia]. by destruct fuel2. }
  destruct fuel2 as [|fuel2].
  { destruct toks; [done|simpl in H2; lia]. }
  destruct toks as [|t rest]; [done|]. simpl in H1, H2.
  destruct t as [name attrs|name|text| |]; simpl; try done; try (apply IH; lia).
  pose proof (header_keeps_checks name attrs rest p) as Hh. cbv zeta in Hh.
  set (r1 := if negb (p_inStigRules p) then _ else _).
  assert (Hs1 : r1.1.1.2 `suffix_of` rest).
  { unfold r1. destruct (negb (p_inStigRules p)); [apply Hh|done]. }
  destruct r1 as [[[p1 rest1] ok1] moved]. simpl in Hs1.
  pose proof (rule_suffix name attrs rest1 p1) as Hr.
  set (r2 := if p_inStigRules p1 && negb moved then _ else _).
  assert (Hs2 : r2.1.2 `suffix_of` rest).
  { unfold r2. destruct (_ && _); [by etrans|done]. }
  destruct r2 as [[p2 rest2] ok2]. simpl in Hs2.
  destruct ok2; [|done]. apply suffix_length in Hs2. apply IH; lia.
Qed.

Lemma parse_nil p : parse [] p = p.
Proof. done. Qed.

Lemma parse_End name rest p : parse (EndElement name :: rest) p = parse rest p.
Proof. done. Qed.

Lemma parse_Characters text rest p : parse (Characters text :: rest) p = parse rest p.
Proof. done. Qed.

Lemma parse_header name attrs rest p :
  p_inStigRules p = false ->
  parse (StartElement name attrs :: rest) p
  = let '(p1, rest1, ok1, moved) := header name attrs rest p in
    let '(p2, rest2, ok2) :=
      if p_inStigRules p1 && negb moved then rule name attrs rest1 p1 else (p1, rest1, ok1) in
    if ok2 then parse rest2 p2 else p2.
Proof.
  intros Hin. unfold WorkerSTIGAdd.parse. simpl. rewrite Hin. simpl.
  pose proof (header_keeps_checks name attrs rest p) as Hh. cbv zeta in Hh.
  destruct (header name attrs rest p) as [[[p1 rest1] ok1] moved]. simpl in Hh.
  destruct Hh as (_ & _ & Hs1).
  pose proof (rule_suffix name attrs rest1 p1) as Hr.
  set (r2 := if p_inStigRules p1 && negb moved then _ else _).
  assert (Hs2 : r2.1.2 `suffix_of` rest).
  { unfold r2. destruct (_ && _); [by etrans|done]. }
  destruct r2 as [[p2 rest2] ok2]. simpl in Hs2.
  destruct ok2; [|done]. apply suffix_length in Hs2. by apply parseRounds_enough.
Qed.

Lemma parse_rule name attrs rest p :
  p_inStigRules p = true ->
  parse (StartElement name attrs :: rest) p
  = let '(p2, rest2, ok2) := rule name attrs rest p in
    if ok2 then parse rest2 p2 else p2.
Proof.
  intros Hin. unfold WorkerSTIGAdd.parse. simpl. rewrite Hin. simpl. rewrite Hin. simpl.
  pose proof (rule_suffix name attrs rest p) as Hs2.
  destruct (rule name attrs rest p) as [[p2 rest2] ok2]. simpl in Hs2.
  destruct ok2; [|done]. apply suffix_length in Hs2. by apply parseRounds_enough.
Qed.

(** Tests on the names of the tags are decided by computation. *)
Ltac closed_bools :=
  repeat match goal with
  | |- context [bool_decide (?a = ?b)] =>
      let v := eval vm_compute in (bool_decide (a = b)) in
      match v with true => idtac | false => idtac end;
      change (bool_decide (a = b)) with v
  | |- context [hasAttribute ?a ?l] =>
      let v := eval vm_compute in (hasAttribute a l) in
      match v with true => idtac | false => idtac end;
      change (hasAttribute a l) with v
  end.

Ltac reduce :=
  repeat first
    [ progress (cbn [readElementText nameAfterText app List.filter fst snd fold_left
                     negb andb p_s p_c p_checks p_inStigRules p_inProfile p_inGroup
                     chk_id])
    | progress closed_bools ].

Ltac evaluate :=
  unfold WorkerSTIGAdd.header, WorkerSTIGAdd.rule; reduce;
  unfold beginRule, releaseInfo, readInto, attributeValue; reduce;
  unfold set_s, set_c, set_inStigRules, set_inProfile, set_inGroup; reduce.

(** One round of the loop on the token at the head of the input. *)
Ltac round :=
  lazymatch goal with
  | |- context [parse (EndElement _ :: _) _] => rewrite parse_End
  | |- context [parse (Characters _ :: _) _] => rewrite parse_Characters
  | |- context [parse (StartElement _ _ :: _) (mkParser _ _ _ true _ _)] =>
      rewrite parse_rule by reflexivity
  | |- context [parse (StartElement _ _ :: _) (mkParser _ _ _ false _ _)] =>
      rewrite parse_header by reflexivity
  end; evaluate.

(** The header elements. *)
Lemma header_run (h : HeaderData) (rest : list Token) (c : Check) :
  parse ([StartElement (Q"Benchmark") []]
         ++ textElement (Q"title") [] (h_title h)
         ++ textElement (Q"description") [] (h_description h)
         ++ textElement (Q"plain-text") [(Q"id", Q"release-info")] (h_release h)
         ++ textElement (Q"version") [] (h_version h) ++ rest)
        (mkParser STIG_default c [] false false false)
  = parse rest (mkParser (headerOf h) c [] false false false).
Proof.
  unfold textElement. cbn [app]. by do 5 round.
Qed.

(** A profile: its title is not read. *)
Lemma profiles_run (titles : list QString) rest s c checks prof grp :
  parse (flat_map profileTokens titles ++ rest) (mkParser s c checks false prof grp)
  = parse rest (mkParser s c checks false
                         (if titles is [] then prof else true) grp).
Proof.
  revert prof. induction titles as [|title titles IH]; intros prof; [done|].
  cbn [flat_map]. unfold profileTokens, textElement. rewrite <- !app_assoc. cbn [app].
  destruct prof; repeat round; rewrite IH; by destruct titles.
Qed.

(** A [Group] with its [Rule], met with the check [c] in hand. *)
Lemma rule_run (r : RuleData) rest s c checks rules prof grp :
  parse (ruleTokens r ++ rest) (mkParser s c checks rules prof grp)
  = parse rest (mkParser s (rulePart r (groupPart r c))
                         (checks ++ (if chk_id c =? 0 then [groupPart r c] else []))
                         true prof false).
Proof.
  destruct r as [vulnNum groupTitle groupDescription rule severity weight title
                 description ident fixtext ref content].
  unfold ruleTokens, textElement, WorkerSTIGAdd.rulePart, groupPart.
  cbn [r_vulnNum r_groupTitle r_groupDescription r_rule r_severity r_weight r_title
       r_description r_ident r_fixtext r_checkContentRef r_checkContent].
  rewrite <- !app_assoc. cbn [app].
  assert (Hgroup : forall rest',
    parse (StartElement (Q"Group") [(Q"id", vulnNum)] :: rest')
          (mkParser s c checks rules prof grp)
    = parse rest' (mkParser s (set_chk_vulnNum (trimmed vulnNum) c) checks true prof true)).
  { intros rest'. destruct rules; [by round|]. destruct prof; by round. }
  rewrite Hgroup. clear Hgroup. do 5 round.
  replace (chk_id (set_chk_groupTitle (trimmed groupTitle)
                     (set_chk_vulnNum (trimmed vulnNum) c))) with (chk_id c) by done.
  destruct (chk_id c =? 0) eqn:Hid; cbn [p_s p_c p_checks p_inStigRules p_inProfile p_inGroup];
    rewrite ?app_nil_r;
    (destruct ident as [i|];
       [destruct (startsWith_ci (Q"CCI") (trimmed i)) eqn:Hcci|]);
    destruct description, fixtext, ref, content; cbn [optionalElement app];
    repeat (round; try rewrite Hcci; reduce); reflexivity.
Qed.

Lemma vulnField_keeps name set text c :
  vulnField name = Some set ->
  chk_id (set text c) = chk_id c /\ chk_rule (set text c) = chk_rule c
  /\ chk_vulnNum (set text c) = chk_vulnNum c.
Proof.
  unfold vulnField.
  repeat (case_bool_decide; [by intros [= <-]|]). done.
Qed.

Lemma parseVulnDescription_keeps {A} (f : Check -> A) fuel toks c :
  (forall name set text c, vulnField name = Some set -> f (set text c) = f c) ->
  f (parseVulnDescription fuel toks c) = f c.
Proof.
  intros Hf. revert toks c. induction fuel as [|fuel IH]; intros toks c; simpl; [done|].
  destruct toks as [|[name attrs|name|text| |] rest]; try done.
  destruct (vulnField name) as [set|] eqn:E; [|done].
  destruct (readElementText [] rest) as [[text rest'] ok].
  destruct ok; [rewrite IH|]; by eapply Hf.
Qed.

Lemma rulePart_fields (r : RuleData) (c : Check) :
  chk_id (rulePart r c) = 0
  /\ chk_rule (rulePart r c) = trimmed (r_rule r)
  /\ chk_vulnNum (rulePart r c) = chk_vulnNum c.
Proof.
  unfold WorkerSTIGAdd.rulePart. cbv zeta.
  set (c1 := set_chk_title _ _).
  set (c2 := match r_description r with Some _ => _ | None => _ end).
  assert (H2 : chk_id c2 = 0 /\ chk_rule c2 = trimmed (r_rule r)
               /\ chk_vulnNum c2 = chk_vulnNum c).
  { unfold c2. destruct (r_description r); [|done].
    rewrite (parseVulnDescription_keeps chk_id), (parseVulnDescription_keeps chk_rule),
      (parseVulnDescription_keeps chk_vulnNum);
      [done|intros name set text c0 E; by destruct (vulnField_keeps name set text c0 E) as (?&?&?)..]. }
  clearbody c2. clear c1.
  destruct (r_ident r); [destruct (startsWith_ci _ _)|];
    destruct (r_fixtext r), (r_checkContentRef r), (r_checkContent r); exact H2.
Qed.

(** The rules that follow a rule already begun. *)
Lemma rules_run (rules : list RuleData) rest s c checks prof grp :
  chk_id c = 0 ->
  exists c' checks' grp',
    parse (flat_map ruleTokens rules ++ rest) (mkParser s c checks true prof grp)
    = parse rest (mkParser s c' checks' true prof grp')
    /\ checks' ++ [c'] = checks ++ checksFrom c rules.
Proof.
  revert c checks grp. induction rules as [|r rules IH]; intros c checks grp Hid.
  { by exists c, checks, grp. }
  cbn [flat_map]. rewrite <- app_assoc, rule_run, Hid. cbn [Z.eqb].
  destruct (IH (rulePart r (groupPart r c)) (checks ++ [groupPart r c]) false)
    as (c' & checks' & grp' & -> & Heq); [apply rulePart_fields|].
  exists c', checks', grp'. split; [done|]. rewrite Heq, <- app_assoc. done.
Qed.

(** The whole benchmark, when it has a rule. *)
Lemma benchmark_run (h : HeaderData) (r : RuleData) (rules : list RuleData) :
  exists c' checks' prof' grp',
    parse (benchmark h (r :: rules))
          (mkParser STIG_default (set_chk_id (-1) STIGCheck_new) [] false false false)
    = mkParser (headerOf h) c' checks' true prof' grp'
    /\ checks' ++ [c']
       = checksFrom (rulePart r (groupPart r (set_chk_id (-1) STIGCheck_new))) rules.
Proof.
  unfold benchmark.
  rewrite header_run, profiles_run.
  cbn [flat_map]. rewrite <- app_assoc, rule_run. cbn [chk_id set_chk_id Z.eqb].
  rewrite app_nil_r.
  destruct (rules_run rules [EndElement (Q"Benchmark")] (headerOf h)
              (rulePart r (groupPart r (set_chk_id (-1) STIGCheck_new))) []
              (if h_profiles h is [] then false else true) false)
    as (c' & checks' & grp' & -> & Heq); [apply rulePart_fields|].
  rewrite parse_End, parse_nil. by eexists _, _, _, _.
Qed.

(** Property X20.  For a benchmark of the expected shape [ParseSTIG]
    reads the STIG off the header elements, skipping the titles of the
    profiles, and returns one check per [Rule], in document order.  Each is
    what the elements of its rule make of the check before it (an element a
    rule lacks leaves the value of the rule before), and every check but
    the last is handed on with the id and the title of the [Group] that
    follows it. *)
Theorem ParseSTIG_benchmark (h : HeaderData) (rules : list RuleData) :
  ParseSTIG (benchmark h rules)
  = (headerOf h,
     match rules with
     | [] => []
     | r :: rules =>
         checksFrom (rulePart r (groupPart r (set_chk_id (-1) STIGCheck_new))) rules
     end).
Proof.
  unfold WorkerSTIGAdd.ParseSTIG. cbv zeta.
  destruct rules as [|r rules].
  - unfold benchmark. rewrite header_run, profiles_run.
    cbn [flat_map app]. by rewrite parse_End, parse_nil.
  - destruct (benchmark_run h r rules) as (c' & checks' & prof' & grp' & -> & Heq).
    cbn [p_s p_c p_checks p_inStigRules]. by rewrite Heq.
Qed.

Lemma last_cons {A} (a d : A) (l : list A) : List.last (a :: l) d = List.last l a.
Proof.
  revert a d. induction l as [|b l IH]; intros a d; [done|].
  change (List.last (a :: b :: l) d) with (List.last (b :: l) d). by rewrite !IH.
Qed.

Lemma checksFrom_rules (c : Check) (rules : list RuleData) :
  map chk_rule (checksFrom c rules)
  = chk_rule c :: map (fun r => trimmed (r_rule r)) rules.
Proof.
  revert c. induction rules as [|r rules IH]; intros c; [done|].
  cbn [WorkerSTIGAdd.checksFrom map]. rewrite IH.
  by destruct (rulePart_fields r (groupPart r c)) as (_ & -> & _).
Qed.

Lemma checksFrom_vulnNums (c : Check) (rules : list RuleData) :
  map chk_vulnNum (checksFrom c rules)
  = map (fun r => trimmed (r_vulnNum r)) rules
    ++ [List.last (map (fun r => trimmed (r_vulnNum r)) rules) (chk_vulnNum c)].
Proof.
  revert c. induction rules as [|r rules IH]; intros c; [done|].
  cbn [WorkerSTIGAdd.checksFrom map]. rewrite IH, last_cons.
  by destruct (rulePart_fields r (groupPart r c)) as (_ & _ & ->).
Qed.

(** Property X21.  The checks of a benchmark of the expected shape carry
    the ids of its rules, in document order, but their [Group] ids are
    shifted by one: each check but the last has the id of the next [Group],
    the last one its own. *)
Theorem ParseSTIG_shifts_Group_ids (h : HeaderData) (r : RuleData) (rules : list RuleData) :
  let checks := (ParseSTIG (benchmark h (r :: rules))).2 in
  map chk_rule checks = map (fun r => trimmed (r_rule r)) (r :: rules)
  /\ map chk_vulnNum checks
     = map (fun r => trimmed (r_vulnNum r)) (rules ++ [List.last rules r]).
Proof.
  cbv zeta. unfold WorkerSTIGAdd.ParseSTIG. cbv zeta.
  destruct (benchmark_run h r rules) as (c' & checks' & prof' & grp' & -> & Heq).
  cbn [snd p_c p_checks p_inStigRules]. rewrite Heq.
  rewrite checksFrom_rules, checksFrom_vulnNums.
  destruct (rulePart_fields r (groupPart r (set_chk_id (-1) STIGCheck_new)))
    as (_ & -> & ->).
  split; [done|]. rewrite map_app. cbn [map groupPart chk_vulnNum set_chk_groupTitle set_chk_vulnNum].
  f_equal. f_equal. clear. revert r. induction rules as [|r' rules IH]; intros r; [done|].
  cbn [map]. rewrite !last_cons. apply IH.
Qed.

End ParserFacts.

(** ** The properties on the sample data *)

(** Property X1 on the sample database: a new Asset. *)
Lemma AddAsset_then_GetAsset_sample :
  exists a s',
    AddAsset asset_NEW sampleState = ((true, a), s')
    /\ Asset_id a = 2
    /\ GetAsset_hostName (Q"NEW") s' = (a, s').
Proof.
  assert (H : Asset_hostName asset_NEW ∉ map Asset_hostName (rows (tblAsset (db sampleState))))
    by by_computation.
  destruct (AddAsset_then_GetAsset sampleState asset_NEW H) as (a & s' & H1 & H2 & _ & _ & H5).
  exists a, s'. split; [exact H1|]. split; [by rewrite H2|exact H5].
Defined.

(** Property X2 on the sample database: the Asset TEST a second time. *)
Lemma AddAsset_keeps_hostNames_unique_sample :
  AddAsset asset_TEST sampleState
  = ((false, asset_TEST), warned "Asset Already Exists" sampleState).
Proof.
  assert (H : NoDup (map Asset_hostName (rows (tblAsset (db sampleState)))))
    by by_computation.
  apply (proj2 (AddAsset_keeps_hostNames_unique sampleState asset_TEST H)).
  by_computation.
Defined.

(** Property X4 on the sample database and a list that names CCI-000002
    twice. *)
Lemma importCCIs_keeps_numbers_unique_sample :
  NoDup (map CCI_cci (rows (tblCCI (db (importCCIs [item_2; item_2] sampleState).2)))).
Proof.
  assert (H : NoDup (map CCI_cci (rows (tblCCI (db sampleState))))) by by_computation.
  exact (proj1 (importCCIs_keeps_numbers_unique [item_2; item_2] sampleState H)).
Defined.

(** Property X5 on the same list. *)
Lemma first_reference_of_a_CCI_wins_sample :
  exists id,
    List.filter (fun r => CCI_cci r =? 2)
                (rows (tblCCI (db (importCCIs [item_2; item_2] sampleState).2)))
    = [mkCCI id 1 2 (Q"A definition.") false [] [] [] []].
Proof.
  apply (first_reference_of_a_CCI_wins [item_2; item_2] sampleState [] [row_2] row_2).
  - by_computation.
  - by vm_compute.
  - by_computation.
  - by_computation.
Defined.

(** Property X6 on the mapped sample database: the second check is
    reviewed. *)
Lemma UpdateCKLCheck_then_GetCKLCheck_sample :
  exists r',
    GetCKLCheck reviewed_2 (UpdateCKLCheck reviewed_2 mappedState).2
    = (r', (UpdateCKLCheck reviewed_2 mappedState).2)
    /\ CKLCheck_status r' = Open
    /\ CKLCheck_findingDetails r' = Q"Setting is missing.".
Proof.
  assert (H1 : resetEvaluation reviewed_2 ∈ rows (tblCKLCheck (db mappedState)))
    by by_computation.
  assert (H2 : if CKLCheck_id reviewed_2 >? 0
               then CKLCheck_id (resetEvaluation reviewed_2) = CKLCheck_id reviewed_2
               else CKLCheck_assetId (resetEvaluation reviewed_2) = CKLCheck_assetId reviewed_2
                    /\ CKLCheck_stigCheckId (resetEvaluation reviewed_2)
                       = CKLCheck_stigCheckId reviewed_2)
    by reflexivity.
  destruct (UpdateCKLCheck_then_GetCKLCheck mappedState reviewed_2 _ H1 H2)
    as (_ & _ & r' & Hget & _ & Hs & Hf & _).
  exists r'. split; [exact Hget|]. split; [exact Hs|exact Hf].
Defined.

(** Property X7 on the sample database, where nothing is mapped. *)
Lemma DeleteSTIG_unused_removes_checks_sample :
  exists s',
    DeleteSTIG stig_win10 sampleState = (true, s')
    /\ rows (tblSTIG (db s')) = []
    /\ rows (tblSTIGCheck (db s')) = [].
Proof.
  assert (H1 : stig_win10 ∈ rows (tblSTIG (db sampleState))) by by_computation.
  assert (H2 : forall l, l ∈ rows (tblAssetSTIG (db sampleState)) ->
                 AssetSTIG_STIGId l <> STIG_id stig_win10).
  { intros l Hl. by apply elem_of_nil in Hl. }
  destruct (DeleteSTIG_unused_removes_checks sampleState stig_win10 H1 H2)
    as (s' & Hrun & _ & Hs & Hc & _).
  exists s'. split; [exact Hrun|]. by rewrite Hs, Hc.
Defined.

(** Property X8 on the sample database. *)
Lemma AddSTIGToAsset_then_DeleteSTIGFromAsset_sample :
  exists s1 s2,
    AddSTIGToAsset stig_win10 asset_TEST sampleState = (true, s1)
    /\ DeleteSTIGFromAsset stig_win10 asset_TEST s1 = (true, s2)
    /\ rows (tblAssetSTIG (db s2)) = []
    /\ rows (tblCKLCheck (db s2)) = [].
Proof.
  assert (H : forall l, l ∈ rows (tblAssetSTIG (db sampleState)) ->
                ~ (AssetSTIG_AssetId l = Asset_id asset_TEST
                   /\ AssetSTIG_STIGId l = STIG_id stig_win10)).
  { intros l Hl. by apply elem_of_nil in Hl. }
  assert (H1 : asset_TEST ∈ rows (tblAsset (db sampleState))) by by_computation.
  assert (H2 : stig_win10 ∈ rows (tblSTIG (db sampleState))) by by_computation.
  destruct (AddSTIGToAsset_then_DeleteSTIGFromAsset sampleState stig_win10 asset_TEST
              H1 eq_refl H2 eq_refl H eq_refl)
    as (s1 & s2 & Ha & Hd & Hl & Hc & _).
  exists s1, s2. split; [exact Ha|]. split; [exact Hd|]. by rewrite Hl, Hc.
Defined.

(** Property X9 on the mapped sample database. *)
Lemma deleteAssets_deletes_every_Asset_sample :
  rows (tblAsset (db (deleteAssets mappedState).2)) = []
  /\ notices (deleteAssets mappedState).2 = [].
Proof.
  assert (H1 : NoDup (map Asset_id (rows (tblAsset (db mappedState))))) by by_computation.
  assert (H2 : Forall (fun a => 0 < Asset_id a) (rows (tblAsset (db mappedState))))
    by by_computation.
  assert (H3 : Forall (fun st => 0 < STIG_id st) (rows (tblSTIG (db mappedState))))
    by by_computation.
  destruct (deleteAssets_deletes_every_Asset mappedState H1 H2 H3)
    as (Ha & _ & _ & _ & _ & Hn).
  split; [exact Ha|exact Hn].
Defined.

(** Property X10 on the mapped sample database: the STIG is in use. *)
Lemma DeleteSTIGs_keeps_STIGs_in_use_sample :
  tblAsset (db (DeleteSTIGs [stig_win10] mappedState).2) = tblAsset (db mappedState)
  /\ notices (DeleteSTIGs [stig_win10] mappedState).2
     = notices mappedState
       ++ map (fun _ => mkNotice "STIG In Use" false)
              (List.filter (fun x => inUse x (db mappedState)) [stig_win10]).
Proof.
  assert (H1 : NoDup (map STIG_id [stig_win10])) by by_computation.
  assert (H2 : Forall (fun x => x ∈ rows (tblSTIG (db mappedState))) [stig_win10])
    by by_computation.
  destruct (DeleteSTIGs_keeps_STIGs_in_use mappedState [stig_win10] H1 H2)
    as (_ & _ & Ha & _ & _ & Hn).
  split; [exact Ha|exact Hn].
Defined.

(** Property X11 on the sample database: the control AC-3 (2). *)
Lemma AddControl_then_GetControl_sample :
  exists s',
    AddControl (referenceIndex (Q"AC") 3 (Some 2)) (Q"ACCESS ENFORCEMENT") [] sampleState
    = (true, s')
    /\ GetControl_name (controlOfIndex (referenceIndex (Q"AC") 3 (Some 2))) (db s')
       = mkControl 2 1 3 2 (Q"ACCESS ENFORCEMENT") [].
Proof.
  assert (He : forall e, Some 2 = Some e -> 0 < e <= INT_MAX).
  { intros e [= <-]. by_computation. }
  assert (Hn : 0 <= 3 <= INT_MAX) by by_computation.
  assert (Hd : NoDup (map Family_acronym (rows (tblFamily (db sampleState)))))
    by by_computation.
  assert (Hf : family_AC ∈ rows (tblFamily (db sampleState))) by by_computation.
  assert (Hi : 0 <= Family_id family_AC) by by_computation.
  assert (Hc : forall r, r ∈ rows (tblControl (db sampleState)) ->
             ~ (Control_familyId r = Family_id family_AC /\ Control_number r = 3
                /\ forall e, Some 2 = Some e -> Control_enhancement r = e)).
  { intros r Hr (_ & Hnum & _). apply list_elem_of_singleton in Hr. by subst r. }
  destruct (AddControl_then_GetControl sampleState "A"%char "C"%char 3 (Some 2)
              (Q"ACCESS ENFORCEMENT") [] family_AC eq_refl eq_refl Hn He Hd Hf eq_refl Hi Hc)
    as (s' & Hrun & _ & _ & Hget).
  exists s'. split; [exact Hrun|exact Hget].
Defined.

(** Property X12 on the sample database: a name that is too short. *)
Lemma AddControl_refuses_bad_names_sample :
  AddControl (Q"AC") [] [] sampleState = (false, warned "Control Does Not Exist" sampleState).
Proof.
  apply (proj1 (AddControl_refuses_bad_names sampleState (Q"AC") [] [])).
  by_computation.
Defined.

(** Property X13 on the sample database: a second STIG with one check,
    whose thirdPartyTools reads back as its responsibility. *)
Lemma AddSTIG_stores_STIG_and_checks_sample :
  exists s',
    AddSTIG stig_rhel7 [check_new] false sampleState = (true, s')
    /\ map STIG_id (rows (tblSTIG (db s'))) = [1; 2]
    /\ map STIGCheck_thirdPartyTools (rows (tblSTIGCheck (db s'))) = [[]; []; Q"scanner"]
    /\ map STIGCheck_thirdPartyTools
           (GetSTIGChecks (mkSTIG 2 (Q"Red Hat 7") [] (Q"Release: 2") 2 (Q"RHEL_7_STIG")
                                  (Q"U_RHEL_7.zip")) (db s'))
       = [Q"System Administrator"]
    /\ delayCommit s' = false.
Proof.
  assert (H1 : STIG_id stig_rhel7 <= 0) by by_computation.
  assert (H2 : 0 <= sequence (tblSTIG (db sampleState))) by by_computation.
  assert (H3 : forall x, x ∈ rows (tblSTIG (db sampleState)) ->
             ~ (STIG_title x = STIG_title stig_rhel7 /\ STIG_version x = STIG_version stig_rhel7
                /\ STIG_release x = STIG_release stig_rhel7)).
  { apply Forall_forall. by_computation. }
  assert (H4 : forall c, c ∈ rows (tblSTIGCheck (db sampleState)) ->
             STIGCheck_stigId c <> sequence (tblSTIG (db sampleState)) + 1).
  { apply Forall_forall. by_computation. }
  destruct (AddSTIG_stores_STIG_and_checks sampleState stig_rhel7 [check_new] false H1 H2 H3 H4)
    as (s' & Hrun & Hrows & Hchecks & Hread & Hd & _).
  exists s'. split; [exact Hrun|]. split; [by rewrite Hrows|].
  split; [by rewrite Hchecks|]. split; [|exact Hd].
  change (mkSTIG 2 (Q"Red Hat 7") [] (Q"Release: 2") 2 (Q"RHEL_7_STIG") (Q"U_RHEL_7.zip"))
    with (mkSTIG (sequence (tblSTIG (db sampleState)) + 1) (STIG_title stig_rhel7)
                 (STIG_description stig_rhel7) (STIG_release stig_rhel7)
                 (STIG_version stig_rhel7) (STIG_benchmarkId stig_rhel7)
                 (STIG_fileName stig_rhel7)).
  by rewrite Hread.
Defined.

(** Property X14 on the sample report: the row of CCI-000366. *)
Lemma report_CCI_column_reads_back_sample :
  toInt (col3_cci failedRow_366) = 366.
Proof.
  assert (H1 : failedRow_366 ∈ dataRows sampleReport) by (vm_compute; left).
  assert (H2 : 0 <= CCI_cci (Row_cci failedRow_366) <= INT_MAX) by by_computation.
  destruct (report_CCI_column_reads_back cciOf CCI_cci controlOf PrintControl
              (fun s => s) (fun l => l) printCheck printCheck
              (Q"03-Nov-2019") (Q"tester")
              [reviewed_1; reviewed_2] (GetCCIs sampleDb) failedRow_366 H1)
    as (_ & _ & _ & Hread).
  exact (proj2 (Hread H2)).
Defined.

(** Property X16 on the sample report: the row of CCI-000366 lists the
    open check. *)
Lemma report_rows_list_their_checks_sample :
  col10_testResults failedRow_366
  = failedResults printCheck
      (List.filter (fun cc => bool_decide (CKLCheck_status cc = Open)
                              && (CCI_cci (cciOf cc) =? CCI_cci (Row_cci failedRow_366)))
                   [reviewed_1; reviewed_2]).
Proof.
  assert (H1 : failedRow_366 ∈ dataRows sampleReport) by (vm_compute; left).
  exact (proj1 (report_rows_list_their_checks cciOf CCI_cci controlOf PrintControl
                  (fun s => s) (fun l => l) printCheck printCheck
                  (Q"03-Nov-2019") (Q"tester")
                  [reviewed_1; reviewed_2] (GetCCIs sampleDb) failedRow_366 H1) eq_refl).
Defined.

(** Property X18 on the sample benchmark: a rule read with the STIG in
    hand. *)
Lemma ParseSTIG_header_is_final_sample :
  p_s (parseRounds severityOf cciNumberOf cciOfNumber (fun s _ => s) (fun _ => [])
         20 (ruleTokens rule_V1) (mkParser stig_win10 check_blank [] true false false))
  = stig_win10.
Proof.
  apply (ParseSTIG_header_is_final severityOf cciNumberOf cciOfNumber (fun s _ => s)
           (fun _ => []) 20 (ruleTokens rule_V1)
           (mkParser stig_win10 check_blank [] true false false)).
  left. reflexivity.
Defined.

(** Property X19 on a benchmark that has a profile and no rules. *)
Lemma ParseSTIG_without_Rule_sample :
  (ParseSTIG check_blank severityOf cciNumberOf cciOfNumber (fun s _ => s) (fun _ => [])
             (benchmark header_win10 [])).2 = [].
Proof.
  apply (proj2 (ParseSTIG_without_Rule check_blank severityOf cciNumberOf cciOfNumber
                  (fun s _ => s) (fun _ => []) (benchmark header_win10 []))).
  by_computation.
Defined.
